(** * Eco-logistics: allocation and consolidation matching engine

    A shallow embedding of the route allocator, the cargo-compatibility
    check, the proximity matcher, the acceptance handler and the handshake
    handler of the repository, with the properties of its specification
    stated and settled against it.

    Conventions of the embedding.
    - A JavaScript number is a rational ([Q]); [NaN] is outside the model.
      The additions of the allocator, which decide what a truck takes, are
      a parameter of the model, so that its properties hold whatever their
      rounding is; [Js.addDouble] is the rounded sum of the language.  The
      other operations are exact.  A nullable field is an [option]: [None]
      stands for [null]/[undefined].
    - A string is the sequence of its bytes, and [Js.toUpperCase] acts on
      the ASCII letters, which is what the keys of the compatibility table
      are made of.
    - A table of the store is the list of its rows in store order; a query
      without [ORDER BY] returns the matching rows in that order.
    - A handler takes the store and the request and returns its HTTP
      response and the store after its writes, with the events it emitted
      where it emits any.
    - The great-circle distance of the raw queries is computed by the
      database: the handlers take it as a parameter, which gives the value
      or tells that the evaluation raised, in which case the query fails
      and the handler goes to its [catch] clause.  [GreatCircle.haversineKm]
      is the expression over the real numbers. *)

From Stdlib Require Import String Ascii List Bool Arith ZArith QArith Qabs.
From Stdlib Require Import Qround.
From Stdlib Require Import Reals Lra Lia Psatz.
From Stdlib Require Import DecimalString Sorted.
Import ListNotations.

Local Open Scope string_scope.
Local Open Scope Q_scope.
Local Open Scope list_scope.

(** ** JavaScript value helpers *)

Module Js.

(** [!!s] for a nullable string: [null], [undefined] and [""] are falsy. *)
Definition truthyStr (s : option string) : bool :=
  match s with
  | None => false
  | Some EmptyString => false
  | Some (String _ _) => true
  end.

(** [!!x] for a nullable number: [null], [undefined] and [0] are falsy. *)
Definition truthyNum (x : option Q) : bool :=
  match x with
  | None => false
  | Some q => negb (Qeq_bool q 0)
  end.

(** [x || d] for a nullable number [x] and a numeric default [d]. *)
Definition orNum (x : option Q) (d : Q) : Q :=
  match x with
  | Some q => if Qeq_bool q 0 then d else q
  | None => d
  end.

(** A number that may be [Infinity]. *)
Inductive ext : Type :=
| Fin (q : Q)
| Infinity.

(** [x || Infinity]. *)
Definition orInfinity (x : option Q) : ext :=
  match x with
  | Some q => if Qeq_bool q 0 then Infinity else Fin q
  | None => Infinity
  end.

(** [a <= b] where [b] may be [Infinity]. *)
Definition leExt (a : Q) (b : ext) : bool :=
  match b with
  | Fin q => Qle_bool a q
  | Infinity => true
  end.

(** A nullable number used as an operand of a comparison: [null] is
    converted to [0]. *)
Definition toNumber (x : option Q) : Q :=
  match x with
  | Some q => q
  | None => 0
  end.

(** [a >= b]. *)
Definition geb (a b : Q) : bool := Qle_bool b a.

(** [a < b]. *)
Definition ltb (a b : Q) : bool := negb (Qle_bool b a).

(** The largest [k] with [2 ^ k <= x], for a positive [x]. *)
Definition floorLog2 (x : Q) : Z :=
  let k := (Z.log2 (Qnum x) - Z.log2 (Zpos (Qden x)))%Z in
  if Qle_bool (2 ^ k) x then k else (k - 1)%Z.

(** Rounding to the nearest integer, a tie going to the even one. *)
Definition roundHalfEven (x : Q) : Z :=
  let f := Qfloor x in
  match Qcompare (x - inject_Z f) (1 # 2) with
  | Lt => f
  | Gt => (f + 1)%Z
  | Eq => if Z.even f then f else (f + 1)%Z
  end.

(** The double nearest to a rational: 53 significant bits, or the multiple
    of [2 ^ -1074] for a subnormal, ties to even.  Overflow to [Infinity]
    is not represented. *)
Definition roundDouble (x : Q) : Q :=
  if Qeq_bool x 0 then 0
  else
    let e := Z.max (floorLog2 (Qabs x) - 52) (-1074) in
    let m := roundHalfEven (Qabs x / 2 ^ e) in
    let r := Qred (inject_Z m * 2 ^ e) in
    if Qle_bool 0 x then r else - r.

(** [x + y] on two numbers of the language: the sum, rounded. *)
Definition addDouble (x y : Q) : Q := roundDouble (x + y).

(** [String.prototype.toUpperCase] on the ASCII letters; the other bytes
    are left as they are. *)
Definition upperAscii (c : ascii) : ascii :=
  let n := nat_of_ascii c in
  if (97 <=? n)%nat && (n <=? 122)%nat then ascii_of_nat (n - 32) else c.

Fixpoint toUpperCase (s : string) : string :=
  match s with
  | EmptyString => EmptyString
  | String c s' => String (upperAscii c) (toUpperCase s')
  end.

(** [Array.prototype.includes] on an array of strings. *)
Definition includes (l : list string) (x : string) : bool :=
  existsb (String.eqb x) l.

(** Decimal rendering of a length in a template string. *)
Definition showNat (n : nat) : string :=
  NilEmpty.string_of_uint (Nat.to_uint n).

End Js.

(** ** synergyController.js: cargo compatibility *)

(** The object literal [CARGO_COMPATIBILITY], in the order it is written. *)
Definition CARGO_COMPATIBILITY : list (string * list string) :=
  [ ("FOOD",        ["PHARMA"; "ELECTRONICS"]);
    ("PHARMA",      ["FOOD"; "ELECTRONICS"]);
    ("ELECTRONICS", ["FOOD"; "PHARMA"; "FRAGILE"]);
    ("CHEMICALS",   ["INDUSTRIAL"]);
    ("INDUSTRIAL",  ["CHEMICALS"]);
    ("FRAGILE",     ["ELECTRONICS"; "CLOTHING"]);
    ("CLOTHING",    ["FRAGILE"]) ].

(** Property access [obj[key]]: [None] is [undefined]. *)
Fixpoint getProperty (obj : list (string * list string)) (key : string)
  : option (list string) :=
  match obj with
  | [] => None
  | (k, v) :: rest => if String.eqb k key then Some v else getProperty rest key
  end.


(** [areCompatible(type1, type2)].  The result is [Some b] for the boolean
    [b], and [None] for [undefined], which [compatibility && ...] yields
    when the first type has no entry. *)
Definition areCompatible (type1 type2 : option string) : option bool :=
  match type1, type2 with
  | Some t1, Some t2 =>
      if negb (Js.truthyStr type1) || negb (Js.truthyStr type2) then Some true
      else if String.eqb t1 t2 then Some true
      else
        match getProperty CARGO_COMPATIBILITY (Js.toUpperCase t1) with
        | Some compatibility =>
            Some (Js.includes compatibility (Js.toUpperCase t2))
        | None => None
        end
  | _, _ => Some true
  end.

(** Truthiness of a result of [areCompatible], as [filter(Boolean)] sees it. *)
Definition truthyResult (r : option bool) : bool :=
  match r with
  | Some b => b
  | None => false
  end.

(** ** The store *)

Definition Id : Type := string.

(** A point in time, in milliseconds. *)
Definition Timestamp : Type := Z.

Module Delivery.
Record t : Type := mk {
  id : Id;
  courierCompanyId : Id;
  status : string;
  cargoWeight : Q;
  cargoVolumeLtrs : Q;
  timeWindowStart : Timestamp;
  truckId : option Id;
  driverId : option Id;
  optimizedRouteId : option Id
}.
End Delivery.

Module User.
Record t : Type := mk {
  id : Id;
  name : string;
  totalDistanceKm : option Q;
  totalHoursWorked : option Q
}.
End User.

Module Truck.
Record t : Type := mk {
  id : Id;
  courierCompanyId : Id;
  isAvailable : bool;
  registrationStatus : string;
  ownerId : Id;
  maxWeight : option Q;
  maxVolume : option Q;
  currentWeight : option Q;
  currentVolume : option Q;
  currentLat : option Q;
  currentLng : option Q;
  co2PerKm : option Q
}.
End Truck.

(** An [OptimizedRoute] row. *)
Module Route.
Record t : Type := mk {
  id : Id;
  courierCompanyId : Id;
  truckId : Id;
  driverId : Id;
  totalDistance : Q;
  totalDuration : Q;
  estimatedStartTime : Timestamp;
  estimatedEndTime : Timestamp;
  totalPackages : nat;
  totalWeight : Q;
  totalVolume : Q;
  utilizationPercent : Q;
  baselineDistance : Q;
  carbonSaved : Q;
  emptyMilesSaved : Q;
  status : string
}.
End Route.

(** A [VirtualHub] row. *)
Module Hub.
Record t : Type := mk {
  id : Id;
  latitude : Q;
  longitude : Q;
  radius : Q
}.
End Hub.

(** An [AbsorptionOpportunity] row. *)
Module Opportunity.
Record t : Type := mk {
  id : Id;
  route1Id : Id;
  route2Id : Id;
  overlapDistanceKm : Q;
  overlapStartTime : Timestamp;
  overlapEndTime : Timestamp;
  nearestHubId : Id;
  overlapCenterLat : Q;
  overlapCenterLng : Q;
  estimatedMeetTime : Timestamp;
  timeWindow : Z;
  eligibleDeliveryIds : string;
  truck1DistanceBefore : Q;
  truck1DistanceAfter : Q;
  truck2DistanceBefore : Q;
  truck2DistanceAfter : Q;
  totalDistanceSaved : Q;
  potentialCarbonSaved : Q;
  spaceRequiredVolume : option Q;
  spaceRequiredWeight : option Q;
  truck1SpaceAvailable : Q;
  truck2SpaceAvailable : Q;
  expiresAt : Timestamp;
  status : string;
  acceptedByRoute1At : option Timestamp;
  acceptedByRoute2At : option Timestamp
}.

Definition setStatus (s : string) (o : t) : t :=
  mk (id o) (route1Id o) (route2Id o) (overlapDistanceKm o)
     (overlapStartTime o) (overlapEndTime o) (nearestHubId o)
     (overlapCenterLat o) (overlapCenterLng o) (estimatedMeetTime o)
     (timeWindow o) (eligibleDeliveryIds o)
     (truck1DistanceBefore o) (truck1DistanceAfter o)
     (truck2DistanceBefore o) (truck2DistanceAfter o) (totalDistanceSaved o)
     (potentialCarbonSaved o) (spaceRequiredVolume o)
     (spaceRequiredWeight o) (truck1SpaceAvailable o)
     (truck2SpaceAvailable o) (expiresAt o) s
     (acceptedByRoute1At o) (acceptedByRoute2At o).

Definition setAcceptedByRoute1At (at1 : Timestamp) (o : t) : t :=
  mk (id o) (route1Id o) (route2Id o) (overlapDistanceKm o)
     (overlapStartTime o) (overlapEndTime o) (nearestHubId o)
     (overlapCenterLat o) (overlapCenterLng o) (estimatedMeetTime o)
     (timeWindow o) (eligibleDeliveryIds o)
     (truck1DistanceBefore o) (truck1DistanceAfter o)
     (truck2DistanceBefore o) (truck2DistanceAfter o) (totalDistanceSaved o)
     (potentialCarbonSaved o) (spaceRequiredVolume o)
     (spaceRequiredWeight o) (truck1SpaceAvailable o)
     (truck2SpaceAvailable o) (expiresAt o) (status o)
     (Some at1) (acceptedByRoute2At o).

Definition setAcceptedByRoute2At (at2 : Timestamp) (o : t) : t :=
  mk (id o) (route1Id o) (route2Id o) (overlapDistanceKm o)
     (overlapStartTime o) (overlapEndTime o) (nearestHubId o)
     (overlapCenterLat o) (overlapCenterLng o) (estimatedMeetTime o)
     (timeWindow o) (eligibleDeliveryIds o)
     (truck1DistanceBefore o) (truck1DistanceAfter o)
     (truck2DistanceBefore o) (truck2DistanceAfter o) (totalDistanceSaved o)
     (potentialCarbonSaved o) (spaceRequiredVolume o)
     (spaceRequiredWeight o) (truck1SpaceAvailable o)
     (truck2SpaceAvailable o) (expiresAt o) (status o)
     (acceptedByRoute1At o) (Some at2).
End Opportunity.

Module Store.
Record t : Type := mk {
  deliveries : list Delivery.t;
  trucks : list Truck.t;
  users : list User.t;
  routes : list Route.t;
  hubs : list Hub.t;
  opportunities : list Opportunity.t
}.
End Store.

(** What a handler reads from its surroundings: the clock, and the
    identifier the store gives to the [n]-th row of a table. *)
Record Env : Type := {
  now : Timestamp;
  genId : nat -> Id
}.

(** The JSON bodies the handlers send. *)
Inductive Body : Type :=
| BFailure (message : string)
    (* { success: false, message } *)
| BInfo (message : string)
    (* { success: true, message } *)
| BMessage (message : string)
    (* { message } *)
| BAllocated (message : string) (data : list Route.t)
    (* { success: true, message, data } *)
| BAccepted (opportunity : Opportunity.t)
    (* { success: true, opportunity } *)
| BHandshake (message : string) (longHaulDriver shortHaulDriver : string)
    (* { success: true, message, data: { longHaulDriver, shortHaulDriver } } *)
| BInternal (message : string).
    (* the body of the catch clause *)

Record Response : Type := {
  statusCode : nat;
  body : Body
}.

(** [findUnique({ where: { id } })] on each table. *)
Definition findTruck (db : Store.t) (i : Id) : option Truck.t :=
  find (fun t => String.eqb (Truck.id t) i) (Store.trucks db).

Definition findUser (db : Store.t) (i : Id) : option User.t :=
  find (fun u => String.eqb (User.id u) i) (Store.users db).

Definition findRoute (db : Store.t) (i : Id) : option Route.t :=
  find (fun r => String.eqb (Route.id r) i) (Store.routes db).

Definition findOpportunity (db : Store.t) (i : Id) : option Opportunity.t :=
  find (fun o => String.eqb (Opportunity.id o) i) (Store.opportunities db).

(** ** routeController.js: allocateRoutes *)

Module Request.
(** The body of [POST /api/routes/allocate]. *)
Record allocate : Type := {
  courierCompanyId : option Id
}.
End Request.

(** An element of the array [allocations]. *)
Module Allocation.
Record t : Type := mk {
  truck : Truck.t;
  deliveries : list Delivery.t;
  totalWeight : Q;
  totalVolume : Q
}.
End Allocation.

(** Insertion of a row in a list ordered by [timeWindowStart], in front of
    the rows with the same key. *)
Fixpoint insertByTimeWindow (d : Delivery.t) (l : list Delivery.t)
  : list Delivery.t :=
  match l with
  | [] => [d]
  | x :: l' =>
      if (Delivery.timeWindowStart d <=? Delivery.timeWindowStart x)%Z
      then d :: l
      else x :: insertByTimeWindow d l'
  end.

(** [orderBy: { timeWindowStart: 'asc' }].  The rows are inserted from the
    last one to the first one, so that rows with the same [timeWindowStart]
    keep the order of the store (SQL leaves their order open). *)
Definition orderByTimeWindowStart (l : list Delivery.t) : list Delivery.t :=
  fold_right insertByTimeWindow [] l.

(** [prisma.delivery.findMany] of step 1. *)
Definition findPendingDeliveries (db : Store.t) (company : Id)
  : list Delivery.t :=
  orderByTimeWindowStart
    (filter (fun d => String.eqb (Delivery.courierCompanyId d) company
                      && String.eqb (Delivery.status d) "PENDING")
            (Store.deliveries db)).

(** [prisma.truck.findMany] of step 2. *)
Definition findAvailableTrucks (db : Store.t) (company : Id) : list Truck.t :=
  filter (fun t => String.eqb (Truck.courierCompanyId t) company
                   && Truck.isAvailable t
                   && String.eqb (Truck.registrationStatus t) "APPROVED")
         (Store.trucks db).

(** The variables of the body of the [for] loop over the trucks. *)
Record Fill : Type := {
  currentWeight : Q;
  currentVolume : Q;
  routeDeliveries : list Delivery.t;
  deliveryIndex : nat
}.

Section Allocator.

(** [x + y] on two numbers as the language computes it, that is, the sum
    rounded to a double ([Js.addDouble]).  The loop applies it to the
    running total and the cargo of a delivery, once for the capacity test
    and once more, on the same operands, for the update.  The allocator is
    defined for any such operation, and its properties do not depend on how
    the operation rounds. *)
Variable add : Q -> Q -> Q.

Definition fitsWeight (truck : Truck.t) (st : Fill) (delivery : Delivery.t)
  : bool :=
  Js.leExt (add (currentWeight st) (Delivery.cargoWeight delivery))
           (Js.orInfinity (Truck.maxWeight truck)).

Definition fitsVolume (truck : Truck.t) (st : Fill) (delivery : Delivery.t)
  : bool :=
  Js.leExt (add (currentVolume st) (Delivery.cargoVolumeLtrs delivery))
           (Js.orInfinity (Truck.maxVolume truck)).

(** The branch of the [while] loop that takes the delivery. *)
Definition takeDelivery (st : Fill) (delivery : Delivery.t) : Fill :=
  {| currentWeight := add (currentWeight st) (Delivery.cargoWeight delivery);
     currentVolume :=
       add (currentVolume st) (Delivery.cargoVolumeLtrs delivery);
     routeDeliveries := routeDeliveries st ++ [delivery];
     deliveryIndex := S (deliveryIndex st) |}.

(** The variables as a truck starts: [currentWeight = 0],
    [currentVolume = 0], [routeDeliveries = []], and the shared
    [deliveryIndex] as the previous truck left it. *)
Definition startFill (deliveryIndex0 : nat) : Fill :=
  {| currentWeight := 0; currentVolume := 0;
     routeDeliveries := []; deliveryIndex := deliveryIndex0 |}.

(** The [while] loop of a truck.  [rest] is the part of
    [pendingDeliveries] from [deliveryIndex] on, so that its head is
    [pendingDeliveries[deliveryIndex]] and the loop ends when it is empty. *)
Fixpoint fillTruck (truck : Truck.t) (rest : list Delivery.t) (st : Fill)
  : Fill :=
  match rest with
  | [] => st
  | delivery :: rest' =>
      if fitsWeight truck st delivery && fitsVolume truck st delivery
      then fillTruck truck rest' (takeDelivery st delivery)
      else st
  end.

(** The [for] loop over the trucks, with the shared [deliveryIndex] and the
    array [allocations] as its state. *)
Fixpoint allocateLoop (pendingDeliveries : list Delivery.t)
    (availableTrucks : list Truck.t) (deliveryIndex0 : nat)
    (allocations : list Allocation.t) : list Allocation.t * nat :=
  match availableTrucks with
  | [] => (allocations, deliveryIndex0)
  | truck :: trucks' =>
      if (length pendingDeliveries <=? deliveryIndex0)%nat
      then (allocations, deliveryIndex0)
      else
        let st :=
          fillTruck truck (skipn deliveryIndex0 pendingDeliveries)
            (startFill deliveryIndex0) in
        let allocations' :=
          if (0 <? length (routeDeliveries st))%nat
          then allocations ++
               [Allocation.mk truck (routeDeliveries st)
                  (currentWeight st) (currentVolume st)]
          else allocations in
        allocateLoop pendingDeliveries trucks' (deliveryIndex st) allocations'
  end.

(** Step 3 as a whole. *)
Definition greedyAllocation (pendingDeliveries : list Delivery.t)
    (availableTrucks : list Truck.t) : list Allocation.t :=
  fst (allocateLoop pendingDeliveries availableTrucks 0 []).

(** The data of [tx.optimizedRoute.create]. *)
Definition routeOfAllocation (env : Env) (company : Id) (routeId : Id)
    (alloc : Allocation.t) : Route.t :=
  let truck := Allocation.truck alloc in
  {| Route.id := routeId;
     Route.courierCompanyId := company;
     Route.truckId := Truck.id truck;
     Route.driverId := Truck.ownerId truck;
     Route.totalDistance := 0;
     Route.totalDuration := 60;
     Route.estimatedStartTime := now env;
     Route.estimatedEndTime := (now env + 3600000)%Z;
     Route.totalPackages := length (Allocation.deliveries alloc);
     Route.totalWeight := Allocation.totalWeight alloc;
     Route.totalVolume := Allocation.totalVolume alloc;
     Route.utilizationPercent :=
       if Js.truthyNum (Truck.maxWeight truck)
       then (Allocation.totalWeight alloc
             / Js.toNumber (Truck.maxWeight truck)) * 100
       else 0;
     Route.baselineDistance := 0;
     Route.carbonSaved := 0;
     Route.emptyMilesSaved := 0;
     Route.status := "ALLOCATED" |}.

(** The data of [tx.delivery.updateMany]. *)
Definition allocateDelivery (truck : Truck.t) (routeId : Id) (d : Delivery.t)
  : Delivery.t :=
  {| Delivery.id := Delivery.id d;
     Delivery.courierCompanyId := Delivery.courierCompanyId d;
     Delivery.status := "ALLOCATED";
     Delivery.cargoWeight := Delivery.cargoWeight d;
     Delivery.cargoVolumeLtrs := Delivery.cargoVolumeLtrs d;
     Delivery.timeWindowStart := Delivery.timeWindowStart d;
     Delivery.truckId := Some (Truck.id truck);
     Delivery.driverId := Some (Truck.ownerId truck);
     Delivery.optimizedRouteId := Some routeId |}.

(** The data of [tx.truck.update]. *)
Definition markUnavailable (t : Truck.t) : Truck.t :=
  {| Truck.id := Truck.id t;
     Truck.courierCompanyId := Truck.courierCompanyId t;
     Truck.isAvailable := false;
     Truck.registrationStatus := Truck.registrationStatus t;
     Truck.ownerId := Truck.ownerId t;
     Truck.maxWeight := Truck.maxWeight t;
     Truck.maxVolume := Truck.maxVolume t;
     Truck.currentWeight := Truck.currentWeight t;
     Truck.currentVolume := Truck.currentVolume t;
     Truck.currentLat := Truck.currentLat t;
     Truck.currentLng := Truck.currentLng t;
     Truck.co2PerKm := Truck.co2PerKm t |}.

(** One iteration of the loop inside the transaction. *)
Definition commitAllocation (env : Env) (company : Id)
    (acc : Store.t * list Route.t) (alloc : Allocation.t)
  : Store.t * list Route.t :=
  let '(db, createdRoutes) := acc in
  let truck := Allocation.truck alloc in
  let route :=
    routeOfAllocation env company (genId env (length (Store.routes db)))
      alloc in
  let ids := map Delivery.id (Allocation.deliveries alloc) in
  ({| Store.deliveries :=
        map (fun d => if Js.includes ids (Delivery.id d)
                      then allocateDelivery truck (Route.id route) d
                      else d)
            (Store.deliveries db);
      Store.trucks :=
        map (fun t => if String.eqb (Truck.id t) (Truck.id truck)
                      then markUnavailable t else t)
            (Store.trucks db);
      Store.users := Store.users db;
      Store.routes := Store.routes db ++ [route];
      Store.hubs := Store.hubs db;
      Store.opportunities := Store.opportunities db |},
   createdRoutes ++ [route]).

(** Step 4: the transaction. *)
Definition commitAllocations (env : Env) (company : Id) (db : Store.t)
    (allocations : list Allocation.t) : Store.t * list Route.t :=
  fold_left (commitAllocation env company) allocations (db, []).

(** [exports.allocateRoutes]. *)
Definition allocateRoutes (env : Env) (db : Store.t) (req : Request.allocate)
  : Response * Store.t :=
  match Request.courierCompanyId req with
  | None =>
      ({| statusCode := 400;
          body := BFailure "courierCompanyId is required" |}, db)
  | Some company =>
      if negb (Js.truthyStr (Some company)) then
        ({| statusCode := 400;
            body := BFailure "courierCompanyId is required" |}, db)
      else
        let pendingDeliveries := findPendingDeliveries db company in
        if (length pendingDeliveries =? 0)%nat then
          ({| statusCode := 200;
              body := BInfo "No pending deliveries to allocate" |}, db)
        else
          let availableTrucks := findAvailableTrucks db company in
          if (length availableTrucks =? 0)%nat then
            ({| statusCode := 400;
                body := BFailure "No available trucks for allocation" |}, db)
          else
            let allocations :=
              greedyAllocation pendingDeliveries availableTrucks in
            let '(db', results) :=
              commitAllocations env company db allocations in
            ({| statusCode := 201;
                body :=
                  BAllocated
                    ("Allocated " ++ Js.showNat (length allocations)
                     ++ " routes for "
                     ++ Js.showNat (length pendingDeliveries)
                     ++ " packages")%string
                    results |}, db')
  end.

End Allocator.

(** The running total of the loop: [0], then [+=] for each number in turn. *)
Definition runningTotal (add : Q -> Q -> Q) (l : list Q) : Q :=
  fold_left add l 0.

(** Every addition of the running total, started at [acc], is exact. *)
Fixpoint exactFrom (add : Q -> Q -> Q) (acc : Q) (l : list Q) : Prop :=
  match l with
  | [] => True
  | x :: l' => add acc x == acc + x /\ exactFrom add (add acc x) l'
  end.

(** The summed weight and volume of the deliveries of a route. *)
Definition sumWeight (l : list Delivery.t) : Q :=
  fold_right (fun d acc => Delivery.cargoWeight d + acc) 0 l.

Definition sumVolume (l : list Delivery.t) : Q :=
  fold_right (fun d acc => Delivery.cargoVolumeLtrs d + acc) 0 l.

(** The capacity test of a dimension, on the accumulated load. *)
Definition withinLimit (total : Q) (limit : option Q) : bool :=
  Js.leExt total (Js.orInfinity limit).

(** The accumulated load is within the two limits of the truck. *)
Definition withinLimits (truck : Truck.t) (st : Fill) : Prop :=
  withinLimit (currentWeight st) (Truck.maxWeight truck) = true
  /\ withinLimit (currentVolume st) (Truck.maxVolume truck) = true.

(** The order of the queue: non-decreasing [timeWindowStart]. *)
Definition timeWindowLe (a b : Delivery.t) : Prop :=
  (Delivery.timeWindowStart a <= Delivery.timeWindowStart b)%Z.

(** What the response and the store show of a delivery after a run. *)
Definition deliveryBinding (d : Delivery.t) : Id * string * option Id :=
  (Delivery.id d, Delivery.status d, Delivery.optimizedRouteId d).

(** ** routeController.js: detectAbsorptionOpportunity *)

(** The events sent through [io.emit]. *)
Inductive Event : Type :=
| AbsorptionOpportunityEvent
    (opportunityId truckA truckB hub : Id) (carbonSaved : Q)
    (* 'synergy:absorption_opportunity'; [carbonSaved] is the number that
       [toFixed(2)] renders *)
| AbsorptionCompletedEvent (opportunityId : Id) (assignedDriver : string).
    (* 'synergy:absorption_completed' *)

(** A row of the raw query over ["Truck"]. *)
Module NearbyTruck.
Record t : Type := mk {
  id : Id;
  currentLat : Q;
  currentLng : Q;
  distance : Q
}.
End NearbyTruck.

(** A row of the raw query over ["VirtualHub"]. *)
Module NearbyHub.
Record t : Type := mk {
  id : Id;
  latitude : Q;
  longitude : Q;
  radius : Q;
  distance : Q
}.
End NearbyHub.

(** [include: { optimizedRoutes: { where: { status: 'ACTIVE' } } }]. *)
Definition activeRoutes (db : Store.t) (truck : Truck.t) : list Route.t :=
  filter (fun r => String.eqb (Route.truckId r) (Truck.id truck)
                   && String.eqb (Route.status r) "ACTIVE")
         (Store.routes db).

(** [include: { deliveries: true }] of a route. *)
Definition routeDeliveriesOf (db : Store.t) (routeId : Id)
  : list Delivery.t :=
  filter (fun d => match Delivery.optimizedRouteId d with
                   | Some r => String.eqb r routeId
                   | None => false
                   end)
         (Store.deliveries db).

Section Proximity.

(** What the database computes for

    [6371 * acos(cos(radians(lat)) * cos(radians(rowLat))
       * cos(radians(rowLng) - radians(lng))
       + sin(radians(lat)) * sin(radians(rowLat)))]

    from [lat], [lng], [rowLat] and [rowLng], in this order: [Some] of the
    value, or [None] when the evaluation raises.  The argument of [acos] is
    computed in doubles and can exceed 1 by a rounding error for a row at
    the reported position; the database then reports an input out of range,
    the query fails, and the caller lands in its [catch] clause. *)
Variable haversineKm : Q -> Q -> Q -> Q -> option Q.

(** The rows of ["Truck"] on which the query of step 2 evaluates the
    expression: the rows that pass [id != truckId], the cheaper condition of
    the [WHERE] clause, and have a position.  On a row whose position is
    [NULL] the expression is [NULL] and raises nothing. *)
Definition trucksQueryRaises (db : Store.t) (truckId : Id) (lat lng : Q)
  : bool :=
  existsb
    (fun t =>
       if String.eqb (Truck.id t) truckId then false
       else
         match Truck.currentLat t, Truck.currentLng t with
         | Some rowLat, Some rowLng =>
             match haversineKm lat lng rowLat rowLng with
             | None => true
             | Some _ => false
             end
         | _, _ => false
         end)
    (Store.trucks db).

(** The rows that pass the [WHERE] clause of step 2.  A row whose position
    is [NULL] has a [NULL] distance and does not pass. *)
Definition trucksWithin5 (db : Store.t) (truckId : Id) (lat lng : Q)
  : list NearbyTruck.t :=
  flat_map
    (fun t =>
       if String.eqb (Truck.id t) truckId then []
       else
         match Truck.currentLat t, Truck.currentLng t with
         | Some rowLat, Some rowLng =>
             match haversineKm lat lng rowLat rowLng with
             | Some distance =>
                 if Js.ltb distance 5
                 then [NearbyTruck.mk (Truck.id t) rowLat rowLng distance]
                 else []
             | None => []
             end
         | _, _ => []
         end)
    (Store.trucks db).

(** The raw query of step 2: [None] when it fails. *)
Definition nearbyTrucksQuery (db : Store.t) (truckId : Id) (lat lng : Q)
  : option (list NearbyTruck.t) :=
  if trucksQueryRaises db truckId lat lng then None
  else Some (trucksWithin5 db truckId lat lng).

(** The rows of ["VirtualHub"] that pass the [WHERE] clause of step 3. *)
Definition hubsWithin5 (db : Store.t) (lat lng : Q) : list NearbyHub.t :=
  flat_map
    (fun h =>
       match haversineKm lat lng (Hub.latitude h) (Hub.longitude h) with
       | Some distance =>
           if Js.ltb distance 5
           then [NearbyHub.mk (Hub.id h) (Hub.latitude h) (Hub.longitude h)
                   (Hub.radius h) distance]
           else []
       | None => []
       end)
    (Store.hubs db).

(** The scan of the query of step 3: with [LIMIT 1] it ends at the first
    row that passes the [WHERE] clause, and the rows behind it are not
    evaluated.  [None] when the expression raises on a row it reaches. *)
Fixpoint firstHubWithin5 (lat lng : Q) (hubs : list Hub.t)
  : option (list NearbyHub.t) :=
  match hubs with
  | [] => Some []
  | h :: rest =>
      match haversineKm lat lng (Hub.latitude h) (Hub.longitude h) with
      | None => None
      | Some distance =>
          if Js.ltb distance 5
          then Some [NearbyHub.mk (Hub.id h) (Hub.latitude h)
                       (Hub.longitude h) (Hub.radius h) distance]
          else firstHubWithin5 lat lng rest
      end
  end.

(** The raw query of step 3: [None] when it fails. *)
Definition nearbyHubsQuery (db : Store.t) (lat lng : Q)
  : option (list NearbyHub.t) :=
  firstHubWithin5 lat lng (Store.hubs db).

(** [ids.join(',')]. *)
Definition joinIds (ids : list Id) : string :=
  String.concat "," ids.

Definition availableWeight (truck : Truck.t) : Q :=
  Js.orNum (Truck.maxWeight truck) 0 - Js.orNum (Truck.currentWeight truck) 0.

Definition availableVolume (truck : Truck.t) : Q :=
  Js.orNum (Truck.maxVolume truck) 0 - Js.orNum (Truck.currentVolume truck) 0.

(** Step 4: can A absorb B's load? *)
Definition canAbsorb (truckA truckB : Truck.t) : bool :=
  Js.geb (availableWeight truckA) (Js.toNumber (Truck.currentWeight truckB))
  && Js.geb (availableVolume truckA)
            (Js.toNumber (Truck.currentVolume truckB)).

(** The data of [prisma.absorptionOpportunity.create]. *)
Definition newOpportunity (env : Env) (db : Store.t) (lat lng : Q)
    (truckA truckB : Truck.t) (routeA routeB : Route.t)
    (candidate : NearbyTruck.t) (hub : NearbyHub.t) : Opportunity.t :=
  let distanceSaved := NearbyTruck.distance candidate in
  let carbonSaved := distanceSaved * Js.orNum (Truck.co2PerKm truckA) (1 # 2) in
  {| Opportunity.id := genId env (length (Store.opportunities db));
     Opportunity.route1Id := Route.id routeA;
     Opportunity.route2Id := Route.id routeB;
     Opportunity.overlapDistanceKm := distanceSaved;
     Opportunity.overlapStartTime := now env;
     Opportunity.overlapEndTime := (now env + 3600000)%Z;
     Opportunity.nearestHubId := NearbyHub.id hub;
     Opportunity.overlapCenterLat := lat;
     Opportunity.overlapCenterLng := lng;
     Opportunity.estimatedMeetTime := (now env + 1800000)%Z;
     Opportunity.timeWindow := 30%Z;
     Opportunity.eligibleDeliveryIds :=
       joinIds (map Delivery.id (routeDeliveriesOf db (Route.id routeB)));
     Opportunity.truck1DistanceBefore := 0;
     Opportunity.truck1DistanceAfter := 0;
     Opportunity.truck2DistanceBefore := 0;
     Opportunity.truck2DistanceAfter := 0;
     Opportunity.totalDistanceSaved := distanceSaved;
     Opportunity.potentialCarbonSaved := carbonSaved;
     Opportunity.spaceRequiredVolume := Truck.currentVolume truckB;
     Opportunity.spaceRequiredWeight := Truck.currentWeight truckB;
     Opportunity.truck1SpaceAvailable := availableVolume truckA;
     Opportunity.truck2SpaceAvailable := availableVolume truckB;
     Opportunity.expiresAt := (now env + 3600000)%Z;
     Opportunity.status := "PENDING";
     Opportunity.acceptedByRoute1At := None;
     Opportunity.acceptedByRoute2At := None |}.

(** What the loop over the candidates finds: the opportunity to create,
    with the candidate truck and the hub it was built from. *)
Record Match : Type := {
  matchOpportunity : Opportunity.t;
  matchTruckB : Truck.t;
  matchHub : NearbyHub.t
}.

(** How the loop over the candidates ends. *)
Inductive LoopResult : Type :=
| LoopRaised
    (* the hub query failed: control goes to the [catch] clause *)
| LoopNone
    (* the loop ran out of candidates: [return null] *)
| LoopMatch (m : Match).
    (* the opportunity is created and returned *)

(** The [for] loop over [nearbyTrucks]; each [continue] is the recursive
    call on the remaining candidates. *)
Fixpoint detectLoop (env : Env) (db : Store.t) (lat lng : Q)
    (truckA : Truck.t) (routeA : Route.t)
    (nearbyTrucks : list NearbyTruck.t) : LoopResult :=
  match nearbyTrucks with
  | [] => LoopNone
  | candidate :: rest =>
      match findTruck db (NearbyTruck.id candidate) with
      | None => detectLoop env db lat lng truckA routeA rest
      | Some truckB =>
          match activeRoutes db truckB with
          | [] => detectLoop env db lat lng truckA routeA rest
          | routeB :: _ =>
              match nearbyHubsQuery db lat lng with
              | None => LoopRaised
              | Some [] => detectLoop env db lat lng truckA routeA rest
              | Some (hub :: _) =>
                  if negb (canAbsorb truckA truckB)
                  then detectLoop env db lat lng truckA routeA rest
                  else
                    LoopMatch
                      {| matchOpportunity :=
                           newOpportunity env db lat lng truckA truckB
                             routeA routeB candidate hub;
                         matchTruckB := truckB;
                         matchHub := hub |}
              end
          end
      end
  end.

(** [detectAbsorptionOpportunity(truckId, lat, lng, io)]: the result
    ([None] is [null]), the store after the insertion, and the events.  A
    query that fails is caught, and the function returns [null]. *)
Definition detectAbsorptionOpportunity (env : Env) (db : Store.t)
    (truckId : Id) (lat lng : Q)
  : option Opportunity.t * Store.t * list Event :=
  match findTruck db truckId with
  | None => (None, db, [])
  | Some truckA =>
      match activeRoutes db truckA with
      | [] => (None, db, [])
      | routeA :: _ =>
          match nearbyTrucksQuery db truckId lat lng with
          | None => (None, db, [])
          | Some nearbyTrucks =>
              match detectLoop env db lat lng truckA routeA nearbyTrucks with
              | LoopRaised => (None, db, [])
              | LoopNone => (None, db, [])
              | LoopMatch m =>
                  let opportunity := matchOpportunity m in
                  (Some opportunity,
                   {| Store.deliveries := Store.deliveries db;
                      Store.trucks := Store.trucks db;
                      Store.users := Store.users db;
                      Store.routes := Store.routes db;
                      Store.hubs := Store.hubs db;
                      Store.opportunities :=
                        Store.opportunities db ++ [opportunity] |},
                   [AbsorptionOpportunityEvent (Opportunity.id opportunity)
                      (Truck.id truckA) (Truck.id (matchTruckB m))
                      (NearbyHub.id (matchHub m))
                      (Opportunity.potentialCarbonSaved opportunity)])
              end
          end
      end
  end.

End Proximity.

(** The expression of the raw queries, over the real numbers. *)
Module GreatCircle.

Local Open Scope R_scope.

Definition radians (x : R) : R := x * PI / 180.

Definition haversineKm (lat lng rowLat rowLng : R) : R :=
  6371 * acos (cos (radians lat) * cos (radians rowLat)
                 * cos (radians rowLng - radians lng)
               + sin (radians lat) * sin (radians rowLat)).

End GreatCircle.

(** ** routeController.js: handleHandshake *)

(** Workload = totalDistanceKm + totalHoursWorked. *)
Definition workload (driver : User.t) : Q :=
  Js.orNum (User.totalDistanceKm driver) 0
  + Js.orNum (User.totalHoursWorked driver) 0.

Module Relay.
Record t : Type := mk {
  longHaulDriver : User.t;
  shortHaulDriver : User.t;
  masterTruckId : Id
}.
End Relay.

(** Step 2 of [handleHandshake], the driver relay rule, from the two
    drivers and the identifiers of their routes' trucks. *)
Definition relayRule (driver1 driver2 : User.t) (truck1Id truck2Id : Id)
  : Relay.t :=
  if Js.geb (workload driver1) (workload driver2)
  then Relay.mk driver1 driver2 truck1Id
  else Relay.mk driver2 driver1 truck2Id.

(** [include: { truck: { include: { owner: true } } }] of a route of the
    opportunity. *)
Definition routeTruckOwner (db : Store.t) (routeId : Id)
  : option (Truck.t * User.t) :=
  match findRoute db routeId with
  | None => None
  | Some route =>
      match findTruck db (Route.truckId route) with
      | None => None
      | Some truck =>
          match findUser db (Truck.ownerId truck) with
          | None => None
          | Some owner => Some (truck, owner)
          end
      end
  end.

(** The data of [prisma.delivery.updateMany] in the handshake. *)
Definition transferDelivery (masterTruckId driverId : Id) (d : Delivery.t)
  : Delivery.t :=
  {| Delivery.id := Delivery.id d;
     Delivery.courierCompanyId := Delivery.courierCompanyId d;
     Delivery.status := "ABSORPTION_TRANSFERRED";
     Delivery.cargoWeight := Delivery.cargoWeight d;
     Delivery.cargoVolumeLtrs := Delivery.cargoVolumeLtrs d;
     Delivery.timeWindowStart := Delivery.timeWindowStart d;
     Delivery.truckId := Some masterTruckId;
     Delivery.driverId := Some driverId;
     Delivery.optimizedRouteId := Delivery.optimizedRouteId d |}.

Definition onRoute (routeId : Id) (d : Delivery.t) : bool :=
  match Delivery.optimizedRouteId d with
  | Some r => String.eqb r routeId
  | None => false
  end.

(** Step 3 of [handleHandshake]: the two writes of the transaction. *)
Definition handshakeTransaction (db : Store.t) (opportunityId : Id)
    (route2Id : Id) (relay : Relay.t) : Store.t :=
  {| Store.deliveries :=
       map (fun d => if onRoute route2Id d
                     then transferDelivery (Relay.masterTruckId relay)
                            (User.id (Relay.longHaulDriver relay)) d
                     else d)
           (Store.deliveries db);
     Store.trucks := Store.trucks db;
     Store.users := Store.users db;
     Store.routes := Store.routes db;
     Store.hubs := Store.hubs db;
     Store.opportunities :=
       map (fun o => if String.eqb (Opportunity.id o) opportunityId
                     then Opportunity.setStatus "COMPLETED" o else o)
           (Store.opportunities db) |}.

(** [handleHandshake(req, res)] on the [opportunityId] of the body.  A
    route, truck or owner that the store does not hold makes the property
    access throw, which the catch clause answers. *)
Definition handleHandshake (db : Store.t) (opportunityId : Id)
  : Response * Store.t * list Event :=
  match findOpportunity db opportunityId with
  | None =>
      ({| statusCode := 404; body := BFailure "Opportunity not found" |},
       db, [])
  | Some opportunity =>
      match routeTruckOwner db (Opportunity.route1Id opportunity),
            routeTruckOwner db (Opportunity.route2Id opportunity) with
      | Some (truck1, driver1), Some (truck2, driver2) =>
          let relay :=
            relayRule driver1 driver2 (Truck.id truck1) (Truck.id truck2) in
          ({| statusCode := 200;
              body :=
                BHandshake "Handshake completed and relay rule applied"
                  (User.name (Relay.longHaulDriver relay))
                  (User.name (Relay.shortHaulDriver relay)) |},
           handshakeTransaction db opportunityId
             (Opportunity.route2Id opportunity) relay,
           [AbsorptionCompletedEvent opportunityId
              (User.name (Relay.longHaulDriver relay))])
      | _, _ =>
          ({| statusCode := 500; body := BInternal "Internal server error" |},
           db, [])
      end
  end.

(** ** routeController.js: acceptSynergy *)

(** The object [updateData]. *)
Module UpdateData.
Record t : Type := mk {
  status : string;
  acceptedByRoute1At : option Timestamp;
  acceptedByRoute2At : option Timestamp
}.

(** [prisma.absorptionOpportunity.update({ data: updateData })] on a row:
    the fields that [updateData] holds are written. *)
Definition apply (u : t) (o : Opportunity.t) : Opportunity.t :=
  let o1 := Opportunity.setStatus (status u) o in
  let o2 := match acceptedByRoute1At u with
            | Some at1 => Opportunity.setAcceptedByRoute1At at1 o1
            | None => o1
            end in
  match acceptedByRoute2At u with
  | Some at2 => Opportunity.setAcceptedByRoute2At at2 o2
  | None => o2
  end.
End UpdateData.

(** The [if]/[else if]/[else] that fills [updateData]; [None] is the
    branch that answers 400. *)
Definition acceptUpdate (env : Env) (opportunity : Opportunity.t)
    (routeId : Id) : option UpdateData.t :=
  if String.eqb (Opportunity.route1Id opportunity) routeId then
    Some (UpdateData.mk
            (if String.eqb (Opportunity.status opportunity)
                  "ACCEPTED_BY_ROUTE2"
             then "BOTH_ACCEPTED" else "ACCEPTED_BY_ROUTE1")
            (Some (now env)) None)
  else if String.eqb (Opportunity.route2Id opportunity) routeId then
    Some (UpdateData.mk
            (if String.eqb (Opportunity.status opportunity)
                  "ACCEPTED_BY_ROUTE1"
             then "BOTH_ACCEPTED" else "ACCEPTED_BY_ROUTE2")
            None (Some (now env)))
  else None.

(** [acceptSynergy(req, res)] on the [opportunityId] and [routeId] of the
    body. *)
Definition acceptSynergy (env : Env) (db : Store.t)
    (opportunityId routeId : Id) : Response * Store.t :=
  match findOpportunity db opportunityId with
  | None =>
      ({| statusCode := 404; body := BMessage "Opportunity not found" |}, db)
  | Some opportunity =>
      match acceptUpdate env opportunity routeId with
      | None =>
          ({| statusCode := 400;
              body := BMessage "Route ID does not match this opportunity" |},
           db)
      | Some updateData =>
          let updated := UpdateData.apply updateData opportunity in
          ({| statusCode := 200; body := BAccepted updated |},
           {| Store.deliveries := Store.deliveries db;
              Store.trucks := Store.trucks db;
              Store.users := Store.users db;
              Store.routes := Store.routes db;
              Store.hubs := Store.hubs db;
              Store.opportunities :=
                map (fun o => if String.eqb (Opportunity.id o) opportunityId
                              then UpdateData.apply updateData o else o)
                    (Store.opportunities db) |})
      end
  end.

(** ** synergyController.js: confirmMerge *)

(** [status: { notIn: ['COMPLETED', 'CANCELLED'] }]. *)
Definition isActiveStatus (status : string) : bool :=
  negb (Js.includes ["COMPLETED"; "CANCELLED"] status).

(** [include: { deliveries: { where: { status: { notIn: ... } } } }] of a
    truck. *)
Definition activeDeliveriesOf (db : Store.t) (truck : Truck.t)
  : list Delivery.t :=
  filter (fun d => match Delivery.truckId d with
                   | Some i => String.eqb i (Truck.id truck)
                   | None => false
                   end
                   && isActiveStatus (Delivery.status d))
         (Store.deliveries db).

(** Insertion of a driver in a list sorted by
    [(a, b) => scoreB - scoreA], before the drivers of the same score. *)
Fixpoint insertByWorkloadDesc (a : User.t) (l : list User.t) : list User.t :=
  match l with
  | [] => [a]
  | x :: l' =>
      if Js.ltb (workload a) (workload x)
      then x :: insertByWorkloadDesc a l'
      else a :: l
  end.

(** [drivers.sort((a, b) => scoreB - scoreA)]: descending scores, and the
    drivers of one score in their former order. *)
Definition sortByWorkloadDesc (drivers : list User.t) : list User.t :=
  fold_right insertByWorkloadDesc [] drivers.

(** [prisma.user.findMany({ where: { id: { in: [...] } } })]. *)
Definition findDrivers (db : Store.t) (ids : list Id) : list User.t :=
  filter (fun u => Js.includes ids (User.id u)) (Store.users db).

(** The data of [prisma.delivery.update] in the merge. *)
Definition mergeDelivery (driverId truckId : Id) (d : Delivery.t)
  : Delivery.t :=
  {| Delivery.id := Delivery.id d;
     Delivery.courierCompanyId := Delivery.courierCompanyId d;
     Delivery.status := Delivery.status d;
     Delivery.cargoWeight := Delivery.cargoWeight d;
     Delivery.cargoVolumeLtrs := Delivery.cargoVolumeLtrs d;
     Delivery.timeWindowStart := Delivery.timeWindowStart d;
     Delivery.truckId := Some truckId;
     Delivery.driverId := Some driverId;
     Delivery.optimizedRouteId := Delivery.optimizedRouteId d |}.

(** The JSON bodies of [confirmMerge]. *)
Inductive MergeBody : Type :=
| MergeFailure (message : string)
    (* { success: false, message } *)
| MergeSuccess (message : string) (assignedDriver : string).
    (* { success: true, message, assignedDriver } *)

Record MergeResponse : Type := {
  mergeStatus : nat;
  mergeBody : MergeBody
}.

(** [confirmMerge(req, res)] on the [searchingTruckId] and
    [candidateTruckId] of the body.  Reading [deliveryToMerge.id] or
    [optimalDriver.id] of [undefined] throws, which the catch clause
    answers. *)
Definition confirmMerge (db : Store.t) (searchingTruckId candidateTruckId : Id)
  : MergeResponse * Store.t :=
  match findTruck db searchingTruckId, findTruck db candidateTruckId with
  | Some searchingTruck, Some candidateTruck =>
      match hd_error (activeDeliveriesOf db candidateTruck),
            hd_error (sortByWorkloadDesc
                        (findDrivers db [Truck.ownerId searchingTruck;
                                         Truck.ownerId candidateTruck])) with
      | Some deliveryToMerge, Some optimalDriver =>
          ({| mergeStatus := 200;
              mergeBody := MergeSuccess "Consolidation successful"
                             (User.name optimalDriver) |},
           {| Store.deliveries :=
                map (fun d =>
                       if String.eqb (Delivery.id d)
                            (Delivery.id deliveryToMerge)
                       then mergeDelivery (User.id optimalDriver)
                              (Truck.id searchingTruck) d
                       else d)
                    (Store.deliveries db);
              Store.trucks := Store.trucks db;
              Store.users := Store.users db;
              Store.routes := Store.routes db;
              Store.hubs := Store.hubs db;
              Store.opportunities := Store.opportunities db |})
      | _, _ =>
          ({| mergeStatus := 500;
              mergeBody := MergeFailure "Failed to confirm merge" |}, db)
      end
  | _, _ =>
      ({| mergeStatus := 404;
          mergeBody := MergeFailure "Truck(s) not found" |}, db)
  end.

(** ** routeController.js: calculateValidity *)

(** A date in the local calendar: the day, counted from a fixed day, and
    the time of the day in milliseconds. *)
Record LocalDate : Type := {
  dayNumber : Z;
  timeOfDay : Z
}.

(** [Math.max(1, Math.ceil(distanceKm / 200))]. *)
Definition validityDays (distanceKm : Q) : Z :=
  Z.max 1 (Qceiling (distanceKm / 200)).

(** [calculateValidity(distanceKm)], where [today] is [new Date()]:
    [setDate(getDate() + days)] moves the date by [days] days of the local
    calendar and keeps the time of the day. *)
Definition calculateValidity (today : LocalDate) (distanceKm : Q)
  : LocalDate :=
  {| dayNumber := dayNumber today + validityDays distanceKm;
     timeOfDay := timeOfDay today |}.

(** ** backhaulController.js: getOpportunities *)

(** A [Shipment] row, with the columns the query reads. *)
Module Shipment.
Record t : Type := mk {
  id : Id;
  pickupLocation : string;
  pickupLat : option Q;
  pickupLng : option Q;
  dropLocation : string;
  cargoType : option string;
  cargoWeight : option Q;
  isMarketplaceLoad : bool;
  status : string
}.
End Shipment.

(** A row of the raw query over ["Shipment"]. *)
Module NearbyShipment.
Record t : Type := mk {
  id : Id;
  pickupLocation : string;
  pickupLat : Q;
  pickupLng : Q;
  dropLocation : string;
  cargoType : option string;
  cargoWeight : option Q;
  distance : Q
}.
End NearbyShipment.

(** Insertion of a row in a list in ascending order of [distance], before
    the rows of the same distance. *)
Fixpoint insertByDistance (r : NearbyShipment.t) (l : list NearbyShipment.t)
  : list NearbyShipment.t :=
  match l with
  | [] => [r]
  | x :: l' =>
      if Js.ltb (NearbyShipment.distance x) (NearbyShipment.distance r)
      then x :: insertByDistance r l'
      else r :: l
  end.

(** [ORDER BY distance]. *)
Definition orderByDistance (l : list NearbyShipment.t)
  : list NearbyShipment.t :=
  fold_right insertByDistance [] l.

(** The JSON bodies of [getOpportunities]. *)
Inductive BackhaulBody : Type :=
| BackhaulFailure (message : string)
    (* { success: false, message } *)
| BackhaulData (data : list NearbyShipment.t).
    (* { success: true, data } *)

Record BackhaulResponse : Type := {
  backhaulStatus : nat;
  backhaulBody : BackhaulBody
}.

Section Backhaul.

(** What the database computes for the great-circle expression of the
    query, as in the proximity matcher: [None] when the evaluation
    raises, as it can for a shipment at the position of the truck. *)
Variable haversineKm : Q -> Q -> Q -> Q -> option Q.

(** The query evaluates the expression on the marketplace loads that are
    PENDING and have a pickup position; it fails when the expression
    raises on one of them. *)
Definition shipmentsQueryRaises (shipments : list Shipment.t) (lat lng : Q)
  : bool :=
  existsb
    (fun s =>
       Shipment.isMarketplaceLoad s
       && String.eqb (Shipment.status s) "PENDING"
       && match Shipment.pickupLat s, Shipment.pickupLng s with
          | Some rowLat, Some rowLng =>
              match haversineKm lat lng rowLat rowLng with
              | None => true
              | Some _ => false
              end
          | _, _ => false
          end)
    shipments.

(** The rows that pass the [WHERE] clause: marketplace loads that are
    PENDING, with a pickup position strictly under 20 km. *)
Definition shipmentsWithin20 (shipments : list Shipment.t) (lat lng : Q)
  : list NearbyShipment.t :=
  flat_map
    (fun s =>
       if Shipment.isMarketplaceLoad s
          && String.eqb (Shipment.status s) "PENDING"
       then
         match Shipment.pickupLat s, Shipment.pickupLng s with
         | Some rowLat, Some rowLng =>
             match haversineKm lat lng rowLat rowLng with
             | Some distance =>
                 if Js.ltb distance 20
                 then [NearbyShipment.mk (Shipment.id s)
                         (Shipment.pickupLocation s) rowLat rowLng
                         (Shipment.dropLocation s) (Shipment.cargoType s)
                         (Shipment.cargoWeight s) distance]
                 else []
             | None => []
             end
         | _, _ => []
         end
       else [])
    shipments.

(** The raw query of step 2: [None] when it fails. *)
Definition nearbyShipmentsQuery (shipments : list Shipment.t) (lat lng : Q)
  : option (list NearbyShipment.t) :=
  if shipmentsQueryRaises shipments lat lng then None
  else Some (orderByDistance (shipmentsWithin20 shipments lat lng)).

(** [exports.getOpportunities] on the [truckId] of the query string, with
    the trucks of the store and the [Shipment] table. *)
Definition getOpportunities (db : Store.t) (shipments : list Shipment.t)
    (truckId : option Id) : BackhaulResponse :=
  match truckId with
  | None =>
      {| backhaulStatus := 400;
         backhaulBody := BackhaulFailure "truckId is required" |}
  | Some i =>
      if negb (Js.truthyStr truckId) then
        {| backhaulStatus := 400;
           backhaulBody := BackhaulFailure "truckId is required" |}
      else
        match findTruck db i with
        | None =>
            {| backhaulStatus := 404;
               backhaulBody :=
                 BackhaulFailure "Truck or location not found" |}
        | Some truck =>
            if negb (Js.truthyNum (Truck.currentLat truck))
               || negb (Js.truthyNum (Truck.currentLng truck))
            then
              {| backhaulStatus := 404;
                 backhaulBody :=
                   BackhaulFailure "Truck or location not found" |}
            else
              match nearbyShipmentsQuery shipments
                      (Js.toNumber (Truck.currentLat truck))
                      (Js.toNumber (Truck.currentLng truck)) with
              | Some nearbyShipments =>
                  {| backhaulStatus := 200;
                     backhaulBody := BackhaulData nearbyShipments |}
              | None =>
                  {| backhaulStatus := 500;
                     backhaulBody :=
                       BackhaulFailure "Internal server error" |}
              end
        end
  end.

End Backhaul.

(** ** synergyController.js: searchSynergy *)

(** A delivery as [searchSynergy] reads it, with the cargo type of its
    shipment. *)
Module SynergyDelivery.
Record t : Type := mk {
  status : string;
  cargoWeight : option Q;
  dropLocation : option string;
  cargoType : option string
}.
End SynergyDelivery.

(** A truck as [searchSynergy] reads it, with its deliveries. *)
Module SynergyTruck.
Record t : Type := mk {
  id : Id;
  licensePlate : string;
  capacity : option Q;
  currentLat : option Q;
  currentLng : option Q;
  deliveries : list SynergyDelivery.t
}.
End SynergyTruck.

(** The object [constraints] of a result; [safety] is the value of
    [areCompatible]. *)
Module Constraints.
Record t : Type := mk {
  geofence : bool;
  capacity : bool;
  safety : option bool;
  path : bool
}.
End Constraints.

(** An element of [results]; [distance] is the number that [toFixed(2)]
    renders. *)
Module SynergyResult.
Record t : Type := mk {
  id : Id;
  licensePlate : string;
  distance : Q;
  cargoWeight : option Q;
  cargoType : option string;
  dropLocation : option string;
  constraints : Constraints.t;
  highProbability : bool
}.
End SynergyResult.

(** [a === b] on two nullable strings. *)
Definition strictEqual (a b : option string) : bool :=
  match a, b with
  | Some x, Some y => String.eqb x y
  | None, None => true
  | _, _ => false
  end.

(** [where: { status: { notIn: ['COMPLETED', 'CANCELLED'] } }] on the
    deliveries of a truck. *)
Definition activeSynergyDeliveries (truck : SynergyTruck.t)
  : list SynergyDelivery.t :=
  filter (fun d => isActiveStatus (SynergyDelivery.status d))
         (SynergyTruck.deliveries truck).

(** The event 'synergy:high-probability-match'. *)
Record HighProbabilityMatch : Type := {
  searchingTruckId : Id;
  searchingTruckPlate : string;
  matches : list SynergyResult.t
}.

(** The JSON bodies of [searchSynergy]. *)
Inductive SearchBody : Type :=
| SearchFailure (message : string)
    (* { success: false, message } *)
| SearchData (data : list SynergyResult.t).
    (* { success: true, data } *)

Record SearchResponse : Type := {
  searchStatus : nat;
  searchBody : SearchBody
}.

Section Synergy.

(** The value of [calculateDistance(lat1, lon1, lat2, lon2)]. *)
Variable calculateDistance : Q -> Q -> Q -> Q -> Q.

(** The callback of [candidates.map]. *)
Definition evaluateCandidate (searchingTruck : SynergyTruck.t)
    (activeDelivery : SynergyDelivery.t) (candidate : SynergyTruck.t)
    (candidateDelivery : SynergyDelivery.t) : SynergyResult.t :=
  let distance :=
    calculateDistance
      (Js.orNum (SynergyTruck.currentLat searchingTruck) 0)
      (Js.orNum (SynergyTruck.currentLng searchingTruck) 0)
      (Js.orNum (SynergyTruck.currentLat candidate) 0)
      (Js.orNum (SynergyTruck.currentLng candidate) 0) in
  let geofenceMet := Qle_bool distance 10 in
  let remainingCapacity :=
    Js.orNum (SynergyTruck.capacity searchingTruck) 0
    - Js.orNum (SynergyDelivery.cargoWeight activeDelivery) 0 in
  let capacityMet :=
    Js.geb remainingCapacity
      (Js.orNum (SynergyDelivery.cargoWeight candidateDelivery) 0) in
  let safetyMet :=
    areCompatible (SynergyDelivery.cargoType activeDelivery)
      (SynergyDelivery.cargoType candidateDelivery) in
  let pathMet :=
    strictEqual (SynergyDelivery.dropLocation activeDelivery)
      (SynergyDelivery.dropLocation candidateDelivery) in
  let synergyScore :=
    length (filter (fun b => b)
              [geofenceMet; capacityMet; truthyResult safetyMet; pathMet]) in
  {| SynergyResult.id := SynergyTruck.id candidate;
     SynergyResult.licensePlate := SynergyTruck.licensePlate candidate;
     SynergyResult.distance := distance;
     SynergyResult.cargoWeight := SynergyDelivery.cargoWeight candidateDelivery;
     SynergyResult.cargoType := SynergyDelivery.cargoType candidateDelivery;
     SynergyResult.dropLocation :=
       SynergyDelivery.dropLocation candidateDelivery;
     SynergyResult.constraints :=
       Constraints.mk geofenceMet capacityMet safetyMet pathMet;
     SynergyResult.highProbability := (synergyScore =? 4)%nat |}.

(** [prisma.truck.findMany] of step 2: the other trucks that have a
    delivery neither COMPLETED nor CANCELLED. *)
Definition synergyCandidates (trucks : list SynergyTruck.t) (truckId : Id)
  : list SynergyTruck.t :=
  filter (fun c => negb (String.eqb (SynergyTruck.id c) truckId)
                   && existsb (fun d =>
                                 isActiveStatus (SynergyDelivery.status d))
                        (SynergyTruck.deliveries c))
         trucks.

(** [candidates.map(...).filter(r => r.constraints.geofence)].  The
    [some] clause of the query gives each candidate a first delivery. *)
Definition synergyResults (searchingTruck : SynergyTruck.t)
    (activeDelivery : SynergyDelivery.t) (candidates : list SynergyTruck.t)
  : list SynergyResult.t :=
  filter (fun r => Constraints.geofence (SynergyResult.constraints r))
    (flat_map
       (fun candidate =>
          match activeSynergyDeliveries candidate with
          | candidateDelivery :: _ =>
              [evaluateCandidate searchingTruck activeDelivery candidate
                 candidateDelivery]
          | [] => []
          end)
       candidates).

(** [searchSynergy(req, res)] of synergyController.js on the [truckId] of
    the path, with the trucks of the store: the response and the events. *)
Definition searchSynergy (trucks : list SynergyTruck.t) (truckId : Id)
  : SearchResponse * list HighProbabilityMatch :=
  match find (fun t => String.eqb (SynergyTruck.id t) truckId) trucks with
  | None =>
      ({| searchStatus := 404;
          searchBody := SearchFailure "Truck not found" |}, [])
  | Some searchingTruck =>
      match activeSynergyDeliveries searchingTruck with
      | [] =>
          ({| searchStatus := 400;
              searchBody := SearchFailure "Truck has no active delivery" |},
           [])
      | activeDelivery :: _ =>
          let results :=
            synergyResults searchingTruck activeDelivery
              (synergyCandidates trucks truckId) in
          let highProbMatches :=
            filter SynergyResult.highProbability results in
          ({| searchStatus := 200; searchBody := SearchData results |},
           if (0 <? length highProbMatches)%nat
           then [{| searchingTruckId := SynergyTruck.id searchingTruck;
                    searchingTruckPlate :=
                      SynergyTruck.licensePlate searchingTruck;
                    matches := highProbMatches |}]
           else [])
      end
  end.

End Synergy.

(** ** Example stores *)

Module Scenario.

Definition env : Env :=
  {| now := 1000%Z;
     genId := fun n => ("id-" ++ Js.showNat n)%string |}.

(** An opportunity between the routes "r1" and "r2" in a given status. *)
Definition opportunity (status : string) : Opportunity.t :=
  {| Opportunity.id := "o1";
     Opportunity.route1Id := "r1";
     Opportunity.route2Id := "r2";
     Opportunity.overlapDistanceKm := 3;
     Opportunity.overlapStartTime := 0%Z;
     Opportunity.overlapEndTime := 3600000%Z;
     Opportunity.nearestHubId := "h1";
     Opportunity.overlapCenterLat := 0;
     Opportunity.overlapCenterLng := 0;
     Opportunity.estimatedMeetTime := 1800000%Z;
     Opportunity.timeWindow := 30%Z;
     Opportunity.eligibleDeliveryIds := "d2";
     Opportunity.truck1DistanceBefore := 0;
     Opportunity.truck1DistanceAfter := 0;
     Opportunity.truck2DistanceBefore := 0;
     Opportunity.truck2DistanceAfter := 0;
     Opportunity.totalDistanceSaved := 3;
     Opportunity.potentialCarbonSaved := 3 # 2;
     Opportunity.spaceRequiredVolume := Some 4;
     Opportunity.spaceRequiredWeight := Some 8;
     Opportunity.truck1SpaceAvailable := 10;
     Opportunity.truck2SpaceAvailable := 6;
     Opportunity.expiresAt := 3600000%Z;
     Opportunity.status := status;
     Opportunity.acceptedByRoute1At := None;
     Opportunity.acceptedByRoute2At := None |}.

(** A store that holds this opportunity only. *)
Definition ledger (status : string) : Store.t :=
  Store.mk [] [] [] [] [] [opportunity status].

End Scenario.

Module HandshakeScenario.

Definition driver (i : Id) (name : string) (distanceKm hours : Q)
  : User.t :=
  User.mk i name (Some distanceKm) (Some hours).

Definition truck (i owner : Id) : Truck.t :=
  Truck.mk i "acme" false "APPROVED" owner (Some 20) (Some 20)
    (Some 8) (Some 4) (Some 0) (Some 0) None.

Definition route (i truckId driverId : Id) : Route.t :=
  {| Route.id := i;
     Route.courierCompanyId := "acme";
     Route.truckId := truckId;
     Route.driverId := driverId;
     Route.totalDistance := 0;
     Route.totalDuration := 60;
     Route.estimatedStartTime := 0%Z;
     Route.estimatedEndTime := 3600000%Z;
     Route.totalPackages := 1;
     Route.totalWeight := 8;
     Route.totalVolume := 4;
     Route.utilizationPercent := 40;
     Route.baselineDistance := 0;
     Route.carbonSaved := 0;
     Route.emptyMilesSaved := 0;
     Route.status := "ACTIVE" |}.

Definition delivery (i truckId driverId routeId : Id) : Delivery.t :=
  Delivery.mk i "acme" "ALLOCATED" 4 2 0%Z
    (Some truckId) (Some driverId) (Some routeId).

(** Route "r1" of truck "t1" and driver "u1" carries "d1"; route "r2" of
    truck "t2" and driver "u2" carries "d2" and "d3".  The two drivers
    have driven [km1] and [km2] kilometres and worked [h1] and [h2]
    hours. *)
Definition store (km1 h1 km2 h2 : Q) : Store.t :=
  {| Store.deliveries :=
       [ delivery "d1" "t1" "u1" "r1";
         delivery "d2" "t2" "u2" "r2";
         delivery "d3" "t2" "u2" "r2" ];
     Store.trucks := [ truck "t1" "u1"; truck "t2" "u2" ];
     Store.users := [ driver "u1" "Asha" km1 h1; driver "u2" "Bala" km2 h2 ];
     Store.routes := [ route "r1" "t1" "u1"; route "r2" "t2" "u2" ];
     Store.hubs := [];
     Store.opportunities := [ Scenario.opportunity "PENDING" ] |}.

(** The store after a handshake on the opportunity "o1". *)
Definition after (km1 h1 km2 h2 : Q) : Store.t :=
  snd (fst (handleHandshake (store km1 h1 km2 h2) "o1")).

End HandshakeScenario.

Module AllocationScenario.

Definition request : Request.allocate :=
  {| Request.courierCompanyId := Some "acme" |}.

Definition pending (i : Id) (weight : Q) (start : Timestamp) : Delivery.t :=
  Delivery.mk i "acme" "PENDING" weight 1 start None None None.

Definition truck (maxWeight : option Q) : Truck.t :=
  Truck.mk "t1" "acme" true "APPROVED" "u1" maxWeight None
    None None None None None.

(** Scenario A: three pending deliveries of weights 2, 3 and 4, and one
    truck whose [maxWeight] is 5 and which has no [maxVolume]. *)
Definition scenarioA : Store.t :=
  {| Store.deliveries :=
       [ pending "d1" 2 10%Z; pending "d2" 3 20%Z; pending "d3" 4 30%Z ];
     Store.trucks := [ truck (Some 5) ];
     Store.users := [];
     Store.routes := [];
     Store.hubs := [];
     Store.opportunities := [] |}.

(** One pending delivery of weight 5 and one truck whose [maxWeight] is
    set to 0. *)
Definition zeroLimit : Store.t :=
  {| Store.deliveries := [ pending "d1" 5 10%Z ];
     Store.trucks := [ truck (Some 0) ];
     Store.users := [];
     Store.routes := [];
     Store.hubs := [];
     Store.opportunities := [] |}.

(** Two pending deliveries of weights 2^53 and 1, and one truck whose
    [maxWeight] is 2^53: the sum of the two weights is not a double. *)
Definition rounding : Store.t :=
  {| Store.deliveries :=
       [ pending "d1" 9007199254740992 10%Z; pending "d2" 1 20%Z ];
     Store.trucks := [ truck (Some 9007199254740992) ];
     Store.users := [];
     Store.routes := [];
     Store.hubs := [];
     Store.opportunities := [] |}.

(** Pending deliveries and no truck. *)
Definition noTruck : Store.t :=
  {| Store.deliveries := [ pending "d1" 5 10%Z ];
     Store.trucks := [];
     Store.users := [];
     Store.routes := [];
     Store.hubs := [];
     Store.opportunities := [] |}.

(** A truck and no pending delivery. *)
Definition noDelivery : Store.t :=
  {| Store.deliveries := [];
     Store.trucks := [ truck (Some 5) ];
     Store.users := [];
     Store.routes := [];
     Store.hubs := [];
     Store.opportunities := [] |}.

End AllocationScenario.

Module ProximityScenario.

(** A distance for the examples: 111 km for a degree of latitude and
    for a degree of longitude.  It stands for the value the database
    computes; along the equator it is the great-circle distance up to
    the rounding of 6371 * pi / 180. *)
Definition flatKm (lat lng rowLat rowLng : Q) : Q :=
  111 * (Qabs (rowLat - lat) + Qabs (rowLng - lng)).

(** A database that evaluates the expression of its queries without
    error. *)
Definition totalKm (lat lng rowLat rowLng : Q) : option Q :=
  Some (flatKm lat lng rowLat rowLng).

(** A database whose expression raises for a row at the position it is
    asked from, away from the equator, where the rounded argument of
    [acos] can exceed 1. *)
Definition raisingKm (lat lng rowLat rowLng : Q) : option Q :=
  if negb (Qeq_bool lat 0) && Qeq_bool rowLat lat && Qeq_bool rowLng lng
  then None
  else Some (flatKm lat lng rowLat rowLng).

Definition truck (i owner : Id) (lng : Q) (weight volume : Q) : Truck.t :=
  Truck.mk i "acme" false "APPROVED" owner (Some 20) (Some 20)
    (Some weight) (Some volume) (Some 0) (Some lng) None.

(** Truck "t1" reports the position (0, 0), with a residual capacity of
    10 and 10; truck "t2", 0.02 degree to the east, carries 8 and 4.
    Both have an ACTIVE route.  The hub "h-far" is 0.01 degree to the
    east of the position and the hub "h-near" is at the position; the
    store lists "h-far" first. *)
Definition store : Store.t :=
  {| Store.deliveries :=
       [ HandshakeScenario.delivery "d1" "t1" "u1" "r1";
         HandshakeScenario.delivery "d2" "t2" "u2" "r2" ];
     Store.trucks :=
       [ truck "t1" "u1" 0 10 10; truck "t2" "u2" (2 # 100) 8 4 ];
     Store.users := [];
     Store.routes :=
       [ HandshakeScenario.route "r1" "t1" "u1";
         HandshakeScenario.route "r2" "t2" "u2" ];
     Store.hubs :=
       [ Hub.mk "h-far" 0 (1 # 100) 5; Hub.mk "h-near" 0 0 5 ];
     Store.opportunities := [] |}.

(** The same trucks and routes, and no hub. *)
Definition storeWithoutHub : Store.t :=
  {| Store.deliveries := Store.deliveries store;
     Store.trucks := Store.trucks store;
     Store.users := [];
     Store.routes := Store.routes store;
     Store.hubs := [];
     Store.opportunities := [] |}.

End ProximityScenario.

Module FurtherScenario.


(** The store of [ProximityScenario] where the searching truck "t1" has no
    [maxWeight]. *)
Definition proximityNoMaxWeight : Store.t :=
  {| Store.deliveries := Store.deliveries ProximityScenario.store;
     Store.trucks :=
       [ Truck.mk "t1" "acme" false "APPROVED" "u1" None (Some 20)
           (Some 10) (Some 10) (Some 0) (Some 0) None;
         ProximityScenario.truck "t2" "u2" (2 # 100) 8 4 ];
     Store.users := [];
     Store.routes := Store.routes ProximityScenario.store;
     Store.hubs := Store.hubs ProximityScenario.store;
     Store.opportunities := [] |}.

(** Scenario A with one more PENDING delivery, of another company. *)
Definition mixedCompanies : Store.t :=
  {| Store.deliveries :=
       Delivery.mk "d9" "zeta" "PENDING" 1 1 5%Z None None None
       :: Store.deliveries AllocationScenario.scenarioA;
     Store.trucks := Store.trucks AllocationScenario.scenarioA;
     Store.users := [];
     Store.routes := [];
     Store.hubs := [];
     Store.opportunities := [] |}.

(** A queue whose first delivery, of weight 9, fits no truck, followed by
    a delivery of weight 1, and one truck whose [maxWeight] is 5. *)
Definition blockedQueue : Store.t :=
  {| Store.deliveries :=
       [ AllocationScenario.pending "d1" 9 10%Z;
         AllocationScenario.pending "d2" 1 20%Z ];
     Store.trucks := [ AllocationScenario.truck (Some 5) ];
     Store.users := [];
     Store.routes := [];
     Store.hubs := [];
     Store.opportunities := [] |}.

(** The store of [HandshakeScenario] where the truck "t2" carries only a
    COMPLETED delivery. *)
Definition idleCandidate : Store.t :=
  {| Store.deliveries :=
       [ HandshakeScenario.delivery "d1" "t1" "u1" "r1";
         Delivery.mk "d2" "acme" "COMPLETED" 4 2 0%Z
           (Some "t2") (Some "u2") (Some "r2") ];
     Store.trucks := Store.trucks (HandshakeScenario.store 50 0 20 0);
     Store.users := Store.users (HandshakeScenario.store 50 0 20 0);
     Store.routes := Store.routes (HandshakeScenario.store 50 0 20 0);
     Store.hubs := [];
     Store.opportunities := [] |}.

(** A truck at the position (2.5, 1), and three shipments: a marketplace
    load 0.1 degree to the north, one 0.05 degree to the east, and one
    that is not a marketplace load. *)
Definition backhaulStore : Store.t :=
  {| Store.deliveries := [];
     Store.trucks :=
       [ Truck.mk "t1" "acme" true "APPROVED" "u1" (Some 20) (Some 20)
           None None (Some (5 # 2)) (Some 1) None ];
     Store.users := [];
     Store.routes := [];
     Store.hubs := [];
     Store.opportunities := [] |}.

Definition shipments : list Shipment.t :=
  [ Shipment.mk "s1" "Depot" (Some (26 # 10)) (Some 1) "Harbour"
      (Some "FOOD") (Some 3) true "PENDING";
    Shipment.mk "s2" "Yard" (Some (5 # 2)) (Some (105 # 100)) "Market"
      (Some "CLOTHING") (Some 2) true "PENDING";
    Shipment.mk "s3" "Mill" (Some (252 # 100)) (Some 1) "Market"
      (Some "FOOD") (Some 2) false "PENDING" ].

(** The same table with one more marketplace load, whose pickup position
    is the position of the truck. *)
Definition shipmentsWithOneAtTruck : list Shipment.t :=
  shipments
  ++ [ Shipment.mk "s4" "Quay" (Some (5 # 2)) (Some 1) "Market"
         (Some "FOOD") (Some 1) true "PENDING" ].

(** Three trucks at the same position: "t1" carries food to the harbour,
    "t2" pharma to the harbour, and "t3" has completed its delivery. *)
Definition synergyTrucks : list SynergyTruck.t :=
  [ SynergyTruck.mk "t1" "KA-01" (Some 10) (Some 0) (Some 0)
      [SynergyDelivery.mk "IN_TRANSIT" (Some 4) (Some "Harbour")
         (Some "food")];
    SynergyTruck.mk "t2" "KA-02" (Some 10) (Some 0) (Some 0)
      [SynergyDelivery.mk "IN_TRANSIT" (Some 3) (Some "Harbour")
         (Some "PHARMA")];
    SynergyTruck.mk "t3" "KA-03" (Some 10) (Some 0) (Some 0)
      [SynergyDelivery.mk "COMPLETED" (Some 1) (Some "Harbour")
         (Some "FOOD")] ].

(** Two trucks with an ACTIVE route each at the position (2.5, 1), which
    truck "t1" reports. *)
Definition samePosition : Store.t :=
  {| Store.deliveries := Store.deliveries ProximityScenario.store;
     Store.trucks :=
       [ Truck.mk "t1" "acme" false "APPROVED" "u1" (Some 20) (Some 20)
           (Some 10) (Some 10) (Some (5 # 2)) (Some 1) None;
         Truck.mk "t2" "acme" false "APPROVED" "u2" (Some 20) (Some 20)
           (Some 8) (Some 4) (Some (5 # 2)) (Some 1) None ];
     Store.users := [];
     Store.routes := Store.routes ProximityScenario.store;
     Store.hubs := Store.hubs ProximityScenario.store;
     Store.opportunities := [] |}.

End FurtherScenario.

(** ** Notions used in the further properties *)

(** The routes that a response of [allocateRoutes] reports as created. *)
Definition createdRoutes (response : Response) : list Route.t :=
  match body response with
  | BAllocated _ data => data
  | _ => []
  end.

(** The identifiers of the deliveries of a list of allocations. *)
Definition allocatedIds (allocations : list Allocation.t) : list Id :=
  flat_map (fun alloc => map Delivery.id (Allocation.deliveries alloc))
    allocations.

(** The [where] clause of the query for the pending deliveries. *)
Definition isPendingOf (company : Id) (d : Delivery.t) : bool :=
  String.eqb (Delivery.courierCompanyId d) company
  && String.eqb (Delivery.status d) "PENDING".

(** The order of the rows of the backhaul query. *)
Definition distanceLe (a b : NearbyShipment.t) : Prop :=
  NearbyShipment.distance a <= NearbyShipment.distance b.

(* ================================================================== *)
(** * Properties *)

(** ** Cargo compatibility *)

Lemma areCompatible_missing_left (type2 : option string) :
  areCompatible None type2 = Some true.
Proof. reflexivity. Qed.

Lemma areCompatible_missing_right (type1 : option string) :
  areCompatible type1 None = Some true.
Proof. destruct type1; reflexivity. Qed.

Lemma areCompatible_empty_left (type2 : option string) :
  areCompatible (Some "") type2 = Some true.
Proof. destruct type2; reflexivity. Qed.

Lemma areCompatible_empty_right (type1 : option string) :
  areCompatible type1 (Some "") = Some true.
Proof.
  destruct type1 as [t1|]; [|reflexivity].
  unfold areCompatible. destruct t1; reflexivity.
Qed.

Lemma areCompatible_same (t : string) :
  areCompatible (Some t) (Some t) = Some true.
Proof.
  unfold areCompatible.
  destruct (negb (Js.truthyStr (Some t)) || negb (Js.truthyStr (Some t)));
    [reflexivity|].
  now rewrite String.eqb_refl.
Qed.

Lemma getProperty_In (obj : list (string * list string)) (k : string)
    (l : list string) :
  getProperty obj k = Some l -> In (k, l) obj.
Proof.
  induction obj as [| [k0 v0] obj IH]; cbn [getProperty]; [discriminate |].
  destruct (String.eqb_spec k0 k) as [-> | _].
  - intros [= ->]. now left.
  - intros H. right. now apply IH.
Qed.

Lemma includes_In (l : list string) (x : string) :
  Js.includes l x = true -> In x l.
Proof.
  unfold Js.includes. rewrite existsb_exists.
  intros (y & Hy & Heq). apply String.eqb_eq in Heq. now subst y.
Qed.

(** The table lists each pair in both directions: if [x] is in the entry
    of [k], then [k] is in the entry of [x]. *)
Lemma table_lists_both_directions (k x : string) (l : list string) :
  getProperty CARGO_COMPATIBILITY k = Some l ->
  Js.includes l x = true ->
  exists l', getProperty CARGO_COMPATIBILITY x = Some l'
             /\ Js.includes l' k = true.
Proof.
  intros Hk Hx. apply getProperty_In in Hk. apply includes_In in Hx.
  unfold CARGO_COMPATIBILITY in Hk. cbn [In] in Hk.
  repeat (destruct Hk as [Hk | Hk]); try contradiction;
    injection Hk as <- <-; cbn [In] in Hx;
    repeat (destruct Hx as [Hx | Hx]); try contradiction;
    subst x; eexists; split; reflexivity.
Qed.

Lemma areCompatible_truthy_transfer (t1 t2 : string) :
  truthyResult (areCompatible (Some t1) (Some t2)) = true ->
  truthyResult (areCompatible (Some t2) (Some t1)) = true.
Proof.
  unfold areCompatible.
  destruct t1 as [| c1 s1]; [destruct t2; reflexivity |].
  destruct t2 as [| c2 s2]; [reflexivity |].
  cbn [Js.truthyStr negb orb].
  rewrite (String.eqb_sym (String c2 s2) (String c1 s1)).
  destruct (String.eqb (String c1 s1) (String c2 s2)); [reflexivity |].
  destruct (getProperty CARGO_COMPATIBILITY (Js.toUpperCase (String c1 s1)))
    as [l |] eqn:Hk; [| discriminate].
  cbn [truthyResult]. intros Hin.
  destruct (table_lists_both_directions _ _ _ Hk Hin) as (l' & -> & Hin').
  exact Hin'.
Qed.

(** X1.  On all inputs, in any letter case and with or without an entry
    in the table, the two directions of the lookup agree in truthiness. *)
Lemma areCompatible_truthy_symmetric (type1 type2 : option string) :
  truthyResult (areCompatible type1 type2)
  = truthyResult (areCompatible type2 type1).
Proof.
  destruct type1 as [t1 |], type2 as [t2 |];
    try (rewrite ?areCompatible_missing_right; reflexivity).
  destruct (truthyResult (areCompatible (Some t1) (Some t2))) eqn:H12.
  - symmetry. now apply areCompatible_truthy_transfer.
  - destruct (truthyResult (areCompatible (Some t2) (Some t1))) eqn:H21;
      [| reflexivity].
    apply areCompatible_truthy_transfer in H21. congruence.
Qed.


(** C6.  The check is fail-open on a missing or empty type and answers
    [true] for two equal strings, but the identity test [type1 === type2]
    compares the strings as they are: for "food" and "FOOD", the same cargo
    type in two letter cases, the answer is [false]. *)
Theorem areCompatible_food_FOOD :
  areCompatible (Some "food") (Some "FOOD") = Some false
  /\ areCompatible (Some "FOOD") (Some "FOOD") = Some true
  /\ areCompatible (Some "food") (Some "food") = Some true.
Proof. repeat split. Qed.




(** ** Acceptance handler *)

Lemma find_opportunity_after_update (f : Opportunity.t -> Opportunity.t)
    (i : Id) (l : list Opportunity.t) (o : Opportunity.t) :
  (forall x, Opportunity.id (f x) = Opportunity.id x) ->
  find (fun x => String.eqb (Opportunity.id x) i) l = Some o ->
  find (fun x => String.eqb (Opportunity.id x) i)
       (map (fun x => if String.eqb (Opportunity.id x) i then f x else x) l)
  = Some (f o).
Proof.
  intros Hid. induction l as [| x l IH]; cbn [find map]; [discriminate |].
  destruct (String.eqb (Opportunity.id x) i) eqn:Hx.
  - intros [= ->]. cbn [find]. now rewrite Hid, Hx.
  - intros H. cbn [find]. rewrite Hx. now apply IH.
Qed.

Lemma UpdateData_apply_id (u : UpdateData.t) (o : Opportunity.t) :
  Opportunity.id (UpdateData.apply u o) = Opportunity.id o.
Proof. destruct u as [s [a |] [b |]]; reflexivity. Qed.

Lemma UpdateData_apply_status (u : UpdateData.t) (o : Opportunity.t) :
  Opportunity.status (UpdateData.apply u o) = UpdateData.status u.
Proof. destruct u as [s [a |] [b |]]; reflexivity. Qed.

(** When the opportunity exists and the route is one of its two routes,
    the handler answers 200 with the updated row, and the store holds that
    row under the same identifier. *)
Lemma acceptSynergy_updates (env : Env) (db : Store.t)
    (opportunityId routeId : Id) (opportunity : Opportunity.t)
    (u : UpdateData.t) :
  findOpportunity db opportunityId = Some opportunity ->
  acceptUpdate env opportunity routeId = Some u ->
  fst (acceptSynergy env db opportunityId routeId)
  = {| statusCode := 200;
       body := BAccepted (UpdateData.apply u opportunity) |}
  /\ findOpportunity (snd (acceptSynergy env db opportunityId routeId))
       opportunityId
     = Some (UpdateData.apply u opportunity).
Proof.
  intros Hfind Hu. unfold acceptSynergy. rewrite Hfind, Hu.
  split; [reflexivity |]. cbn [snd]. unfold findOpportunity in *.
  cbn [Store.opportunities].
  apply find_opportunity_after_update; [| exact Hfind].
  intros x. apply UpdateData_apply_id.
Qed.

Lemma acceptUpdate_route1 (env : Env) (o : Opportunity.t) (routeId : Id) :
  Opportunity.route1Id o = routeId ->
  acceptUpdate env o routeId
  = Some (UpdateData.mk
            (if String.eqb (Opportunity.status o) "ACCEPTED_BY_ROUTE2"
             then "BOTH_ACCEPTED" else "ACCEPTED_BY_ROUTE1")
            (Some (now env)) None).
Proof.
  intros <-. unfold acceptUpdate. now rewrite String.eqb_refl.
Qed.

Lemma acceptUpdate_route2 (env : Env) (o : Opportunity.t) (routeId : Id) :
  Opportunity.route1Id o <> routeId ->
  Opportunity.route2Id o = routeId ->
  acceptUpdate env o routeId
  = Some (UpdateData.mk
            (if String.eqb (Opportunity.status o) "ACCEPTED_BY_ROUTE1"
             then "BOTH_ACCEPTED" else "ACCEPTED_BY_ROUTE2")
            None (Some (now env))).
Proof.
  intros Hne <-. unfold acceptUpdate.
  destruct (String.eqb_spec (Opportunity.route1Id o) (Opportunity.route2Id o));
    [contradiction |].
  now rewrite String.eqb_refl.
Qed.

Lemma acceptUpdate_neither (env : Env) (o : Opportunity.t) (routeId : Id) :
  Opportunity.route1Id o <> routeId ->
  Opportunity.route2Id o <> routeId ->
  acceptUpdate env o routeId = None.
Proof.
  intros H1 H2. unfold acceptUpdate.
  destruct (String.eqb_spec (Opportunity.route1Id o) routeId);
    [contradiction |].
  destruct (String.eqb_spec (Opportunity.route2Id o) routeId);
    [contradiction | reflexivity].
Qed.

(** C3.  [acceptSynergy] realises the acceptance state table.  A missing
    opportunity is answered 404 (NotFound).  For a route that is route1 of
    the opportunity the new status is BOTH_ACCEPTED when the current one is
    ACCEPTED_BY_ROUTE2 and ACCEPTED_BY_ROUTE1 otherwise, and
    [acceptedByRoute1At] is stamped; for route2 (a route distinct from
    route1) the rule is the symmetric one.  A route that is neither is
    answered 400 (InvalidArgument), and in both failures the store is left
    as it was. *)
Theorem acceptSynergy_state_table :
  forall (env : Env) (db : Store.t) (opportunityId routeId : Id),
    (findOpportunity db opportunityId = None ->
     acceptSynergy env db opportunityId routeId
     = ({| statusCode := 404; body := BMessage "Opportunity not found" |},
        db))
    /\
    (forall opportunity : Opportunity.t,
        findOpportunity db opportunityId = Some opportunity ->
        (Opportunity.route1Id opportunity = routeId ->
         exists updated : Opportunity.t,
           fst (acceptSynergy env db opportunityId routeId)
           = {| statusCode := 200; body := BAccepted updated |}
           /\ findOpportunity
                (snd (acceptSynergy env db opportunityId routeId))
                opportunityId = Some updated
           /\ (Opportunity.status opportunity = "ACCEPTED_BY_ROUTE2" ->
               Opportunity.status updated = "BOTH_ACCEPTED")
           /\ (Opportunity.status opportunity <> "ACCEPTED_BY_ROUTE2" ->
               Opportunity.status updated = "ACCEPTED_BY_ROUTE1")
           /\ Opportunity.acceptedByRoute1At updated = Some (now env)
           /\ Opportunity.acceptedByRoute2At updated
              = Opportunity.acceptedByRoute2At opportunity)
        /\
        (Opportunity.route1Id opportunity <> routeId ->
         Opportunity.route2Id opportunity = routeId ->
         exists updated : Opportunity.t,
           fst (acceptSynergy env db opportunityId routeId)
           = {| statusCode := 200; body := BAccepted updated |}
           /\ findOpportunity
                (snd (acceptSynergy env db opportunityId routeId))
                opportunityId = Some updated
           /\ (Opportunity.status opportunity = "ACCEPTED_BY_ROUTE1" ->
               Opportunity.status updated = "BOTH_ACCEPTED")
           /\ (Opportunity.status opportunity <> "ACCEPTED_BY_ROUTE1" ->
               Opportunity.status updated = "ACCEPTED_BY_ROUTE2")
           /\ Opportunity.acceptedByRoute2At updated = Some (now env)
           /\ Opportunity.acceptedByRoute1At updated
              = Opportunity.acceptedByRoute1At opportunity)
        /\
        (Opportunity.route1Id opportunity <> routeId ->
         Opportunity.route2Id opportunity <> routeId ->
         acceptSynergy env db opportunityId routeId
         = ({| statusCode := 400;
               body := BMessage "Route ID does not match this opportunity" |},
            db))).
Proof.
  intros env db opportunityId routeId. split.
  - intros Hnone. unfold acceptSynergy. now rewrite Hnone.
  - intros opportunity Hfind. repeat split.
    + intros H1.
      pose proof (acceptUpdate_route1 env opportunity routeId H1) as Hu.
      destruct (acceptSynergy_updates env db opportunityId routeId
                  opportunity _ Hfind Hu) as [Hresp Hrow].
      eexists. split; [exact Hresp |]. split; [exact Hrow |].
      repeat split.
      * intros Hs. cbn. now rewrite Hs.
      * intros Hs. cbn.
        destruct (String.eqb_spec (Opportunity.status opportunity)
                    "ACCEPTED_BY_ROUTE2"); [contradiction | reflexivity].
    + intros H1 H2.
      pose proof (acceptUpdate_route2 env opportunity routeId H1 H2) as Hu.
      destruct (acceptSynergy_updates env db opportunityId routeId
                  opportunity _ Hfind Hu) as [Hresp Hrow].
      eexists. split; [exact Hresp |]. split; [exact Hrow |].
      repeat split.
      * intros Hs. cbn. now rewrite Hs.
      * intros Hs. cbn.
        destruct (String.eqb_spec (Opportunity.status opportunity)
                    "ACCEPTED_BY_ROUTE1"); [contradiction | reflexivity].
    + intros H1 H2. unfold acceptSynergy.
      now rewrite Hfind, (acceptUpdate_neither env opportunity routeId H1 H2).
Qed.

Lemma acceptSynergy_state_table_witness :
  exists updated : Opportunity.t,
    findOpportunity
      (snd (acceptSynergy Scenario.env
              (Scenario.ledger "ACCEPTED_BY_ROUTE2") "o1" "r1")) "o1"
    = Some updated
    /\ Opportunity.status updated = "BOTH_ACCEPTED"
    /\ Opportunity.acceptedByRoute1At updated = Some 1000%Z.
Proof.
  destruct (proj2 (acceptSynergy_state_table Scenario.env
                     (Scenario.ledger "ACCEPTED_BY_ROUTE2") "o1" "r1")
              (Scenario.opportunity "ACCEPTED_BY_ROUTE2") eq_refl)
    as (Hroute1 & _ & _).
  destruct (Hroute1 eq_refl) as (updated & _ & Hrow & Hboth & _ & Hat & _).
  exists updated. split; [exact Hrow |].
  split; [apply Hboth; reflexivity | exact Hat].
Defined.

(** C10.  [acceptSynergy] has no guard on the current status: whatever
    the status is, provided it is not ACCEPTED_BY_ROUTE2, an acceptance by
    route1 writes ACCEPTED_BY_ROUTE1, and symmetrically for route2; in
    particular a BOTH_ACCEPTED, COMPLETED or EXPIRED opportunity is set
    back to a one-sided acceptance. *)
Theorem acceptSynergy_overwrites_any_status :
  forall (env : Env) (db : Store.t) (opportunityId routeId : Id)
         (opportunity : Opportunity.t),
    findOpportunity db opportunityId = Some opportunity ->
    (Opportunity.route1Id opportunity = routeId ->
     Opportunity.status opportunity <> "ACCEPTED_BY_ROUTE2" ->
     option_map Opportunity.status
       (findOpportunity (snd (acceptSynergy env db opportunityId routeId))
          opportunityId)
     = Some "ACCEPTED_BY_ROUTE1")
    /\
    (Opportunity.route1Id opportunity <> routeId ->
     Opportunity.route2Id opportunity = routeId ->
     Opportunity.status opportunity <> "ACCEPTED_BY_ROUTE1" ->
     option_map Opportunity.status
       (findOpportunity (snd (acceptSynergy env db opportunityId routeId))
          opportunityId)
     = Some "ACCEPTED_BY_ROUTE2").
Proof.
  intros env db opportunityId routeId opportunity Hfind. split.
  - intros H1 Hs.
    pose proof (acceptUpdate_route1 env opportunity routeId H1) as Hu.
    destruct (acceptSynergy_updates env db opportunityId routeId
                opportunity _ Hfind Hu) as [_ Hrow].
    rewrite Hrow. cbn [option_map]. rewrite UpdateData_apply_status.
    cbn [UpdateData.status].
    destruct (String.eqb_spec (Opportunity.status opportunity)
                "ACCEPTED_BY_ROUTE2"); [contradiction | reflexivity].
  - intros H1 H2 Hs.
    pose proof (acceptUpdate_route2 env opportunity routeId H1 H2) as Hu.
    destruct (acceptSynergy_updates env db opportunityId routeId
                opportunity _ Hfind Hu) as [_ Hrow].
    rewrite Hrow. cbn [option_map]. rewrite UpdateData_apply_status.
    cbn [UpdateData.status].
    destruct (String.eqb_spec (Opportunity.status opportunity)
                "ACCEPTED_BY_ROUTE1"); [contradiction | reflexivity].
Qed.

Lemma acceptSynergy_overwrites_any_status_witness :
  option_map Opportunity.status
    (findOpportunity
       (snd (acceptSynergy Scenario.env (Scenario.ledger "COMPLETED")
               "o1" "r1")) "o1")
  = Some "ACCEPTED_BY_ROUTE1"
  /\ option_map Opportunity.status
       (findOpportunity
          (snd (acceptSynergy Scenario.env (Scenario.ledger "BOTH_ACCEPTED")
                  "o1" "r2")) "o1")
     = Some "ACCEPTED_BY_ROUTE2"
  /\ option_map Opportunity.status
       (findOpportunity
          (snd (acceptSynergy Scenario.env (Scenario.ledger "EXPIRED")
                  "o1" "r1")) "o1")
     = Some "ACCEPTED_BY_ROUTE1".
Proof.
  split; [| split].
  - apply (proj1 (acceptSynergy_overwrites_any_status Scenario.env
                    (Scenario.ledger "COMPLETED") "o1" "r1"
                    (Scenario.opportunity "COMPLETED") eq_refl));
      [reflexivity | discriminate].
  - apply (proj2 (acceptSynergy_overwrites_any_status Scenario.env
                    (Scenario.ledger "BOTH_ACCEPTED") "o1" "r2"
                    (Scenario.opportunity "BOTH_ACCEPTED") eq_refl));
      [discriminate | reflexivity | discriminate].
  - apply (proj1 (acceptSynergy_overwrites_any_status Scenario.env
                    (Scenario.ledger "EXPIRED") "o1" "r1"
                    (Scenario.opportunity "EXPIRED") eq_refl));
      [reflexivity | discriminate].
Defined.

(** ** Driver relay rule and handshake *)

Lemma geb_true_iff (a b : Q) : Js.geb a b = true <-> b <= a.
Proof. unfold Js.geb. apply Qle_bool_iff. Qed.

Lemma geb_false_iff (a b : Q) : Js.geb a b = false <-> a < b.
Proof.
  unfold Js.geb. split.
  - intros H. apply Qnot_le_lt. intros Hle.
    apply Qle_bool_iff in Hle. congruence.
  - intros Hlt. destruct (Qle_bool b a) eqn:Hb; [| reflexivity].
    apply Qle_bool_iff in Hb. exfalso. exact (Qlt_not_le _ _ Hlt Hb).
Qed.

(** [x || 0] is the number [x] stands for, a missing value counting as 0. *)
Lemma orNum_zero (x : option Q) : Js.orNum x 0 == Js.toNumber x.
Proof.
  destruct x as [q |]; cbn; [| reflexivity].
  destruct (Qeq_bool q 0) eqn:Hq; [| reflexivity].
  apply Qeq_bool_iff in Hq. now rewrite Hq.
Qed.





(** On an opportunity whose routes, trucks and owners the store holds, the
    handshake writes the transaction built from the relay rule. *)
Lemma handleHandshake_store (db : Store.t) (opportunityId : Id)
    (opportunity : Opportunity.t) (truck1 truck2 : Truck.t)
    (driver1 driver2 : User.t) :
  findOpportunity db opportunityId = Some opportunity ->
  routeTruckOwner db (Opportunity.route1Id opportunity)
  = Some (truck1, driver1) ->
  routeTruckOwner db (Opportunity.route2Id opportunity)
  = Some (truck2, driver2) ->
  snd (fst (handleHandshake db opportunityId))
  = handshakeTransaction db opportunityId (Opportunity.route2Id opportunity)
      (relayRule driver1 driver2 (Truck.id truck1) (Truck.id truck2)).
Proof.
  intros Hfind H1 H2. unfold handleHandshake. now rewrite Hfind, H1, H2.
Qed.

(** The handshake marks the opportunity COMPLETED, whatever its status. *)
Lemma handleHandshake_completes (db : Store.t) (opportunityId : Id)
    (opportunity : Opportunity.t) (truck1 truck2 : Truck.t)
    (driver1 driver2 : User.t) :
  findOpportunity db opportunityId = Some opportunity ->
  routeTruckOwner db (Opportunity.route1Id opportunity)
  = Some (truck1, driver1) ->
  routeTruckOwner db (Opportunity.route2Id opportunity)
  = Some (truck2, driver2) ->
  findOpportunity (snd (fst (handleHandshake db opportunityId)))
    opportunityId
  = Some (Opportunity.setStatus "COMPLETED" opportunity).
Proof.
  intros Hfind H1 H2.
  rewrite (handleHandshake_store _ _ _ _ _ _ _ Hfind H1 H2).
  unfold findOpportunity, handshakeTransaction in *.
  cbn [Store.opportunities].
  apply find_opportunity_after_update; [reflexivity | exact Hfind].
Qed.

(** When the driver of route1 wins, each delivery of route2, the absorbed
    route, goes to the truck and the driver of route1. *)
Lemma handleHandshake_route1_wins (db : Store.t) (opportunityId : Id)
    (opportunity : Opportunity.t) (truck1 truck2 : Truck.t)
    (driver1 driver2 : User.t) (d : Delivery.t) :
  findOpportunity db opportunityId = Some opportunity ->
  routeTruckOwner db (Opportunity.route1Id opportunity)
  = Some (truck1, driver1) ->
  routeTruckOwner db (Opportunity.route2Id opportunity)
  = Some (truck2, driver2) ->
  workload driver2 <= workload driver1 ->
  In d (Store.deliveries db) ->
  onRoute (Opportunity.route2Id opportunity) d = true ->
  In (transferDelivery (Truck.id truck1) (User.id driver1) d)
     (Store.deliveries (snd (fst (handleHandshake db opportunityId)))).
Proof.
  intros Hfind H1 H2 Hle Hin Hon.
  rewrite (handleHandshake_store _ _ _ _ _ _ _ Hfind H1 H2).
  unfold handshakeTransaction, relayRule. cbn [Store.deliveries].
  apply geb_true_iff in Hle. rewrite Hle.
  cbn [Relay.masterTruckId Relay.longHaulDriver].
  apply in_map_iff. exists d. now rewrite Hon.
Qed.

(** When the driver of route2 wins, the deliveries of route1, the route to
    absorb, are left as they were. *)
Lemma handleHandshake_route2_wins (db : Store.t) (opportunityId : Id)
    (opportunity : Opportunity.t) (truck1 truck2 : Truck.t)
    (driver1 driver2 : User.t) (d : Delivery.t) :
  findOpportunity db opportunityId = Some opportunity ->
  routeTruckOwner db (Opportunity.route1Id opportunity)
  = Some (truck1, driver1) ->
  routeTruckOwner db (Opportunity.route2Id opportunity)
  = Some (truck2, driver2) ->
  Opportunity.route1Id opportunity <> Opportunity.route2Id opportunity ->
  In d (Store.deliveries db) ->
  onRoute (Opportunity.route1Id opportunity) d = true ->
  In d (Store.deliveries (snd (fst (handleHandshake db opportunityId)))).
Proof.
  intros Hfind H1 H2 Hne Hin Hon.
  rewrite (handleHandshake_store _ _ _ _ _ _ _ Hfind H1 H2).
  unfold handshakeTransaction. cbn [Store.deliveries].
  apply in_map_iff. exists d. split; [| exact Hin].
  unfold onRoute in *.
  destruct (Delivery.optimizedRouteId d) as [r |]; [| reflexivity].
  apply String.eqb_eq in Hon. subst r.
  destruct (String.eqb_spec (Opportunity.route1Id opportunity)
              (Opportunity.route2Id opportunity));
    [contradiction | reflexivity].
Qed.

(** C2.  The handshake marks the opportunity COMPLETED, and when the
    driver of route1 has the greater workload (50 against 20) the
    deliveries of route2 go to the truck and the driver of route1.  When
    the driver of route2 has the greater workload (20 against 50), the
    delivery of route1, the losing route, stays ALLOCATED on its own truck
    and driver, and it is the deliveries of route2, the winner's own, that
    are marked ABSORPTION_TRANSFERRED. *)
Theorem handleHandshake_reassigns_route2_only :
  option_map Opportunity.status
    (findOpportunity (HandshakeScenario.after 50 0 20 0) "o1")
  = Some "COMPLETED"
  /\ routeDeliveriesOf (HandshakeScenario.after 50 0 20 0) "r2"
     = [ Delivery.mk "d2" "acme" "ABSORPTION_TRANSFERRED" 4 2 0%Z
           (Some "t1") (Some "u1") (Some "r2");
         Delivery.mk "d3" "acme" "ABSORPTION_TRANSFERRED" 4 2 0%Z
           (Some "t1") (Some "u1") (Some "r2") ]
  /\ option_map Opportunity.status
       (findOpportunity (HandshakeScenario.after 20 0 50 0) "o1")
     = Some "COMPLETED"
  /\ routeDeliveriesOf (HandshakeScenario.after 20 0 50 0) "r1"
     = [ Delivery.mk "d1" "acme" "ALLOCATED" 4 2 0%Z
           (Some "t1") (Some "u1") (Some "r1") ]
  /\ routeDeliveriesOf (HandshakeScenario.after 20 0 50 0) "r2"
     = [ Delivery.mk "d2" "acme" "ABSORPTION_TRANSFERRED" 4 2 0%Z
           (Some "t2") (Some "u2") (Some "r2");
         Delivery.mk "d3" "acme" "ABSORPTION_TRANSFERRED" 4 2 0%Z
           (Some "t2") (Some "u2") (Some "r2") ].
Proof. repeat split. Qed.

(** ** Route allocation *)

(** C9.  The error contract of [allocateRoutes]: a request without a
    company identifier is answered 400 "courierCompanyId is required"
    (ValidationError); with no pending delivery of the company the answer
    is 200 with success and "No pending deliveries to allocate"; with
    pending deliveries and no available, APPROVED truck the answer is 400
    "No available trucks for allocation" (CapacityError).  In the three
    cases the store is left as it was. *)
Theorem allocateRoutes_error_contract :
  forall (add : Q -> Q -> Q) (env : Env) (db : Store.t)
         (req : Request.allocate),
    (Request.courierCompanyId req = None ->
     allocateRoutes add env db req
     = ({| statusCode := 400;
           body := BFailure "courierCompanyId is required" |}, db))
    /\
    (forall company : Id,
        Request.courierCompanyId req = Some company ->
        company <> "" ->
        findPendingDeliveries db company = [] ->
        allocateRoutes add env db req
        = ({| statusCode := 200;
              body := BInfo "No pending deliveries to allocate" |}, db))
    /\
    (forall company : Id,
        Request.courierCompanyId req = Some company ->
        company <> "" ->
        findPendingDeliveries db company <> [] ->
        findAvailableTrucks db company = [] ->
        allocateRoutes add env db req
        = ({| statusCode := 400;
              body := BFailure "No available trucks for allocation" |}, db)).
Proof.
  intros add env db req. unfold allocateRoutes. repeat split.
  - intros ->. reflexivity.
  - intros company -> Hne Hpending.
    destruct company as [| c s]; [contradiction |]. cbn [Js.truthyStr negb].
    now rewrite Hpending.
  - intros company -> Hne Hpending Htrucks.
    destruct company as [| c s]; [contradiction |]. cbn [Js.truthyStr negb].
    destruct (findPendingDeliveries db (String c s)) as [| d l];
      [contradiction |].
    cbn [length Nat.eqb]. now rewrite Htrucks.
Qed.

Lemma allocateRoutes_error_contract_witness :
  allocateRoutes Js.addDouble Scenario.env AllocationScenario.scenarioA
    {| Request.courierCompanyId := None |}
  = ({| statusCode := 400;
        body := BFailure "courierCompanyId is required" |},
     AllocationScenario.scenarioA)
  /\ allocateRoutes Js.addDouble Scenario.env AllocationScenario.noDelivery
       AllocationScenario.request
     = ({| statusCode := 200;
           body := BInfo "No pending deliveries to allocate" |},
        AllocationScenario.noDelivery)
  /\ allocateRoutes Js.addDouble Scenario.env AllocationScenario.noTruck
       AllocationScenario.request
     = ({| statusCode := 400;
           body := BFailure "No available trucks for allocation" |},
        AllocationScenario.noTruck).
Proof.
  split; [| split].
  - apply (proj1 (allocateRoutes_error_contract Js.addDouble Scenario.env
                    AllocationScenario.scenarioA
                    {| Request.courierCompanyId := None |})).
    reflexivity.
  - apply (proj1 (proj2 (allocateRoutes_error_contract Js.addDouble Scenario.env
                           AllocationScenario.noDelivery
                           AllocationScenario.request)) "acme");
      [reflexivity | discriminate | reflexivity].
  - apply (proj2 (proj2 (allocateRoutes_error_contract Js.addDouble Scenario.env
                           AllocationScenario.noTruck
                           AllocationScenario.request)) "acme");
      [reflexivity | discriminate | discriminate | reflexivity].
Defined.

(** *** The loop of a truck *)

Lemma takeDelivery_withinLimits (add : Q -> Q -> Q) (truck : Truck.t)
    (st : Fill) (d : Delivery.t) :
  fitsWeight add truck st d && fitsVolume add truck st d = true ->
  withinLimits truck (takeDelivery add st d).
Proof.
  intros H. apply andb_true_iff in H. exact H.
Qed.

Lemma fillTruck_withinLimits (add : Q -> Q -> Q)
    (truck : Truck.t) (rest : list Delivery.t) :
  forall st : Fill,
    withinLimits truck st -> withinLimits truck (fillTruck add truck rest st).
Proof.
  induction rest as [| d rest IH]; intros st Hst; cbn [fillTruck];
    [exact Hst |].
  destruct (fitsWeight add truck st d && fitsVolume add truck st d) eqn:Hfit;
    [| exact Hst].
  apply IH. now apply takeDelivery_withinLimits.
Qed.

(** As soon as the loop has taken a delivery, the load is within limits. *)
Lemma fillTruck_taken_withinLimits (add : Q -> Q -> Q) (truck : Truck.t)
    (rest : list Delivery.t) (st : Fill) :
  fillTruck add truck rest st <> st ->
  withinLimits truck (fillTruck add truck rest st).
Proof.
  destruct rest as [| d rest]; cbn [fillTruck]; [congruence |].
  destruct (fitsWeight add truck st d && fitsVolume add truck st d) eqn:Hfit;
    [| congruence].
  intros _. apply fillTruck_withinLimits.
  now apply takeDelivery_withinLimits.
Qed.

(** The state of the loop after it has taken the deliveries of [taken],
    one after the other. *)
Lemma takeDelivery_fold (add : Q -> Q -> Q) (taken : list Delivery.t) :
  forall st : Fill,
    routeDeliveries (fold_left (takeDelivery add) taken st)
    = routeDeliveries st ++ taken
    /\ deliveryIndex (fold_left (takeDelivery add) taken st)
       = (deliveryIndex st + length taken)%nat
    /\ currentWeight (fold_left (takeDelivery add) taken st)
       = fold_left add (map Delivery.cargoWeight taken) (currentWeight st)
    /\ currentVolume (fold_left (takeDelivery add) taken st)
       = fold_left add (map Delivery.cargoVolumeLtrs taken)
           (currentVolume st).
Proof.
  induction taken as [| d taken IH]; intros st; cbn [fold_left map length].
  - rewrite app_nil_r, Nat.add_0_r. repeat split.
  - destruct (IH (takeDelivery add st d)) as (Hr & Hi & Hw & Hv).
    rewrite Hr, Hi, Hw, Hv.
    cbn [takeDelivery routeDeliveries deliveryIndex currentWeight
           currentVolume].
    rewrite <- app_assoc. repeat split. lia.
Qed.

(** What the loop of a truck does to the queue: it takes a prefix [taken]
    of [rest], in order, each delivery of it fitting the load taken before
    it, and stops either at the end of the queue or in front of the first
    delivery that does not fit the load taken so far. *)
Lemma fillTruck_spec (add : Q -> Q -> Q) (truck : Truck.t)
    (rest : list Delivery.t) :
  forall st : Fill,
  exists taken remaining : list Delivery.t,
    rest = taken ++ remaining
    /\ fillTruck add truck rest st = fold_left (takeDelivery add) taken st
    /\ (forall (n : nat) (d : Delivery.t),
           nth_error taken n = Some d ->
           fitsWeight add truck
             (fold_left (takeDelivery add) (firstn n taken) st) d
           && fitsVolume add truck
                (fold_left (takeDelivery add) (firstn n taken) st) d
           = true)
    /\ match remaining with
       | [] => True
       | d :: _ =>
           fitsWeight add truck (fillTruck add truck rest st) d
           && fitsVolume add truck (fillTruck add truck rest st) d = false
       end.
Proof.
  induction rest as [| d rest IH]; intros st; cbn [fillTruck].
  - exists [], []. repeat split. intros [| n] d; discriminate.
  - destruct (fitsWeight add truck st d && fitsVolume add truck st d)
      eqn:Hfit.
    + destruct (IH (takeDelivery add st d))
        as (taken & remaining & Hrest & Hstate & Hfits & Hstop).
      exists (d :: taken), remaining.
      split; [cbn; now rewrite Hrest |].
      split; [exact Hstate |]. split; [| exact Hstop].
      intros [| n] d'; cbn [nth_error firstn fold_left].
      * intros [= <-]. exact Hfit.
      * apply Hfits.
    + exists [], (d :: rest). repeat split.
      * intros [| n] d'; discriminate.
      * exact Hfit.
Qed.

(** The running total is the exact sum when its additions are exact. *)
Lemma fold_left_exact (add : Q -> Q -> Q) (l : list Q) :
  forall acc : Q,
    exactFrom add acc l ->
    fold_left add l acc == acc + fold_right Qplus 0 l.
Proof.
  induction l as [| x l IH]; intros acc; cbn [exactFrom fold_left fold_right].
  - intros _. ring.
  - intros [Hx Hl]. rewrite (IH _ Hl), Hx. ring.
Qed.

Lemma sumWeight_fold (l : list Delivery.t) :
  sumWeight l = fold_right Qplus 0 (map Delivery.cargoWeight l).
Proof.
  unfold sumWeight. induction l as [| d l IH]; cbn [fold_right map];
    [reflexivity | now rewrite IH].
Qed.

Lemma sumVolume_fold (l : list Delivery.t) :
  sumVolume l = fold_right Qplus 0 (map Delivery.cargoVolumeLtrs l).
Proof.
  unfold sumVolume. induction l as [| d l IH]; cbn [fold_right map];
    [reflexivity | now rewrite IH].
Qed.

(** *** The loop over the trucks *)

(** Each allocation comes from the loop of one truck, started at the index
    where the loop before it stopped, and holds what that loop took. *)
Lemma allocateLoop_In (add : Q -> Q -> Q) (pending : list Delivery.t) :
  forall (trucks : list Truck.t) (idx : nat) (allocs : list Allocation.t)
         (alloc : Allocation.t),
    In alloc (fst (allocateLoop add pending trucks idx allocs)) ->
    In alloc allocs
    \/ exists (truck : Truck.t) (idx' : nat),
         In truck trucks
         /\ routeDeliveries
              (fillTruck add truck (skipn idx' pending) (startFill idx')) <> []
         /\ alloc
            = Allocation.mk truck
                (routeDeliveries
                   (fillTruck add truck (skipn idx' pending) (startFill idx')))
                (currentWeight
                   (fillTruck add truck (skipn idx' pending) (startFill idx')))
                (currentVolume
                   (fillTruck add truck (skipn idx' pending) (startFill idx'))).
Proof.
  induction trucks as [| truck trucks IH]; intros idx allocs alloc;
    cbn [allocateLoop].
  - cbn [fst]. now left.
  - destruct (length pending <=? idx)%nat; [cbn [fst]; now left |].
    cbv zeta. intros Hin. apply IH in Hin.
    destruct Hin as [Hin | (truck' & idx' & Hin' & Hrest)].
    + destruct (0 <? length (routeDeliveries
                  (fillTruck add truck (skipn idx pending)
                     (startFill idx))))%nat
        eqn:Hlen; [| now left].
      apply in_app_or in Hin. destruct Hin as [Hin | [<- | []]];
        [now left |].
      right. exists truck, idx. split; [now left |]. split; [| reflexivity].
      apply Nat.ltb_lt in Hlen. intros Hnil. rewrite Hnil in Hlen.
      cbn in Hlen. lia.
    + right. exists truck', idx'. split; [now right | exact Hrest].
Qed.

Lemma withinLimit_nonzero (total m : Q) :
  withinLimit total (Some m) = true -> ~ m == 0 -> total <= m.
Proof.
  unfold withinLimit, Js.orInfinity. intros H Hm.
  destruct (Qeq_bool m 0) eqn:Hz.
  - apply Qeq_bool_iff in Hz. contradiction.
  - cbn [Js.leExt] in H. now apply Qle_bool_iff.
Qed.

Lemma withinLimit_unbounded (total : Q) (limit : option Q) :
  limit = None \/ (exists m, limit = Some m /\ m == 0) ->
  withinLimit total limit = true.
Proof.
  intros [-> | (m & -> & Hm)]; [reflexivity |].
  unfold withinLimit, Js.orInfinity.
  apply Qeq_bool_iff in Hm. now rewrite Hm.
Qed.

(** Every allocation is not empty, belongs to one of the trucks, records
    the running totals of its deliveries, and is within the limits of its
    truck. *)
Lemma greedyAllocation_within_limits (add : Q -> Q -> Q)
    (pending : list Delivery.t) (trucks : list Truck.t)
    (alloc : Allocation.t) :
  In alloc (greedyAllocation add pending trucks) ->
  Allocation.deliveries alloc <> []
  /\ In (Allocation.truck alloc) trucks
  /\ Allocation.totalWeight alloc
     = runningTotal add
         (map Delivery.cargoWeight (Allocation.deliveries alloc))
  /\ Allocation.totalVolume alloc
     = runningTotal add
         (map Delivery.cargoVolumeLtrs (Allocation.deliveries alloc))
  /\ withinLimit (Allocation.totalWeight alloc)
       (Truck.maxWeight (Allocation.truck alloc)) = true
  /\ withinLimit (Allocation.totalVolume alloc)
       (Truck.maxVolume (Allocation.truck alloc)) = true.
Proof.
  unfold greedyAllocation. intros Hin. apply allocateLoop_In in Hin.
  destruct Hin as [[] | (truck & idx & Htruck & Hne & ->)].
  cbn [Allocation.deliveries Allocation.truck Allocation.totalWeight
         Allocation.totalVolume].
  assert (Hlim : withinLimits truck
                   (fillTruck add truck (skipn idx pending) (startFill idx))).
  { apply fillTruck_taken_withinLimits. intros Heq. apply Hne.
    now rewrite Heq. }
  destruct Hlim as [HlimW HlimV].
  destruct (fillTruck_spec add truck (skipn idx pending) (startFill idx))
    as (taken & remaining & _ & Hstate & _ & _).
  destruct (takeDelivery_fold add taken (startFill idx))
    as (Hroute & _ & Hw & Hv).
  rewrite <- Hstate in Hroute, Hw, Hv.
  cbn [startFill routeDeliveries currentWeight currentVolume app]
    in Hroute, Hw, Hv.
  split; [exact Hne |]. split; [exact Htruck |].
  split; [rewrite Hw, Hroute; reflexivity |].
  split; [rewrite Hv, Hroute; reflexivity |].
  split; assumption.
Qed.

(** The routes the transaction creates are the routes of the allocations. *)
Lemma commitAllocations_routes (env : Env) (company : Id) :
  forall (allocations : list Allocation.t) (db : Store.t)
         (created : list Route.t) (route : Route.t),
    In route
       (snd (fold_left (commitAllocation env company) allocations
               (db, created))) ->
    In route created
    \/ exists alloc : Allocation.t,
         In alloc allocations
         /\ route = routeOfAllocation env company (Route.id route) alloc.
Proof.
  induction allocations as [| alloc allocations IH];
    intros db created route; cbn [fold_left].
  - cbn [snd]. now left.
  - unfold commitAllocation at 2. intros Hin. apply IH in Hin.
    destruct Hin as [Hin | (alloc' & Hin' & Heq)].
    + apply in_app_or in Hin. destruct Hin as [Hin | [<- | []]];
        [now left |].
      right. exists alloc. split; [now left | reflexivity].
    + right. exists alloc'. split; [now right | exact Heq].
Qed.

(** The first component of a 201 answer. *)
Lemma allocateRoutes_created (add : Q -> Q -> Q) (env : Env) (db : Store.t)
    (req : Request.allocate) (message : string) (routes : list Route.t) :
  body (fst (allocateRoutes add env db req)) = BAllocated message routes ->
  exists company : Id,
    Request.courierCompanyId req = Some company
    /\ routes
       = snd (commitAllocations env company db
                (greedyAllocation add (findPendingDeliveries db company)
                   (findAvailableTrucks db company))).
Proof.
  unfold allocateRoutes.
  destruct (Request.courierCompanyId req) as [company |]; [| discriminate].
  destruct (negb (Js.truthyStr (Some company))); [discriminate |].
  destruct (length (findPendingDeliveries db company) =? 0)%nat;
    [discriminate |].
  destruct (length (findAvailableTrucks db company) =? 0)%nat;
    [discriminate |].
  destruct (commitAllocations env company db _) as [db' results] eqn:Hc.
  cbn [fst body]. intros [= _ <-]. exists company.
  split; [reflexivity |]. now rewrite Hc.
Qed.

(** C1, as the claim states it, fails on a limit that is set to 0: the
    truck of [AllocationScenario.zeroLimit] has [maxWeight = 0], and the
    route created for it carries a delivery of weight 5. *)
Lemma zero_maxWeight_route_exceeds_limit :
  exists (message : string) (route : Route.t) (truck : Truck.t),
    body (fst (allocateRoutes Js.addDouble Scenario.env
                 AllocationScenario.zeroLimit AllocationScenario.request))
    = BAllocated message [route]
    /\ findTruck AllocationScenario.zeroLimit (Route.truckId route)
       = Some truck
    /\ Truck.maxWeight truck = Some 0
    /\ routeDeliveriesOf
         (snd (allocateRoutes Js.addDouble Scenario.env
                 AllocationScenario.zeroLimit AllocationScenario.request))
         (Route.id route)
       = [ Delivery.mk "d1" "acme" "ALLOCATED" 5 1 10%Z
             (Some "t1") (Some "u1") (Some "id-0") ]
    /\ Route.totalWeight route = 5
    /\ ~ Route.totalWeight route <= 0.
Proof.
  do 3 eexists. split; [reflexivity |]. split; [reflexivity |].
  split; [reflexivity |]. split; [reflexivity |]. split; [reflexivity |].
  cbn. unfold Qle. cbn. lia.
Qed.

(** The summed weight of a route can also exceed a limit that is set,
    through the rounding of the running total: with weights 2^53 and 1 and
    [maxWeight] 2^53, the total of the loop is 2^53 + 1 rounded, that is
    2^53, so that the second delivery passes the test; the route carries
    both deliveries, and its recorded weight is 2^53. *)
Lemma rounded_total_hides_excess :
  exists (message : string) (route : Route.t) (truck : Truck.t),
    body (fst (allocateRoutes Js.addDouble Scenario.env
                 AllocationScenario.rounding AllocationScenario.request))
    = BAllocated message [route]
    /\ findTruck AllocationScenario.rounding (Route.truckId route)
       = Some truck
    /\ Truck.maxWeight truck = Some 9007199254740992
    /\ map Delivery.cargoWeight
         (routeDeliveriesOf
            (snd (allocateRoutes Js.addDouble Scenario.env
                    AllocationScenario.rounding AllocationScenario.request))
            (Route.id route))
       = [9007199254740992; 1]
    /\ Route.totalWeight route = 9007199254740992
    /\ ~ sumWeight
           (routeDeliveriesOf
              (snd (allocateRoutes Js.addDouble Scenario.env
                      AllocationScenario.rounding
                      AllocationScenario.request))
              (Route.id route))
         <= 9007199254740992.
Proof.
  do 3 eexists. do 5 (split; [lazy; reflexivity |]).
  vm_compute. intros H. now apply H.
Qed.

(** C1, amended.  Every route that [allocateRoutes] creates is the route
    of an allocation of the greedy loop, and records as its weight and its
    volume the running totals of the loop over its deliveries.  Whatever
    the rounding of the additions is, the recorded weight does not exceed
    the [maxWeight] of the truck, and the recorded volume does not exceed
    its [maxVolume], whenever that limit is set to a number other than 0.
    When the additions of the running total are exact, the recorded value
    is the sum of the deliveries, which is then within the limit.  A limit
    that is absent or 0 is unbounded: the truck accepts on that dimension
    whatever the accumulated load is. *)
Theorem allocateRoutes_respects_nonzero_limits :
  forall add : Q -> Q -> Q,
    (forall (env : Env) (db : Store.t) (req : Request.allocate)
            (message : string) (routes : list Route.t) (route : Route.t),
        body (fst (allocateRoutes add env db req))
        = BAllocated message routes ->
        In route routes ->
        exists (company : Id) (alloc : Allocation.t),
          Request.courierCompanyId req = Some company
          /\ In alloc (greedyAllocation add
                         (findPendingDeliveries db company)
                         (findAvailableTrucks db company))
          /\ route = routeOfAllocation env company (Route.id route) alloc
          /\ Allocation.deliveries alloc <> []
          /\ Route.totalWeight route
             = runningTotal add
                 (map Delivery.cargoWeight (Allocation.deliveries alloc))
          /\ Route.totalVolume route
             = runningTotal add
                 (map Delivery.cargoVolumeLtrs (Allocation.deliveries alloc))
          /\ (forall m : Q,
                 Truck.maxWeight (Allocation.truck alloc) = Some m ->
                 ~ m == 0 ->
                 Route.totalWeight route <= m)
          /\ (forall m : Q,
                 Truck.maxVolume (Allocation.truck alloc) = Some m ->
                 ~ m == 0 ->
                 Route.totalVolume route <= m)
          /\ (exactFrom add 0
                (map Delivery.cargoWeight (Allocation.deliveries alloc)) ->
              Route.totalWeight route
              == sumWeight (Allocation.deliveries alloc)
              /\ forall m : Q,
                   Truck.maxWeight (Allocation.truck alloc) = Some m ->
                   ~ m == 0 ->
                   sumWeight (Allocation.deliveries alloc) <= m)
          /\ (exactFrom add 0
                (map Delivery.cargoVolumeLtrs
                   (Allocation.deliveries alloc)) ->
              Route.totalVolume route
              == sumVolume (Allocation.deliveries alloc)
              /\ forall m : Q,
                   Truck.maxVolume (Allocation.truck alloc) = Some m ->
                   ~ m == 0 ->
                   sumVolume (Allocation.deliveries alloc) <= m))
    /\ (forall (truck : Truck.t) (st : Fill) (delivery : Delivery.t),
           Truck.maxWeight truck = None
           \/ (exists m : Q, Truck.maxWeight truck = Some m /\ m == 0) ->
           fitsWeight add truck st delivery = true)
    /\ (forall (truck : Truck.t) (st : Fill) (delivery : Delivery.t),
           Truck.maxVolume truck = None
           \/ (exists m : Q, Truck.maxVolume truck = Some m /\ m == 0) ->
           fitsVolume add truck st delivery = true).
Proof.
  intros add. split; [| split].
  - intros env db req message routes route Hbody Hin.
    destruct (allocateRoutes_created add env db req message routes Hbody)
      as (company & Hreq & ->).
    unfold commitAllocations in Hin.
    apply commitAllocations_routes in Hin.
    destruct Hin as [[] | (alloc & Hin & Hroute)].
    exists company, alloc.
    destruct (greedyAllocation_within_limits add _ _ _ Hin)
      as (Hne & _ & Hw & Hv & HlimW & HlimV).
    assert (HrW : Route.totalWeight route = Allocation.totalWeight alloc)
      by now rewrite Hroute.
    assert (HrV : Route.totalVolume route = Allocation.totalVolume alloc)
      by now rewrite Hroute.
    assert (HboundW : forall m : Q,
               Truck.maxWeight (Allocation.truck alloc) = Some m ->
               ~ m == 0 -> Route.totalWeight route <= m).
    { intros m Hm Hnz. rewrite HrW. rewrite Hm in HlimW.
      now apply withinLimit_nonzero. }
    assert (HboundV : forall m : Q,
               Truck.maxVolume (Allocation.truck alloc) = Some m ->
               ~ m == 0 -> Route.totalVolume route <= m).
    { intros m Hm Hnz. rewrite HrV. rewrite Hm in HlimV.
      now apply withinLimit_nonzero. }
    split; [exact Hreq |]. split; [exact Hin |]. split; [exact Hroute |].
    split; [exact Hne |].
    split; [now rewrite HrW |]. split; [now rewrite HrV |].
    split; [exact HboundW |]. split; [exact HboundV |]. split.
    + intros Hexact.
      assert (Hsum : Route.totalWeight route
                     == sumWeight (Allocation.deliveries alloc)).
      { rewrite HrW, Hw. unfold runningTotal.
        rewrite (fold_left_exact add _ 0 Hexact), sumWeight_fold. ring. }
      split; [exact Hsum |].
      intros m Hm Hnz. rewrite <- Hsum. now apply HboundW.
    + intros Hexact.
      assert (Hsum : Route.totalVolume route
                     == sumVolume (Allocation.deliveries alloc)).
      { rewrite HrV, Hv. unfold runningTotal.
        rewrite (fold_left_exact add _ 0 Hexact), sumVolume_fold. ring. }
      split; [exact Hsum |].
      intros m Hm Hnz. rewrite <- Hsum. now apply HboundV.
  - intros truck st delivery H. unfold fitsWeight.
    now apply withinLimit_unbounded.
  - intros truck st delivery H. unfold fitsVolume.
    now apply withinLimit_unbounded.
Qed.

Lemma allocateRoutes_respects_nonzero_limits_witness :
  exists alloc : Allocation.t,
    In alloc (greedyAllocation Js.addDouble
                (findPendingDeliveries AllocationScenario.scenarioA "acme")
                (findAvailableTrucks AllocationScenario.scenarioA "acme"))
    /\ Truck.maxWeight (Allocation.truck alloc) = Some 5
    /\ Allocation.totalWeight alloc <= 5
    /\ sumWeight (Allocation.deliveries alloc) <= 5.
Proof.
  edestruct (proj1 (allocateRoutes_respects_nonzero_limits Js.addDouble)
               Scenario.env AllocationScenario.scenarioA
               AllocationScenario.request)
    as (company & alloc & Hreq & Hin & Hroute & _ & _ & _ & Hweight & _
        & Hexact & _); [lazy; reflexivity | left; reflexivity |].
  injection Hreq as <-.
  exists alloc. split; [exact Hin |].
  assert (Halloc : alloc
                   = Allocation.mk (AllocationScenario.truck (Some 5))
                       [AllocationScenario.pending "d1" 2 10%Z;
                        AllocationScenario.pending "d2" 3 20%Z] 5 2).
  { vm_compute in Hin. destruct Hin as [<- | []]. reflexivity. }
  assert (Hnz : ~ 5 == 0) by (unfold Qeq; cbn; lia).
  assert (Hmax : Truck.maxWeight (Allocation.truck alloc) = Some 5)
    by (rewrite Halloc; reflexivity).
  split; [exact Hmax |]. split.
  - pose proof (Hweight 5 Hmax Hnz) as Hw. rewrite Hroute in Hw. exact Hw.
  - refine (proj2 (Hexact _) 5 Hmax Hnz).
    rewrite Halloc. lazy. split; [reflexivity |]. split; [reflexivity |].
    exact I.
Defined.

(** *** The order of the queue and the shared index *)

Lemma insertByTimeWindow_In (d x : Delivery.t) (l : list Delivery.t) :
  In x (insertByTimeWindow d l) <-> x = d \/ In x l.
Proof.
  induction l as [| y l IH]; cbn [insertByTimeWindow].
  - cbn. intuition congruence.
  - destruct (Delivery.timeWindowStart d <=? Delivery.timeWindowStart y)%Z;
      cbn [In]; [intuition congruence |].
    rewrite IH. intuition congruence.
Qed.

Lemma orderByTimeWindowStart_In (x : Delivery.t) (l : list Delivery.t) :
  In x (orderByTimeWindowStart l) <-> In x l.
Proof.
  unfold orderByTimeWindowStart.
  induction l as [| d l IH]; cbn [fold_right]; [reflexivity |].
  rewrite insertByTimeWindow_In, IH. cbn [In]. intuition congruence.
Qed.

(** The queue holds the PENDING deliveries of the company, all of them. *)
Lemma findPendingDeliveries_In (db : Store.t) (company : Id)
    (d : Delivery.t) :
  In d (findPendingDeliveries db company)
  <-> In d (Store.deliveries db)
      /\ Delivery.courierCompanyId d = company
      /\ Delivery.status d = "PENDING".
Proof.
  unfold findPendingDeliveries.
  rewrite orderByTimeWindowStart_In, filter_In, andb_true_iff.
  rewrite !String.eqb_eq. reflexivity.
Qed.

Lemma findAvailableTrucks_In (db : Store.t) (company : Id) (t : Truck.t) :
  In t (findAvailableTrucks db company)
  <-> In t (Store.trucks db)
      /\ Truck.courierCompanyId t = company
      /\ Truck.isAvailable t = true
      /\ Truck.registrationStatus t = "APPROVED".
Proof.
  unfold findAvailableTrucks.
  rewrite filter_In, !andb_true_iff, !String.eqb_eq. tauto.
Qed.

Lemma insertByTimeWindow_HdRel (d x : Delivery.t) (l : list Delivery.t) :
  HdRel timeWindowLe x l -> timeWindowLe x d ->
  HdRel timeWindowLe x (insertByTimeWindow d l).
Proof.
  intros Hl Hd. destruct l as [| y l]; cbn [insertByTimeWindow].
  - now constructor.
  - destruct (Delivery.timeWindowStart d <=? Delivery.timeWindowStart y)%Z;
      constructor; [exact Hd |]. now inversion Hl.
Qed.

Lemma insertByTimeWindow_Sorted (d : Delivery.t) (l : list Delivery.t) :
  Sorted timeWindowLe l -> Sorted timeWindowLe (insertByTimeWindow d l).
Proof.
  induction l as [| x l IH]; intros Hs; cbn [insertByTimeWindow].
  - repeat constructor.
  - destruct (Z.leb_spec (Delivery.timeWindowStart d)
                (Delivery.timeWindowStart x)) as [Hle | Hgt].
    + constructor; [exact Hs |]. constructor. exact Hle.
    + inversion Hs as [| ? ? Hs' Hhd]; subst. constructor.
      * now apply IH.
      * apply insertByTimeWindow_HdRel; [exact Hhd |].
        unfold timeWindowLe. lia.
Qed.

Lemma findPendingDeliveries_Sorted (db : Store.t) (company : Id) :
  Sorted timeWindowLe (findPendingDeliveries db company).
Proof.
  unfold findPendingDeliveries, orderByTimeWindowStart.
  induction (filter _ (Store.deliveries db)) as [| d l IH];
    cbn [fold_right]; [constructor |].
  now apply insertByTimeWindow_Sorted.
Qed.

(** The ordering is stable: a list that is in order is left as it is, so
    that rows with the same [timeWindowStart] keep the order of the
    store. *)
Lemma orderByTimeWindowStart_ordered (l : list Delivery.t) :
  Sorted timeWindowLe l -> orderByTimeWindowStart l = l.
Proof.
  unfold orderByTimeWindowStart.
  induction l as [| d l IH]; intros Hs; cbn [fold_right]; [reflexivity |].
  inversion Hs as [| ? ? Hs' Hhd]; subst. rewrite (IH Hs').
  destruct l as [| x l]; cbn [insertByTimeWindow]; [reflexivity |].
  inversion Hhd as [| ? ? Hle]; subst. unfold timeWindowLe in Hle.
  apply Z.leb_le in Hle. now rewrite Hle.
Qed.

Lemma skipn_nth_error {A : Type} (l : list A) :
  forall (n : nat) (x : A),
    nth_error l n = Some x -> skipn n l = x :: skipn (S n) l.
Proof.
  induction l as [| y l IH]; intros [| n] x; cbn; try discriminate.
  - now intros [= ->].
  - intros H. now apply IH.
Qed.

Lemma firstn_extend {A : Type} (l taken remaining : list A) (n : nat) :
  (n <= length l)%nat ->
  skipn n l = taken ++ remaining ->
  firstn (n + length taken) l = firstn n l ++ taken
  /\ skipn (n + length taken) l = remaining
  /\ (n + length taken <= length l)%nat.
Proof.
  intros Hn Hskip.
  assert (Hl : l = firstn n l ++ taken ++ remaining)
    by (rewrite <- Hskip; symmetry; apply firstn_skipn).
  assert (Hlen : length (firstn n l) = n) by now apply firstn_length_le.
  split; [| split].
  - rewrite Hl at 1. rewrite firstn_app, Hlen.
    rewrite firstn_all2 by lia.
    replace (n + length taken - n)%nat with (length taken) by lia.
    rewrite firstn_app, firstn_all, Nat.sub_diag. cbn [firstn].
    now rewrite app_nil_r.
  - rewrite Nat.add_comm, <- skipn_skipn, Hskip.
    rewrite skipn_app, skipn_all, Nat.sub_diag. reflexivity.
  - assert (H : length (skipn n l) = length (taken ++ remaining))
      by now rewrite Hskip.
    rewrite length_skipn, length_app in H. lia.
Qed.

(** The loop of a truck, seen from the queue and the shared index. *)
Lemma fillTruck_from_index (add : Q -> Q -> Q) (truck : Truck.t)
    (pending : list Delivery.t) (idx : nat) :
  (idx <= length pending)%nat ->
  skipn idx pending
  = routeDeliveries (fillTruck add truck (skipn idx pending) (startFill idx))
    ++ skipn (deliveryIndex
                (fillTruck add truck (skipn idx pending) (startFill idx)))
         pending
  /\ deliveryIndex (fillTruck add truck (skipn idx pending) (startFill idx))
     = (idx + length (routeDeliveries
                        (fillTruck add truck (skipn idx pending)
                           (startFill idx))))%nat
  /\ firstn (deliveryIndex
               (fillTruck add truck (skipn idx pending) (startFill idx)))
       pending
     = firstn idx pending
       ++ routeDeliveries
            (fillTruck add truck (skipn idx pending) (startFill idx))
  /\ (deliveryIndex (fillTruck add truck (skipn idx pending) (startFill idx))
      <= length pending)%nat
  /\ (forall d : Delivery.t,
         nth_error pending
           (deliveryIndex
              (fillTruck add truck (skipn idx pending) (startFill idx)))
         = Some d ->
         fitsWeight add truck
           (fillTruck add truck (skipn idx pending) (startFill idx)) d
         && fitsVolume add truck
              (fillTruck add truck (skipn idx pending) (startFill idx)) d
         = false).
Proof.
  intros Hidx.
  destruct (fillTruck_spec add truck (skipn idx pending) (startFill idx))
    as (taken & remaining & Hrest & Hstate & _ & Hstop).
  destruct (takeDelivery_fold add taken (startFill idx))
    as (Hroute & Hindex & _ & _).
  rewrite <- Hstate in Hroute, Hindex.
  cbn [startFill routeDeliveries deliveryIndex app] in Hroute, Hindex.
  destruct (firstn_extend pending taken remaining idx Hidx Hrest)
    as (Hfirst & Hskip & Hle).
  rewrite Hroute, Hindex. rewrite Hskip.
  split; [exact Hrest |]. split; [reflexivity |].
  split; [exact Hfirst |]. split; [exact Hle |].
  intros d Hd. apply skipn_nth_error in Hd. rewrite Hskip in Hd.
  rewrite Hd in Hstop. exact Hstop.
Qed.

(** The loop of a truck ends in the state reached by taking, one after
    the other, the deliveries it holds, and each of them fitted the load
    taken before it. *)
Lemma fillTruck_taken_fit (add : Q -> Q -> Q) (truck : Truck.t)
    (rest : list Delivery.t) (st : Fill) :
  routeDeliveries st = [] ->
  fillTruck add truck rest st
  = fold_left (takeDelivery add)
      (routeDeliveries (fillTruck add truck rest st)) st
  /\ (forall (n : nat) (d : Delivery.t),
         nth_error (routeDeliveries (fillTruck add truck rest st)) n
         = Some d ->
         fitsWeight add truck
           (fold_left (takeDelivery add)
              (firstn n (routeDeliveries (fillTruck add truck rest st))) st)
           d
         && fitsVolume add truck
              (fold_left (takeDelivery add)
                 (firstn n (routeDeliveries (fillTruck add truck rest st)))
                 st)
              d
         = true).
Proof.
  intros Hempty.
  destruct (fillTruck_spec add truck rest st)
    as (taken & remaining & _ & Hstate & Hfits & _).
  destruct (takeDelivery_fold add taken st) as (Hroute & _).
  rewrite <- Hstate, Hempty in Hroute. cbn [app] in Hroute.
  rewrite Hroute. split; [exact Hstate | exact Hfits].
Qed.

(** The deliveries of the allocations, in the order of the allocations,
    are the queue up to the shared index. *)
Lemma allocateLoop_prefix (add : Q -> Q -> Q) (pending : list Delivery.t) :
  forall (trucks : list Truck.t) (idx : nat) (allocs : list Allocation.t),
    (idx <= length pending)%nat ->
    concat (map Allocation.deliveries allocs) = firstn idx pending ->
    concat (map Allocation.deliveries
              (fst (allocateLoop add pending trucks idx allocs)))
    = firstn (snd (allocateLoop add pending trucks idx allocs)) pending.
Proof.
  induction trucks as [| truck trucks IH]; intros idx allocs Hidx Hpre;
    cbn [allocateLoop]; [exact Hpre |].
  destruct (length pending <=? idx)%nat; [exact Hpre |]. cbv zeta.
  destruct (fillTruck_from_index add truck pending idx Hidx)
    as (_ & _ & Hfirst & Hle & _).
  apply IH; [exact Hle |]. rewrite Hfirst.
  destruct (routeDeliveries
              (fillTruck add truck (skipn idx pending) (startFill idx)))
    as [| d taken]; cbn [length Nat.ltb Nat.leb].
  - now rewrite app_nil_r.
  - rewrite map_app, concat_app, Hpre. cbn. now rewrite app_nil_r.
Qed.

(** The loop of a truck looks at nothing behind the delivery it stops at:
    run on the deliveries it took alone, it ends in the same state. *)
Lemma fillTruck_replay (add : Q -> Q -> Q)
    (truck : Truck.t) (rest : list Delivery.t) :
  forall st : Fill,
  exists taken : list Delivery.t,
    routeDeliveries (fillTruck add truck rest st) = routeDeliveries st ++ taken
    /\ fillTruck add truck taken st = fillTruck add truck rest st.
Proof.
  induction rest as [| d rest IH]; intros st; cbn [fillTruck].
  - exists []. now rewrite app_nil_r.
  - destruct (fitsWeight add truck st d && fitsVolume add truck st d) eqn:Hfit.
    + destruct (IH (takeDelivery add st d)) as (taken & Hroute & Hsame).
      exists (d :: taken). split.
      * rewrite Hroute. cbn [takeDelivery routeDeliveries].
        now rewrite <- app_assoc.
      * cbn [fillTruck]. now rewrite Hfit.
    + exists []. now rewrite app_nil_r.
Qed.

(** C4.  The queue of [allocateRoutes] holds the PENDING deliveries of the
    company in non-decreasing [timeWindowStart] order, and the trucks
    consume it through one shared index.  A truck that is reached at an
    index inside the queue takes the deliveries from that index on, in
    order, and the index advances by their number.  Each delivery it
    takes fitted, on both dimensions, the load of the deliveries taken
    before it, and the state it ends in is the one reached by taking them
    one after the other.  It stops at the end
    of the queue or in front of the first delivery that does not fit,
    without looking behind it (run on the deliveries it took alone, the
    loop ends in the same state), and the next truck starts at the index
    where it stopped.  The loop ends when the trucks or the deliveries are
    exhausted, and the allocations, one after the other, carry the queue up
    to the final index.  On scenario A (weights 2, 3 and 4, one truck with
    [maxWeight] 5) one route is created, it carries the first two
    deliveries, and the third delivery is still PENDING. *)
Theorem allocateRoutes_single_pass_greedy :
  forall add : Q -> Q -> Q,
    (forall (db : Store.t) (company : Id),
        Sorted timeWindowLe (findPendingDeliveries db company)
        /\ forall d : Delivery.t,
             In d (findPendingDeliveries db company)
             <-> In d (Store.deliveries db)
                 /\ Delivery.courierCompanyId d = company
                 /\ Delivery.status d = "PENDING")
    /\
    (forall (pending : list Delivery.t) (truck : Truck.t)
            (trucks : list Truck.t) (idx : nat)
            (allocs : list Allocation.t),
        (idx < length pending)%nat ->
        let st := fillTruck add truck (skipn idx pending) (startFill idx) in
        skipn idx pending
        = routeDeliveries st ++ skipn (deliveryIndex st) pending
        /\ deliveryIndex st = (idx + length (routeDeliveries st))%nat
        /\ st = fold_left (takeDelivery add) (routeDeliveries st)
                  (startFill idx)
        /\ (forall (n : nat) (d : Delivery.t),
               nth_error (routeDeliveries st) n = Some d ->
               fitsWeight add truck
                 (fold_left (takeDelivery add)
                    (firstn n (routeDeliveries st)) (startFill idx)) d
               && fitsVolume add truck
                    (fold_left (takeDelivery add)
                       (firstn n (routeDeliveries st)) (startFill idx)) d
               = true)
        /\ (forall d : Delivery.t,
               nth_error pending (deliveryIndex st) = Some d ->
               fitsWeight add truck st d && fitsVolume add truck st d
               = false)
        /\ fillTruck add truck (routeDeliveries st) (startFill idx) = st
        /\ allocateLoop add pending (truck :: trucks) idx allocs
           = allocateLoop add pending trucks (deliveryIndex st)
               (match routeDeliveries st with
                | [] => allocs
                | _ :: _ =>
                    allocs ++
                    [Allocation.mk truck (routeDeliveries st)
                       (currentWeight st) (currentVolume st)]
                end))
    /\
    (forall (pending : list Delivery.t) (idx : nat)
            (allocs : list Allocation.t),
        allocateLoop add pending [] idx allocs = (allocs, idx))
    /\
    (forall (pending : list Delivery.t) (trucks : list Truck.t) (idx : nat)
            (allocs : list Allocation.t),
        (length pending <= idx)%nat ->
        allocateLoop add pending trucks idx allocs = (allocs, idx))
    /\
    (forall (pending : list Delivery.t) (trucks : list Truck.t),
        concat (map Allocation.deliveries
                  (greedyAllocation add pending trucks))
        = firstn (snd (allocateLoop add pending trucks 0 [])) pending)
    /\
    (exists route : Route.t,
        fst (allocateRoutes Js.addDouble Scenario.env
               AllocationScenario.scenarioA AllocationScenario.request)
        = {| statusCode := 201;
             body := BAllocated "Allocated 1 routes for 3 packages"
                       [route] |}
        /\ Route.id route = "id-0"
        /\ Route.totalPackages route = 2%nat
        /\ Route.totalWeight route == 5
        /\ map deliveryBinding
             (Store.deliveries
                (snd (allocateRoutes Js.addDouble Scenario.env
                        AllocationScenario.scenarioA
                        AllocationScenario.request)))
           = [ ("d1", "ALLOCATED", Some "id-0");
               ("d2", "ALLOCATED", Some "id-0");
               ("d3", "PENDING", None) ]).
Proof.
  intros add. split.
  { intros db company. split; [apply findPendingDeliveries_Sorted |].
    intros d. apply findPendingDeliveries_In. }
  split; [| split; [| split; [| split]]].
  - intros pending truck trucks idx allocs Hidx st.
    destruct (fillTruck_from_index add truck pending idx
                (Nat.lt_le_incl _ _ Hidx))
      as (Hskip & Hindex & _ & _ & Hstop).
    destruct (fillTruck_taken_fit add truck (skipn idx pending)
                (startFill idx) eq_refl) as (Hstate & Hfits).
    fold st in Hskip, Hindex, Hstop, Hstate, Hfits.
    split; [exact Hskip |]. split; [exact Hindex |].
    split; [exact Hstate |]. split; [exact Hfits |].
    split; [exact Hstop |]. split.
    + destruct (fillTruck_replay add truck (skipn idx pending)
                  (startFill idx)) as (taken & Hroute & Hsame).
      fold st in Hroute, Hsame.
      cbn [startFill routeDeliveries app] in Hroute.
      now rewrite Hroute.
    + cbn [allocateLoop].
      destruct (Nat.leb_spec (length pending) idx) as [Hle | _]; [lia |].
      cbv zeta. fold st.
      destruct (routeDeliveries st); reflexivity.
  - reflexivity.
  - intros pending trucks idx allocs Hle.
    destruct trucks as [| truck trucks]; cbn [allocateLoop];
      [reflexivity |].
    apply Nat.leb_le in Hle. now rewrite Hle.
  - intros pending trucks. unfold greedyAllocation.
    apply allocateLoop_prefix; [lia | reflexivity].
  - eexists. split; [lazy; reflexivity |].
    split; [reflexivity |]. split; [reflexivity |].
    split; [reflexivity |]. lazy. reflexivity.
Qed.

Lemma allocateRoutes_single_pass_greedy_witness :
  fitsWeight Js.addDouble (AllocationScenario.truck (Some 5))
    (fillTruck Js.addDouble (AllocationScenario.truck (Some 5))
       (skipn 0 (findPendingDeliveries AllocationScenario.scenarioA "acme"))
       (startFill 0))
    (AllocationScenario.pending "d3" 4 30%Z)
  && fitsVolume Js.addDouble (AllocationScenario.truck (Some 5))
       (fillTruck Js.addDouble (AllocationScenario.truck (Some 5))
          (skipn 0
             (findPendingDeliveries AllocationScenario.scenarioA "acme"))
          (startFill 0))
       (AllocationScenario.pending "d3" 4 30%Z)
  = false.
Proof.
  refine (proj1 (proj2 (proj2 (proj2 (proj2
            (proj1 (proj2 (allocateRoutes_single_pass_greedy Js.addDouble))
               (findPendingDeliveries AllocationScenario.scenarioA "acme")
               (AllocationScenario.truck (Some 5)) [] 0%nat [] _))))) _ _).
  - cbn. lia.
  - vm_compute. reflexivity.
Defined.

(** ** Proximity detection *)

Lemma ltb_true_iff (a b : Q) : Js.ltb a b = true <-> a < b.
Proof.
  unfold Js.ltb. rewrite negb_true_iff. apply (geb_false_iff a b).
Qed.

Section ProximityProperties.

Variable haversineKm : Q -> Q -> Q -> Q -> option Q.

(** What the scan of the hubs returns, against the rows that pass the
    [WHERE] clause: nothing when no row passes, and else the first of
    them, alone. *)
Lemma firstHubWithin5_spec (lat lng : Q) (hubs : list Hub.t)
    (found : list NearbyHub.t) :
  firstHubWithin5 haversineKm lat lng hubs = Some found ->
  found = firstn 1
            (hubsWithin5 haversineKm
               {| Store.deliveries := []; Store.trucks := [];
                  Store.users := []; Store.routes := [];
                  Store.hubs := hubs; Store.opportunities := [] |}
               lat lng).
Proof.
  unfold hubsWithin5. cbn [Store.hubs].
  induction hubs as [| h hubs IH]; cbn [firstHubWithin5 flat_map].
  - now intros [= <-].
  - destruct (haversineKm lat lng (Hub.latitude h) (Hub.longitude h))
      as [distance |]; [| discriminate].
    destruct (Js.ltb distance 5).
    + now intros [= <-].
    + cbn [app]. exact IH.
Qed.

Lemma nearbyHubsQuery_spec (db : Store.t) (lat lng : Q)
    (found : list NearbyHub.t) :
  nearbyHubsQuery haversineKm db lat lng = Some found ->
  found = firstn 1 (hubsWithin5 haversineKm db lat lng).
Proof.
  unfold nearbyHubsQuery. intros H.
  apply firstHubWithin5_spec in H. exact H.
Qed.

(** With no hub within 5 km of the position every candidate is skipped. *)
Lemma detectLoop_without_hub (env : Env) (db : Store.t) (lat lng : Q)
    (truckA : Truck.t) (routeA : Route.t)
    (nearbyTrucks : list NearbyTruck.t) (m : Match) :
  hubsWithin5 haversineKm db lat lng = [] ->
  detectLoop haversineKm env db lat lng truckA routeA nearbyTrucks
  <> LoopMatch m.
Proof.
  intros Hhubs. induction nearbyTrucks as [| candidate rest IH];
    cbn [detectLoop]; [discriminate |].
  destruct (findTruck db (NearbyTruck.id candidate)) as [truckB |];
    [| exact IH].
  destruct (activeRoutes db truckB) as [| routeB routes]; [exact IH |].
  destruct (nearbyHubsQuery haversineKm db lat lng) as [found |] eqn:Hq;
    [| discriminate].
  apply nearbyHubsQuery_spec in Hq. rewrite Hhubs in Hq. subst found.
  exact IH.
Qed.

(** [detect] returns none when no hub is within 5 km, whatever the
    candidate trucks are, and writes nothing. *)
Lemma detect_without_hub (env : Env) (db : Store.t) (truckId : Id)
    (lat lng : Q) :
  hubsWithin5 haversineKm db lat lng = [] ->
  detectAbsorptionOpportunity haversineKm env db truckId lat lng
  = (None, db, []).
Proof.
  intros Hhubs. unfold detectAbsorptionOpportunity.
  destruct (findTruck db truckId) as [truckA |]; [| reflexivity].
  destruct (activeRoutes db truckA) as [| routeA routes]; [reflexivity |].
  destruct (nearbyTrucksQuery haversineKm db truckId lat lng)
    as [nearbyTrucks |]; [| reflexivity].
  destruct (detectLoop haversineKm env db lat lng truckA routeA nearbyTrucks)
    as [| | m] eqn:Hloop; try reflexivity.
  exfalso. revert Hloop. now apply detectLoop_without_hub.
Qed.

(** The hub of a match is the first row, in store order, of the hubs
    within 5 km. *)
Lemma detectLoop_first_hub (env : Env) (db : Store.t) (lat lng : Q)
    (truckA : Truck.t) (routeA : Route.t)
    (nearbyTrucks : list NearbyTruck.t) (m : Match) :
  detectLoop haversineKm env db lat lng truckA routeA nearbyTrucks
  = LoopMatch m ->
  exists others : list NearbyHub.t,
    hubsWithin5 haversineKm db lat lng = matchHub m :: others
    /\ Opportunity.nearestHubId (matchOpportunity m)
       = NearbyHub.id (matchHub m).
Proof.
  induction nearbyTrucks as [| candidate rest IH]; cbn [detectLoop];
    [discriminate |].
  destruct (findTruck db (NearbyTruck.id candidate)) as [truckB |];
    [| exact IH].
  destruct (activeRoutes db truckB) as [| routeB routes]; [exact IH |].
  destruct (nearbyHubsQuery haversineKm db lat lng) as [found |] eqn:Hq;
    [| discriminate].
  apply nearbyHubsQuery_spec in Hq.
  destruct (hubsWithin5 haversineKm db lat lng) as [| hub others];
    cbn [firstn] in Hq; subst found; [exact IH |].
  destruct (negb (canAbsorb truckA truckB)); [exact IH |].
  intros [= <-]. exists others. split; reflexivity.
Qed.

Lemma detect_first_hub (env : Env) (db : Store.t) (truckId : Id)
    (lat lng : Q) (opportunity : Opportunity.t) :
  fst (fst (detectAbsorptionOpportunity haversineKm env db truckId lat lng))
  = Some opportunity ->
  exists (hub : NearbyHub.t) (others : list NearbyHub.t),
    hubsWithin5 haversineKm db lat lng = hub :: others
    /\ Opportunity.nearestHubId opportunity = NearbyHub.id hub.
Proof.
  unfold detectAbsorptionOpportunity.
  destruct (findTruck db truckId) as [truckA |]; [| discriminate].
  destruct (activeRoutes db truckA) as [| routeA routes]; [discriminate |].
  destruct (nearbyTrucksQuery haversineKm db truckId lat lng)
    as [nearbyTrucks |]; [| discriminate].
  destruct (detectLoop haversineKm env db lat lng truckA routeA nearbyTrucks)
    as [| | m] eqn:Hloop; try discriminate.
  cbn [fst]. intros [= <-].
  destruct (detectLoop_first_hub _ _ _ _ _ _ _ _ Hloop)
    as (others & Hhubs & Hid).
  exists (matchHub m), others. split; assumption.
Qed.

End ProximityProperties.

(** On the equator the expression of the query is the arc length. *)
Lemma haversineKm_equator (lng : R) :
  (0 <= lng <= 180)%R ->
  GreatCircle.haversineKm 0 0 0 lng = (6371 * (lng * PI / 180))%R.
Proof.
  intros Hlng. unfold GreatCircle.haversineKm, GreatCircle.radians.
  replace (0 * PI / 180)%R with 0%R by lra.
  rewrite cos_0, sin_0, Rminus_0_r.
  replace (1 * 1 * cos (lng * PI / 180) + 0 * 0)%R
    with (cos (lng * PI / 180)) by lra.
  rewrite acos_cos; [reflexivity |].
  pose proof PI_RGT_0 as Hpi. split; nra.
Qed.

(** The positions of [ProximityScenario.store] under the expression of
    the query: the hub at the reported position is at distance 0, the hub
    0.01 degree to the east is farther and within 5 km, and so is the truck
    0.02 degree to the east. *)
Lemma haversineKm_of_scenario :
  GreatCircle.haversineKm 0 0 0 0 = 0%R
  /\ (GreatCircle.haversineKm 0 0 0 0
      < GreatCircle.haversineKm 0 0 0 (1 / 100))%R
  /\ (GreatCircle.haversineKm 0 0 0 (1 / 100) < 5)%R
  /\ (GreatCircle.haversineKm 0 0 0 (2 / 100) < 5)%R.
Proof.
  pose proof PI_RGT_0 as Hpos. pose proof PI_4 as H4.
  rewrite !haversineKm_equator by lra.
  repeat split; lra.
Qed.

(** C8.  On [ProximityScenario.store] truck "t2" is a feasible candidate
    for truck "t1" and two hubs are within 5 km of the reported position,
    "h-near" strictly nearer than "h-far".  Whatever the distances are,
    [detect] attaches "h-far", the hub that the store lists first, and not
    the nearest one. *)
Theorem detect_attaches_first_listed_hub :
  forall (haversineKm : Q -> Q -> Q -> Q -> option Q)
         (toTruck toFar toNear : Q),
    haversineKm 0 0 0 (2 # 100) = Some toTruck -> toTruck < 5 ->
    haversineKm 0 0 0 (1 # 100) = Some toFar -> toFar < 5 ->
    haversineKm 0 0 0 0 = Some toNear -> toNear < toFar ->
    map NearbyHub.id (hubsWithin5 haversineKm ProximityScenario.store 0 0)
    = ["h-far"; "h-near"]
    /\ option_map Opportunity.nearestHubId
         (fst (fst (detectAbsorptionOpportunity haversineKm Scenario.env
                      ProximityScenario.store "t1" 0 0)))
       = Some "h-far".
Proof.
  intros haversineKm toTruck toFar toNear HtruckB Htruck5 HhubFar Hfar
    HhubNear Hnear.
  assert (Hnear5 : toNear < 5) by (eapply Qlt_trans; eassumption).
  apply ltb_true_iff in Htruck5. apply ltb_true_iff in Hfar.
  apply ltb_true_iff in Hnear5.
  split.
  - unfold hubsWithin5. cbn -[Js.ltb].
    rewrite HhubFar, HhubNear, Hfar, Hnear5. reflexivity.
  - unfold detectAbsorptionOpportunity, nearbyTrucksQuery,
      trucksQueryRaises, trucksWithin5.
    cbn -[Js.ltb Qmult Qminus].
    rewrite HtruckB. cbn -[Js.ltb Qmult Qminus].
    rewrite Htruck5. cbn -[Js.ltb Qmult Qminus].
    unfold nearbyHubsQuery. cbn -[Js.ltb Qmult Qminus].
    rewrite HhubFar, Hfar. reflexivity.
Qed.

Lemma detect_attaches_first_listed_hub_witness :
  ProximityScenario.flatKm 0 0 0 0 < ProximityScenario.flatKm 0 0 0 (1 # 100)
  /\ option_map Opportunity.nearestHubId
       (fst (fst (detectAbsorptionOpportunity ProximityScenario.totalKm
                    Scenario.env ProximityScenario.store "t1" 0 0)))
     = Some "h-far".
Proof.
  split; [reflexivity |].
  apply (detect_attaches_first_listed_hub ProximityScenario.totalKm
           (ProximityScenario.flatKm 0 0 0 (2 # 100))
           (ProximityScenario.flatKm 0 0 0 (1 # 100))
           (ProximityScenario.flatKm 0 0 0 0));
    reflexivity.
Defined.

(** With the same trucks and no hub, [detect] returns none. *)
Lemma detect_without_hub_example :
  detectAbsorptionOpportunity ProximityScenario.totalKm Scenario.env
    ProximityScenario.storeWithoutHub "t1" 0 0
  = (None, ProximityScenario.storeWithoutHub, []).
Proof. now apply detect_without_hub. Qed.

(* ================================================================== *)
(** * Further properties of the code *)

(** ** Cargo compatibility, continued *)

Lemma upperAscii_idempotent (c : ascii) :
  Js.upperAscii (Js.upperAscii c) = Js.upperAscii c.
Proof. destruct c as [[] [] [] [] [] [] [] []]; reflexivity. Qed.

Lemma toUpperCase_idempotent (s : string) :
  Js.toUpperCase (Js.toUpperCase s) = Js.toUpperCase s.
Proof.
  induction s as [| c s IH]; cbn [Js.toUpperCase]; [reflexivity |].
  now rewrite upperAscii_idempotent, IH.
Qed.

Lemma toUpperCase_empty (s : string) :
  Js.toUpperCase s = "" -> s = "".
Proof. destruct s; [reflexivity | discriminate]. Qed.

(** No entry of the table lists its own key. *)
Lemma table_lists_no_key_in_its_entry (k : string) (l : list string) :
  getProperty CARGO_COMPATIBILITY k = Some l -> Js.includes l k = false.
Proof.
  intros Hk. apply getProperty_In in Hk.
  unfold CARGO_COMPATIBILITY in Hk. cbn [In] in Hk.
  repeat (destruct Hk as [Hk | Hk]); try contradiction;
    injection Hk as <- <-; reflexivity.
Qed.

(** X2.  Two different spellings of one cargo type are never reported
    compatible: when [type1] and [type2] are not the same string and have
    the same upper-case form, the answer is [false] or [undefined]. *)
Theorem areCompatible_rejects_other_spelling :
  forall t1 t2 : string,
    t1 <> t2 ->
    Js.toUpperCase t1 = Js.toUpperCase t2 ->
    truthyResult (areCompatible (Some t1) (Some t2)) = false.
Proof.
  intros t1 t2 Hne Hup. unfold areCompatible.
  destruct t1 as [| c1 s1].
  { symmetry in Hup. apply toUpperCase_empty in Hup. congruence. }
  destruct t2 as [| c2 s2]; [discriminate Hup |].
  cbn [Js.truthyStr negb orb].
  destruct (String.eqb_spec (String c1 s1) (String c2 s2)) as [Heq | _];
    [contradiction |].
  rewrite <- Hup.
  destruct (getProperty CARGO_COMPATIBILITY (Js.toUpperCase (String c1 s1)))
    as [l |] eqn:Hk; [| reflexivity].
  cbn [truthyResult]. now apply table_lists_no_key_in_its_entry.
Qed.

Lemma areCompatible_rejects_other_spelling_witness :
  truthyResult (areCompatible (Some "Pharma") (Some "PHARMA")) = false.
Proof.
  apply areCompatible_rejects_other_spelling; [discriminate | reflexivity].
Defined.

(** X3.  For two types of different upper-case forms the answer does not
    depend on the letter case: it is the answer for the upper-case forms. *)
Theorem areCompatible_case_insensitive_on_distinct_types :
  forall t1 t2 : string,
    Js.toUpperCase t1 <> Js.toUpperCase t2 ->
    areCompatible (Some t1) (Some t2)
    = areCompatible (Some (Js.toUpperCase t1)) (Some (Js.toUpperCase t2)).
Proof.
  intros t1 t2 Hne.
  destruct t1 as [| c1 s1]; [reflexivity |].
  destruct t2 as [| c2 s2]; [reflexivity |].
  unfold areCompatible. rewrite !toUpperCase_idempotent.
  cbn [Js.toUpperCase Js.truthyStr negb orb].
  destruct (String.eqb_spec (String c1 s1) (String c2 s2)) as [Heq | _].
  { exfalso. apply Hne. now rewrite Heq. }
  cbn [Js.toUpperCase] in Hne.
  destruct (String.eqb_spec
              (String (Js.upperAscii c1) (Js.toUpperCase s1))
              (String (Js.upperAscii c2) (Js.toUpperCase s2)))
    as [Heq | _]; [contradiction | reflexivity].
Qed.

Lemma areCompatible_case_insensitive_on_distinct_types_witness :
  areCompatible (Some "food") (Some "Pharma")
  = areCompatible (Some "FOOD") (Some "PHARMA").
Proof.
  apply (areCompatible_case_insensitive_on_distinct_types "food" "Pharma").
  discriminate.
Defined.

(** X4.  Segregation: in any letter case, CHEMICALS and INDUSTRIAL cargo
    is compatible with none of FOOD, PHARMA, ELECTRONICS, FRAGILE and
    CLOTHING, in either direction of the lookup. *)
Theorem areCompatible_segregates_hazardous_cargo :
  forall t1 t2 : string,
    In (Js.toUpperCase t1) ["CHEMICALS"; "INDUSTRIAL"] ->
    In (Js.toUpperCase t2)
       ["FOOD"; "PHARMA"; "ELECTRONICS"; "FRAGILE"; "CLOTHING"] ->
    truthyResult (areCompatible (Some t1) (Some t2)) = false
    /\ truthyResult (areCompatible (Some t2) (Some t1)) = false.
Proof.
  intros t1 t2 H1 H2.
  assert (H12 : truthyResult (areCompatible (Some t1) (Some t2)) = false).
  { unfold areCompatible.
    destruct t1 as [| c1 s1]; [cbn in H1; intuition discriminate |].
    destruct t2 as [| c2 s2]; [cbn in H2; intuition discriminate |].
    cbn [Js.truthyStr negb orb].
    destruct (String.eqb_spec (String c1 s1) (String c2 s2)) as [Heq | _].
    { exfalso. rewrite <- Heq in H2. cbn [In] in H1, H2.
      repeat (destruct H1 as [H1 | H1]); try contradiction;
        rewrite <- H1 in H2;
        repeat (destruct H2 as [H2 | H2]); try contradiction;
        discriminate H2. }
    cbn [In] in H1, H2.
    repeat (destruct H1 as [H1 | H1]); try contradiction; rewrite <- H1;
      repeat (destruct H2 as [H2 | H2]); try contradiction; rewrite <- H2;
      reflexivity. }
  split; [exact H12 |].
  destruct (truthyResult (areCompatible (Some t2) (Some t1))) eqn:H21;
    [| reflexivity].
  apply areCompatible_truthy_transfer in H21. congruence.
Qed.

Lemma areCompatible_segregates_hazardous_cargo_witness :
  truthyResult (areCompatible (Some "chemicals") (Some "Food")) = false
  /\ truthyResult (areCompatible (Some "Food") (Some "chemicals")) = false.
Proof.
  apply areCompatible_segregates_hazardous_cargo; cbn; tauto.
Defined.

(** ** Acceptance handler, continued *)

Lemma find_opportunity_other (f : Opportunity.t -> Opportunity.t)
    (i other : Id) (l : list Opportunity.t) :
  (forall x, Opportunity.id (f x) = Opportunity.id x) ->
  other <> i ->
  find (fun x => String.eqb (Opportunity.id x) other)
       (map (fun x => if String.eqb (Opportunity.id x) i then f x else x) l)
  = find (fun x => String.eqb (Opportunity.id x) other) l.
Proof.
  intros Hid Hne. induction l as [| x l IH]; cbn [find map]; [reflexivity |].
  destruct (String.eqb_spec (Opportunity.id x) i) as [Hx | Hx].
  - rewrite Hid.
    destruct (String.eqb_spec (Opportunity.id x) other) as [Ho | _];
      [congruence | exact IH].
  - now rewrite IH.
Qed.

Lemma UpdateData_apply_routes (u : UpdateData.t) (o : Opportunity.t) :
  Opportunity.route1Id (UpdateData.apply u o) = Opportunity.route1Id o
  /\ Opportunity.route2Id (UpdateData.apply u o) = Opportunity.route2Id o.
Proof. destruct u as [s [a |] [b |]]; split; reflexivity. Qed.

(** The row that an acceptance by route1 leaves. *)
Lemma acceptSynergy_by_route1 (env : Env) (db : Store.t)
    (opportunityId : Id) (opportunity : Opportunity.t) :
  findOpportunity db opportunityId = Some opportunity ->
  exists updated : Opportunity.t,
    findOpportunity
      (snd (acceptSynergy env db opportunityId
              (Opportunity.route1Id opportunity))) opportunityId
    = Some updated
    /\ Opportunity.route1Id updated = Opportunity.route1Id opportunity
    /\ Opportunity.route2Id updated = Opportunity.route2Id opportunity
    /\ Opportunity.status updated
       = (if String.eqb (Opportunity.status opportunity) "ACCEPTED_BY_ROUTE2"
          then "BOTH_ACCEPTED" else "ACCEPTED_BY_ROUTE1")
    /\ Opportunity.acceptedByRoute1At updated = Some (now env)
    /\ Opportunity.acceptedByRoute2At updated
       = Opportunity.acceptedByRoute2At opportunity.
Proof.
  intros Hfind.
  pose proof (acceptUpdate_route1 env opportunity _ eq_refl) as Hu.
  destruct (acceptSynergy_updates env db opportunityId _ opportunity _
              Hfind Hu) as [_ Hrow].
  eexists. split; [exact Hrow |]. repeat split.
Qed.

(** The row that an acceptance by route2 leaves. *)
Lemma acceptSynergy_by_route2 (env : Env) (db : Store.t)
    (opportunityId : Id) (opportunity : Opportunity.t) :
  findOpportunity db opportunityId = Some opportunity ->
  Opportunity.route1Id opportunity <> Opportunity.route2Id opportunity ->
  exists updated : Opportunity.t,
    findOpportunity
      (snd (acceptSynergy env db opportunityId
              (Opportunity.route2Id opportunity))) opportunityId
    = Some updated
    /\ Opportunity.route1Id updated = Opportunity.route1Id opportunity
    /\ Opportunity.route2Id updated = Opportunity.route2Id opportunity
    /\ Opportunity.status updated
       = (if String.eqb (Opportunity.status opportunity) "ACCEPTED_BY_ROUTE1"
          then "BOTH_ACCEPTED" else "ACCEPTED_BY_ROUTE2")
    /\ Opportunity.acceptedByRoute2At updated = Some (now env)
    /\ Opportunity.acceptedByRoute1At updated
       = Opportunity.acceptedByRoute1At opportunity.
Proof.
  intros Hfind Hne.
  pose proof (acceptUpdate_route2 env opportunity _ Hne eq_refl) as Hu.
  destruct (acceptSynergy_updates env db opportunityId _ opportunity _
              Hfind Hu) as [_ Hrow].
  eexists. split; [exact Hrow |]. repeat split.
Qed.

(** X5.  When the two routes of an opportunity accept one after the
    other, route1 first on an opportunity that route2 has not accepted, or
    route2 first on one that route1 has not accepted, the opportunity ends
    BOTH_ACCEPTED and carries the time of each acceptance. *)
Theorem acceptSynergy_both_sides :
  forall (env1 env2 : Env) (db : Store.t) (opportunityId : Id)
         (opportunity : Opportunity.t),
    findOpportunity db opportunityId = Some opportunity ->
    Opportunity.route1Id opportunity <> Opportunity.route2Id opportunity ->
    (Opportunity.status opportunity <> "ACCEPTED_BY_ROUTE2" ->
     exists final : Opportunity.t,
       findOpportunity
         (snd (acceptSynergy env2
                 (snd (acceptSynergy env1 db opportunityId
                         (Opportunity.route1Id opportunity)))
                 opportunityId (Opportunity.route2Id opportunity)))
         opportunityId = Some final
       /\ Opportunity.status final = "BOTH_ACCEPTED"
       /\ Opportunity.acceptedByRoute1At final = Some (now env1)
       /\ Opportunity.acceptedByRoute2At final = Some (now env2))
    /\
    (Opportunity.status opportunity <> "ACCEPTED_BY_ROUTE1" ->
     exists final : Opportunity.t,
       findOpportunity
         (snd (acceptSynergy env2
                 (snd (acceptSynergy env1 db opportunityId
                         (Opportunity.route2Id opportunity)))
                 opportunityId (Opportunity.route1Id opportunity)))
         opportunityId = Some final
       /\ Opportunity.status final = "BOTH_ACCEPTED"
       /\ Opportunity.acceptedByRoute2At final = Some (now env1)
       /\ Opportunity.acceptedByRoute1At final = Some (now env2)).
Proof.
  intros env1 env2 db opportunityId opportunity Hfind Hne. split.
  - intros Hs.
    destruct (acceptSynergy_by_route1 env1 db opportunityId opportunity Hfind)
      as (row & Hrow & Hr1 & Hr2 & Hstatus & Hat1 & _).
    assert (Hne' : Opportunity.route1Id row <> Opportunity.route2Id row)
      by now rewrite Hr1, Hr2.
    destruct (acceptSynergy_by_route2 env2 _ opportunityId row Hrow Hne')
      as (final & Hfinal & _ & _ & Hstatus' & Hat2 & Hkeep).
    rewrite Hr2 in Hfinal. exists final. split; [exact Hfinal |].
    split; [| split; [congruence | exact Hat2]].
    rewrite Hstatus', Hstatus.
    destruct (String.eqb_spec (Opportunity.status opportunity)
                "ACCEPTED_BY_ROUTE2"); [contradiction | reflexivity].
  - intros Hs.
    destruct (acceptSynergy_by_route2 env1 db opportunityId opportunity Hfind
                Hne)
      as (row & Hrow & Hr1 & Hr2 & Hstatus & Hat2 & _).
    destruct (acceptSynergy_by_route1 env2 _ opportunityId row Hrow)
      as (final & Hfinal & _ & _ & Hstatus' & Hat1 & Hkeep).
    rewrite Hr1 in Hfinal. exists final. split; [exact Hfinal |].
    split; [| split; [congruence | exact Hat1]].
    rewrite Hstatus', Hstatus.
    destruct (String.eqb_spec (Opportunity.status opportunity)
                "ACCEPTED_BY_ROUTE1"); [contradiction | reflexivity].
Qed.

Lemma acceptSynergy_both_sides_witness :
  exists final : Opportunity.t,
    findOpportunity
      (snd (acceptSynergy Scenario.env
              (snd (acceptSynergy Scenario.env (Scenario.ledger "PENDING")
                      "o1" "r2")) "o1" "r1")) "o1"
    = Some final
    /\ Opportunity.status final = "BOTH_ACCEPTED".
Proof.
  destruct (proj2 (acceptSynergy_both_sides Scenario.env Scenario.env
                     (Scenario.ledger "PENDING") "o1"
                     (Scenario.opportunity "PENDING") eq_refl
                     ltac:(discriminate)) ltac:(discriminate))
    as (final & Hfinal & Hstatus & _).
  exists final. split; [exact Hfinal | exact Hstatus].
Defined.

(** X6.  Two acceptances in a row by the same route end in the one-sided
    status of that route, whatever the status was: after the route has
    promoted the opportunity to BOTH_ACCEPTED, its next acceptance sets it
    back. *)
Theorem acceptSynergy_twice_by_one_side :
  forall (env1 env2 : Env) (db : Store.t) (opportunityId : Id)
         (opportunity : Opportunity.t),
    findOpportunity db opportunityId = Some opportunity ->
    option_map Opportunity.status
      (findOpportunity
         (snd (acceptSynergy env2
                 (snd (acceptSynergy env1 db opportunityId
                         (Opportunity.route1Id opportunity)))
                 opportunityId (Opportunity.route1Id opportunity)))
         opportunityId)
    = Some "ACCEPTED_BY_ROUTE1"
    /\
    (Opportunity.route1Id opportunity <> Opportunity.route2Id opportunity ->
     option_map Opportunity.status
       (findOpportunity
          (snd (acceptSynergy env2
                  (snd (acceptSynergy env1 db opportunityId
                          (Opportunity.route2Id opportunity)))
                  opportunityId (Opportunity.route2Id opportunity)))
          opportunityId)
     = Some "ACCEPTED_BY_ROUTE2").
Proof.
  intros env1 env2 db opportunityId opportunity Hfind. split.
  - destruct (acceptSynergy_by_route1 env1 db opportunityId opportunity Hfind)
      as (row & Hrow & Hr1 & _ & Hstatus & _).
    destruct (acceptSynergy_by_route1 env2 _ opportunityId row Hrow)
      as (final & Hfinal & _ & _ & Hstatus' & _).
    rewrite Hr1 in Hfinal. rewrite Hfinal. cbn [option_map].
    rewrite Hstatus', Hstatus.
    destruct (String.eqb (Opportunity.status opportunity)
                "ACCEPTED_BY_ROUTE2"); reflexivity.
  - intros Hne.
    destruct (acceptSynergy_by_route2 env1 db opportunityId opportunity Hfind
                Hne)
      as (row & Hrow & Hr1 & Hr2 & Hstatus & _).
    assert (Hne' : Opportunity.route1Id row <> Opportunity.route2Id row)
      by now rewrite Hr1, Hr2.
    destruct (acceptSynergy_by_route2 env2 _ opportunityId row Hrow Hne')
      as (final & Hfinal & _ & _ & Hstatus' & _).
    rewrite Hr2 in Hfinal. rewrite Hfinal. cbn [option_map].
    rewrite Hstatus', Hstatus.
    destruct (String.eqb (Opportunity.status opportunity)
                "ACCEPTED_BY_ROUTE1"); reflexivity.
Qed.

Lemma acceptSynergy_twice_by_one_side_witness :
  option_map Opportunity.status
    (findOpportunity
       (snd (acceptSynergy Scenario.env
               (snd (acceptSynergy Scenario.env
                       (Scenario.ledger "ACCEPTED_BY_ROUTE2") "o1" "r1"))
               "o1" "r1")) "o1")
  = Some "ACCEPTED_BY_ROUTE1".
Proof.
  exact (proj1 (acceptSynergy_twice_by_one_side Scenario.env Scenario.env
                  (Scenario.ledger "ACCEPTED_BY_ROUTE2") "o1"
                  (Scenario.opportunity "ACCEPTED_BY_ROUTE2") eq_refl)).
Defined.

(** X7.  An acceptance writes one row: the deliveries, trucks, users,
    routes and hubs are left as they were, the opportunities are as many
    as before, and an opportunity with another identifier is read back
    unchanged. *)
Theorem acceptSynergy_frame :
  forall (env : Env) (db : Store.t) (opportunityId routeId other : Id),
    Store.deliveries (snd (acceptSynergy env db opportunityId routeId))
    = Store.deliveries db
    /\ Store.trucks (snd (acceptSynergy env db opportunityId routeId))
       = Store.trucks db
    /\ Store.users (snd (acceptSynergy env db opportunityId routeId))
       = Store.users db
    /\ Store.routes (snd (acceptSynergy env db opportunityId routeId))
       = Store.routes db
    /\ Store.hubs (snd (acceptSynergy env db opportunityId routeId))
       = Store.hubs db
    /\ length (Store.opportunities
                 (snd (acceptSynergy env db opportunityId routeId)))
       = length (Store.opportunities db)
    /\ (other <> opportunityId ->
        findOpportunity (snd (acceptSynergy env db opportunityId routeId))
          other
        = findOpportunity db other).
Proof.
  intros env db opportunityId routeId other. unfold acceptSynergy.
  destruct (findOpportunity db opportunityId) as [opportunity |];
    [| cbn [snd]; repeat split].
  destruct (acceptUpdate env opportunity routeId) as [u |];
    [| cbn [snd]; repeat split].
  cbn [snd Store.deliveries Store.trucks Store.users Store.routes Store.hubs
         Store.opportunities].
  repeat split.
  - apply length_map.
  - intros Hne. unfold findOpportunity. cbn [Store.opportunities].
    apply find_opportunity_other; [| exact Hne].
    intros x. apply UpdateData_apply_id.
Qed.

Lemma acceptSynergy_frame_witness :
  findOpportunity
    (snd (acceptSynergy Scenario.env (Scenario.ledger "PENDING") "o2" "r1"))
    "o1"
  = findOpportunity (Scenario.ledger "PENDING") "o1".
Proof.
  apply (acceptSynergy_frame Scenario.env (Scenario.ledger "PENDING")
           "o2" "r1" "o1").
  discriminate.
Defined.

(** ** Handshake, continued *)

Lemma transferDelivery_onRoute (routeId truckId driverId : Id)
    (d : Delivery.t) :
  onRoute routeId (transferDelivery truckId driverId d) = onRoute routeId d.
Proof. reflexivity. Qed.

Lemma transfer_map_idempotent (routeId truckId driverId : Id)
    (l : list Delivery.t) :
  map (fun d => if onRoute routeId d
                then transferDelivery truckId driverId d else d)
      (map (fun d => if onRoute routeId d
                     then transferDelivery truckId driverId d else d) l)
  = map (fun d => if onRoute routeId d
                  then transferDelivery truckId driverId d else d) l.
Proof.
  rewrite map_map. apply map_ext. intros d.
  destruct (onRoute routeId d) eqn:Hon; [| now rewrite Hon].
  now rewrite transferDelivery_onRoute, Hon.
Qed.

Lemma complete_map_idempotent (i : Id) (l : list Opportunity.t) :
  map (fun o => if String.eqb (Opportunity.id o) i
                then Opportunity.setStatus "COMPLETED" o else o)
      (map (fun o => if String.eqb (Opportunity.id o) i
                     then Opportunity.setStatus "COMPLETED" o else o) l)
  = map (fun o => if String.eqb (Opportunity.id o) i
                  then Opportunity.setStatus "COMPLETED" o else o) l.
Proof.
  rewrite map_map. apply map_ext. intros o.
  destruct (String.eqb (Opportunity.id o) i) eqn:Ho; [| now rewrite Ho].
  cbn [Opportunity.setStatus Opportunity.id]. now rewrite Ho.
Qed.

(** X8.  The failures of the handshake write nothing and emit nothing: an
    unknown opportunity is answered 404, and an opportunity one of whose
    routes, trucks or truck owners the store does not hold is answered
    500. *)
Theorem handleHandshake_failures :
  forall (db : Store.t) (opportunityId : Id),
    (findOpportunity db opportunityId = None ->
     handleHandshake db opportunityId
     = ({| statusCode := 404; body := BFailure "Opportunity not found" |},
        db, []))
    /\
    (forall opportunity : Opportunity.t,
        findOpportunity db opportunityId = Some opportunity ->
        routeTruckOwner db (Opportunity.route1Id opportunity) = None
        \/ routeTruckOwner db (Opportunity.route2Id opportunity) = None ->
        handleHandshake db opportunityId
        = ({| statusCode := 500;
              body := BInternal "Internal server error" |}, db, [])).
Proof.
  intros db opportunityId. unfold handleHandshake. split.
  - intros ->. reflexivity.
  - intros opportunity -> [H | H]; rewrite H.
    + reflexivity.
    + destruct (routeTruckOwner db (Opportunity.route1Id opportunity))
        as [[truck1 driver1] |]; reflexivity.
Qed.

Lemma handleHandshake_failures_witness :
  handleHandshake (HandshakeScenario.store 50 0 20 0) "o9"
  = ({| statusCode := 404; body := BFailure "Opportunity not found" |},
     HandshakeScenario.store 50 0 20 0, [])
  /\ handleHandshake (Scenario.ledger "BOTH_ACCEPTED") "o1"
     = ({| statusCode := 500; body := BInternal "Internal server error" |},
        Scenario.ledger "BOTH_ACCEPTED", []).
Proof.
  split.
  - apply (proj1 (handleHandshake_failures
                    (HandshakeScenario.store 50 0 20 0) "o9")).
    reflexivity.
  - apply (proj2 (handleHandshake_failures
                    (Scenario.ledger "BOTH_ACCEPTED") "o1")
             (Scenario.opportunity "BOTH_ACCEPTED"));
      [reflexivity | left; reflexivity].
Defined.



(** X10.  The handshake is idempotent on the store: a second handshake on
    the same opportunity leaves the store as the first one left it. *)
Theorem handleHandshake_idempotent :
  forall (db : Store.t) (opportunityId : Id) (opportunity : Opportunity.t)
         (truck1 truck2 : Truck.t) (driver1 driver2 : User.t),
    findOpportunity db opportunityId = Some opportunity ->
    routeTruckOwner db (Opportunity.route1Id opportunity)
    = Some (truck1, driver1) ->
    routeTruckOwner db (Opportunity.route2Id opportunity)
    = Some (truck2, driver2) ->
    snd (fst (handleHandshake
                (snd (fst (handleHandshake db opportunityId)))
                opportunityId))
    = snd (fst (handleHandshake db opportunityId)).
Proof.
  intros db opportunityId opportunity truck1 truck2 driver1 driver2
    Hfind H1 H2.
  pose proof (handleHandshake_completes _ _ _ _ _ _ _ Hfind H1 H2) as Hdone.
  rewrite (handleHandshake_store _ _ _ _ _ _ _ Hfind H1 H2) in *.
  set (relay := relayRule driver1 driver2 (Truck.id truck1)
                  (Truck.id truck2)) in *.
  set (db1 := handshakeTransaction db opportunityId
                (Opportunity.route2Id opportunity) relay) in *.
  assert (H1' : routeTruckOwner db1
                  (Opportunity.route1Id
                     (Opportunity.setStatus "COMPLETED" opportunity))
                = Some (truck1, driver1)) by exact H1.
  assert (H2' : routeTruckOwner db1
                  (Opportunity.route2Id
                     (Opportunity.setStatus "COMPLETED" opportunity))
                = Some (truck2, driver2)) by exact H2.
  rewrite (handleHandshake_store _ _ _ _ _ _ _ Hdone H1' H2').
  fold relay. cbn [Opportunity.setStatus Opportunity.route2Id].
  unfold db1, handshakeTransaction.
  cbn [Store.deliveries Store.trucks Store.users Store.routes Store.hubs
         Store.opportunities].
  now rewrite transfer_map_idempotent, complete_map_idempotent.
Qed.

Lemma handleHandshake_idempotent_witness :
  snd (fst (handleHandshake (HandshakeScenario.after 50 0 20 0) "o1"))
  = HandshakeScenario.after 50 0 20 0.
Proof.
  exact (handleHandshake_idempotent (HandshakeScenario.store 50 0 20 0)
           "o1" (Scenario.opportunity "PENDING")
           (HandshakeScenario.truck "t1" "u1")
           (HandshakeScenario.truck "t2" "u2")
           (HandshakeScenario.driver "u1" "Asha" 50 0)
           (HandshakeScenario.driver "u2" "Bala" 20 0)
           eq_refl eq_refl eq_refl).
Defined.

(** ** Proximity detection, continued *)

Lemma findTruck_In (db : Store.t) (i : Id) (t : Truck.t) :
  findTruck db i = Some t -> In t (Store.trucks db) /\ Truck.id t = i.
Proof.
  unfold findTruck. intros H. apply find_some in H.
  destruct H as [Hin Heq]. split; [exact Hin |]. now apply String.eqb_eq.
Qed.

(** The first row that a filter keeps, and the rows in front of it. *)
Lemma filter_head {A : Type} (f : A -> bool) (l : list A) (x : A)
    (xs : list A) :
  filter f l = x :: xs ->
  exists before after : list A,
    l = before ++ x :: after
    /\ f x = true
    /\ (forall y, In y before -> f y = false).
Proof.
  induction l as [| y l IH]; cbn [filter]; [discriminate |].
  destruct (f y) eqn:Hy.
  - intros [= -> <-]. exists [], l. repeat split; [exact Hy |].
    intros z [].
  - intros H. destruct (IH H) as (before & after & -> & Hx & Hbefore).
    exists (y :: before), after. repeat split; [exact Hx |].
    intros z [<- | Hz]; [exact Hy | now apply Hbefore].
Qed.

(** The first ACTIVE route of a truck: a route of the store, of that
    truck, whose status is ACTIVE, with no such route listed before it. *)
Lemma activeRoutes_head (db : Store.t) (truck : Truck.t) (route : Route.t)
    (routes : list Route.t) :
  activeRoutes db truck = route :: routes ->
  exists before after : list Route.t,
    Store.routes db = before ++ route :: after
    /\ Route.truckId route = Truck.id truck
    /\ Route.status route = "ACTIVE"
    /\ (forall r : Route.t,
           In r before ->
           Route.truckId r = Truck.id truck -> Route.status r <> "ACTIVE").
Proof.
  unfold activeRoutes. intros H. apply filter_head in H.
  destruct H as (before & after & Hsplit & Hroute & Hbefore).
  apply andb_true_iff in Hroute. destruct Hroute as [Htruck Hstatus].
  apply String.eqb_eq in Htruck. apply String.eqb_eq in Hstatus.
  exists before, after. repeat split; try assumption.
  intros r Hr Hid Hactive. specialize (Hbefore r Hr).
  rewrite Hid, Hactive, !String.eqb_refl in Hbefore. discriminate.
Qed.




(** The rows of the query over the trucks: other trucks, with a position,
    strictly under 5 km. *)
Lemma trucksWithin5_In (haversineKm : Q -> Q -> Q -> Q -> option Q)
    (db : Store.t) (truckId : Id) (lat lng : Q) (c : NearbyTruck.t) :
  In c (trucksWithin5 haversineKm db truckId lat lng) ->
  exists (t : Truck.t) (rowLat rowLng distance : Q),
    In t (Store.trucks db)
    /\ Truck.currentLat t = Some rowLat
    /\ Truck.currentLng t = Some rowLng
    /\ Truck.id t <> truckId
    /\ haversineKm lat lng rowLat rowLng = Some distance
    /\ c = NearbyTruck.mk (Truck.id t) rowLat rowLng distance
    /\ distance < 5.
Proof.
  unfold trucksWithin5. rewrite in_flat_map.
  intros (t & Hin & Hc).
  destruct (String.eqb_spec (Truck.id t) truckId) as [Heq | Hne];
    [contradiction |].
  destruct (Truck.currentLat t) as [rowLat |] eqn:Hlat; [| contradiction].
  destruct (Truck.currentLng t) as [rowLng |] eqn:Hlng; [| contradiction].
  destruct (haversineKm lat lng rowLat rowLng) as [distance |] eqn:Hkm;
    [| contradiction].
  destruct (Js.ltb distance 5) eqn:Hlt; [| contradiction].
  destruct Hc as [<- | []].
  exists t, rowLat, rowLng, distance. apply ltb_true_iff in Hlt.
  repeat split; assumption.
Qed.

(** The query over the trucks fails exactly when the expression raises on
    another truck that has a position. *)
Lemma trucksQueryRaises_true_iff
    (haversineKm : Q -> Q -> Q -> Q -> option Q) (db : Store.t)
    (truckId : Id) (lat lng : Q) :
  trucksQueryRaises haversineKm db truckId lat lng = true
  <-> exists (t : Truck.t) (rowLat rowLng : Q),
        In t (Store.trucks db)
        /\ Truck.id t <> truckId
        /\ Truck.currentLat t = Some rowLat
        /\ Truck.currentLng t = Some rowLng
        /\ haversineKm lat lng rowLat rowLng = None.
Proof.
  unfold trucksQueryRaises. rewrite existsb_exists. split.
  - intros (t & Hin & Ht).
    destruct (String.eqb_spec (Truck.id t) truckId) as [Heq | Hne];
      [discriminate |].
    destruct (Truck.currentLat t) as [rowLat |] eqn:Hlat; [| discriminate].
    destruct (Truck.currentLng t) as [rowLng |] eqn:Hlng; [| discriminate].
    destruct (haversineKm lat lng rowLat rowLng) eqn:Hkm; [discriminate |].
    exists t, rowLat, rowLng. repeat split; assumption.
  - intros (t & rowLat & rowLng & Hin & Hne & Hlat & Hlng & Hkm).
    exists t. split; [exact Hin |].
    destruct (String.eqb_spec (Truck.id t) truckId) as [Heq | _];
      [contradiction |].
    now rewrite Hlat, Hlng, Hkm.
Qed.

(** What a match of the loop over the candidates is made of. *)
Lemma detectLoop_Match (haversineKm : Q -> Q -> Q -> Q -> option Q)
    (env : Env) (db : Store.t) (lat lng : Q) (truckA : Truck.t)
    (routeA : Route.t) (nearbyTrucks : list NearbyTruck.t) (m : Match) :
  detectLoop haversineKm env db lat lng truckA routeA nearbyTrucks
  = LoopMatch m ->
  exists (candidate : NearbyTruck.t) (truckB : Truck.t) (routeB : Route.t)
         (routes : list Route.t) (hub : NearbyHub.t)
         (others : list NearbyHub.t),
    In candidate nearbyTrucks
    /\ findTruck db (NearbyTruck.id candidate) = Some truckB
    /\ activeRoutes db truckB = routeB :: routes
    /\ hubsWithin5 haversineKm db lat lng = hub :: others
    /\ canAbsorb truckA truckB = true
    /\ m = {| matchOpportunity :=
                newOpportunity env db lat lng truckA truckB routeA routeB
                  candidate hub;
              matchTruckB := truckB;
              matchHub := hub |}.
Proof.
  induction nearbyTrucks as [| candidate rest IH]; cbn [detectLoop];
    [discriminate |].
  assert (Hrest :
            detectLoop haversineKm env db lat lng truckA routeA rest
            = LoopMatch m ->
            exists (candidate0 : NearbyTruck.t) (truckB : Truck.t)
                   (routeB : Route.t) (routes : list Route.t)
                   (hub : NearbyHub.t) (others : list NearbyHub.t),
              In candidate0 (candidate :: rest)
              /\ findTruck db (NearbyTruck.id candidate0) = Some truckB
              /\ activeRoutes db truckB = routeB :: routes
              /\ hubsWithin5 haversineKm db lat lng = hub :: others
              /\ canAbsorb truckA truckB = true
              /\ m = {| matchOpportunity :=
                          newOpportunity env db lat lng truckA truckB routeA
                            routeB candidate0 hub;
                        matchTruckB := truckB;
                        matchHub := hub |}).
  { intros H. destruct (IH H) as (c & tB & rB & rs & h & os & Hin & Hr).
    exists c, tB, rB, rs, h, os. split; [now right | exact Hr]. }
  destruct (findTruck db (NearbyTruck.id candidate)) as [truckB |] eqn:HB;
    [| exact Hrest].
  destruct (activeRoutes db truckB) as [| routeB routes] eqn:Hroutes;
    [exact Hrest |].
  destruct (nearbyHubsQuery haversineKm db lat lng) as [found |] eqn:Hq;
    [| discriminate].
  apply nearbyHubsQuery_spec in Hq.
  destruct (hubsWithin5 haversineKm db lat lng) as [| hub others] eqn:Hhubs;
    cbn [firstn] in Hq; subst found; [exact Hrest |].
  destruct (canAbsorb truckA truckB) eqn:Habs; cbn [negb]; [| exact Hrest].
  intros [= <-].
  exists candidate, truckB, routeB, routes, hub, others.
  split; [now left |]. repeat split; assumption.
Qed.

(** X11.  [detect] finds nothing, writes nothing and emits nothing when
    the searching truck is unknown, when it has no ACTIVE route, when no
    other truck with a position is found under 5 km, or when the query
    over the trucks fails, the expression raising on another truck that
    has a position. *)
Theorem detect_none :
  forall (haversineKm : Q -> Q -> Q -> Q -> option Q) (env : Env)
         (db : Store.t) (truckId : Id) (lat lng : Q),
    (findTruck db truckId = None ->
     detectAbsorptionOpportunity haversineKm env db truckId lat lng
     = (None, db, []))
    /\
    (forall truckA : Truck.t,
        findTruck db truckId = Some truckA ->
        (forall r : Route.t,
            In r (Store.routes db) ->
            Route.truckId r = Truck.id truckA ->
            Route.status r <> "ACTIVE") ->
        detectAbsorptionOpportunity haversineKm env db truckId lat lng
        = (None, db, []))
    /\
    ((forall (t : Truck.t) (rowLat rowLng distance : Q),
         In t (Store.trucks db) ->
         Truck.id t <> truckId ->
         Truck.currentLat t = Some rowLat ->
         Truck.currentLng t = Some rowLng ->
         haversineKm lat lng rowLat rowLng = Some distance ->
         5 <= distance) ->
     detectAbsorptionOpportunity haversineKm env db truckId lat lng
     = (None, db, []))
    /\
    ((exists (t : Truck.t) (rowLat rowLng : Q),
         In t (Store.trucks db)
         /\ Truck.id t <> truckId
         /\ Truck.currentLat t = Some rowLat
         /\ Truck.currentLng t = Some rowLng
         /\ haversineKm lat lng rowLat rowLng = None) ->
     detectAbsorptionOpportunity haversineKm env db truckId lat lng
     = (None, db, [])).
Proof.
  intros haversineKm env db truckId lat lng.
  unfold detectAbsorptionOpportunity. split; [| split; [| split]].
  - intros ->. reflexivity.
  - intros truckA -> Hinactive.
    destruct (activeRoutes db truckA) as [| routeA routes] eqn:Hroutes;
      [reflexivity |].
    exfalso. apply activeRoutes_head in Hroutes.
    destruct Hroutes as (before & after & Hsplit & Hid & Hactive & _).
    apply (Hinactive routeA); [| exact Hid | exact Hactive].
    rewrite Hsplit. apply in_or_app. right. now left.
  - intros Hfar.
    destruct (findTruck db truckId) as [truckA |]; [| reflexivity].
    destruct (activeRoutes db truckA) as [| routeA routes]; [reflexivity |].
    unfold nearbyTrucksQuery.
    destruct (trucksQueryRaises haversineKm db truckId lat lng);
      [reflexivity |].
    destruct (detectLoop haversineKm env db lat lng truckA routeA _)
      as [| | m] eqn:Hloop; try reflexivity.
    exfalso. apply detectLoop_Match in Hloop.
    destruct Hloop as (c & _ & _ & _ & _ & _ & Hin & _).
    apply trucksWithin5_In in Hin.
    destruct Hin
      as (t & rowLat & rowLng & distance & Ht & Hlat & Hlng & Hne & Hkm
          & _ & Hlt).
    specialize (Hfar t rowLat rowLng distance Ht Hne Hlat Hlng Hkm).
    exact (Qlt_not_le _ _ Hlt Hfar).
  - intros Hraise. apply trucksQueryRaises_true_iff in Hraise.
    destruct (findTruck db truckId) as [truckA |]; [| reflexivity].
    destruct (activeRoutes db truckA) as [| routeA routes]; [reflexivity |].
    unfold nearbyTrucksQuery. now rewrite Hraise.
Qed.

Lemma detect_none_witness :
  detectAbsorptionOpportunity ProximityScenario.totalKm Scenario.env
    ProximityScenario.store "t9" 0 0
  = (None, ProximityScenario.store, [])
  /\ detectAbsorptionOpportunity ProximityScenario.totalKm Scenario.env
       ProximityScenario.store "t1" 1 1
     = (None, ProximityScenario.store, [])
  /\ detectAbsorptionOpportunity ProximityScenario.raisingKm Scenario.env
       FurtherScenario.samePosition "t1" (5 # 2) 1
     = (None, FurtherScenario.samePosition, []).
Proof.
  split; [| split].
  - apply (proj1 (detect_none ProximityScenario.totalKm Scenario.env
                    ProximityScenario.store "t9" 0 0)).
    reflexivity.
  - apply (proj1 (proj2 (proj2 (detect_none ProximityScenario.totalKm
                                  Scenario.env ProximityScenario.store
                                  "t1" 1 1)))).
    intros t rowLat rowLng distance Hin Hne Hlat Hlng Hkm. cbn [In] in Hin.
    destruct Hin as [<- | [<- | []]].
    + exfalso. now apply Hne.
    + injection Hlat as <-. injection Hlng as <-. injection Hkm as <-.
      vm_compute. discriminate.
  - apply (proj2 (proj2 (proj2 (detect_none ProximityScenario.raisingKm
                                  Scenario.env FurtherScenario.samePosition
                                  "t1" (5 # 2) 1)))).
    exists (Truck.mk "t2" "acme" false "APPROVED" "u2" (Some 20) (Some 20)
              (Some 8) (Some 4) (Some (5 # 2)) (Some 1) None),
      (5 # 2), 1.
    split; [right; left; reflexivity |].
    split; [discriminate |]. repeat split.
Defined.



Lemma orNum_falsy (x : option Q) (d : Q) :
  Js.truthyNum x = false -> Js.orNum x d = d.
Proof.
  destruct x as [q |]; cbn; [| reflexivity].
  destruct (Qeq_bool q 0); [reflexivity | discriminate].
Qed.

(** X13.  In [detect] an absent [maxWeight] is no capacity at all, where
    in the allocator it is no limit: a searching truck whose [maxWeight]
    is absent or 0 and whose load is not negative absorbs no truck that
    carries weight, so [detect] finds nothing when every other truck
    carries weight. *)
Theorem detect_absent_maxWeight_absorbs_nothing :
  forall (haversineKm : Q -> Q -> Q -> Q -> option Q) (env : Env)
         (db : Store.t) (truckId : Id) (lat lng : Q) (truckA : Truck.t),
    findTruck db truckId = Some truckA ->
    Js.truthyNum (Truck.maxWeight truckA) = false ->
    0 <= Js.toNumber (Truck.currentWeight truckA) ->
    (forall t : Truck.t,
        In t (Store.trucks db) -> Truck.id t <> truckId ->
        0 < Js.toNumber (Truck.currentWeight t)) ->
    detectAbsorptionOpportunity haversineKm env db truckId lat lng
    = (None, db, []).
Proof.
  intros haversineKm env db truckId lat lng truckA HA Hmax Hload Hothers.
  unfold detectAbsorptionOpportunity. rewrite HA.
  destruct (activeRoutes db truckA) as [| routeA routes]; [reflexivity |].
  unfold nearbyTrucksQuery.
  destruct (trucksQueryRaises haversineKm db truckId lat lng);
    [reflexivity |].
  destruct (detectLoop haversineKm env db lat lng truckA routeA _)
    as [| | m] eqn:Hloop; try reflexivity.
  exfalso. apply detectLoop_Match in Hloop.
  destruct Hloop as (c & truckB & _ & _ & _ & _ & Hin & HB & _ & _ & Habs & _).
  apply trucksWithin5_In in Hin.
  destruct Hin as (t & rowLat & rowLng & distance & _ & _ & _ & Hne & _
                   & Hc & _).
  subst c.
  cbn [NearbyTruck.id] in HB. destruct (findTruck_In _ _ _ HB) as [HinB HidB].
  assert (HposB : 0 < Js.toNumber (Truck.currentWeight truckB))
    by (apply Hothers; [exact HinB | now rewrite HidB]).
  unfold canAbsorb in Habs. apply andb_true_iff in Habs.
  destruct Habs as [Hw _]. apply geb_true_iff in Hw.
  unfold availableWeight in Hw. rewrite (orNum_falsy _ _ Hmax) in Hw.
  rewrite orNum_zero in Hw. lra.
Qed.

Lemma detect_absent_maxWeight_absorbs_nothing_witness :
  detectAbsorptionOpportunity ProximityScenario.totalKm Scenario.env
    FurtherScenario.proximityNoMaxWeight "t1" 0 0
  = (None, FurtherScenario.proximityNoMaxWeight, []).
Proof.
  apply (detect_absent_maxWeight_absorbs_nothing ProximityScenario.totalKm
           Scenario.env FurtherScenario.proximityNoMaxWeight "t1" 0 0
           (Truck.mk "t1" "acme" false "APPROVED" "u1" None (Some 20)
              (Some 10) (Some 10) (Some 0) (Some 0) None)).
  - reflexivity.
  - reflexivity.
  - vm_compute. discriminate.
  - intros t Hin Hne. cbn [In FurtherScenario.proximityNoMaxWeight
                             Store.trucks] in Hin.
    destruct Hin as [<- | [<- | []]].
    + exfalso. now apply Hne.
    + reflexivity.
Defined.

(** ** Route allocation, continued *)

(** What a run of the loop adds to [allocations]: at most one allocation
    for each truck, in the order of the trucks, each of them not empty. *)
Lemma allocateLoop_added (add : Q -> Q -> Q) (pending : list Delivery.t) :
  forall (trucks : list Truck.t) (idx : nat) (allocs : list Allocation.t),
  exists added : list Allocation.t,
    fst (allocateLoop add pending trucks idx allocs) = allocs ++ added
    /\ (length added <= length trucks)%nat
    /\ (forall alloc, In alloc added ->
                      In (Allocation.truck alloc) trucks
                      /\ Allocation.deliveries alloc <> [])
    /\ (NoDup (map Truck.id trucks) ->
        NoDup (map (fun alloc => Truck.id (Allocation.truck alloc)) added)).
Proof.
  induction trucks as [| truck trucks IH]; intros idx allocs;
    cbn [allocateLoop].
  - exists []. cbn. rewrite app_nil_r.
    repeat split; try lia; try contradiction. constructor.
  - destruct (length pending <=? idx)%nat.
    + exists []. cbn. rewrite app_nil_r.
      repeat split; try lia; try contradiction. constructor.
    + cbv zeta.
      set (st := fillTruck add truck (skipn idx pending) (startFill idx)).
      destruct (0 <? length (routeDeliveries st))%nat eqn:Hlen.
      * destruct (IH (deliveryIndex st)
                    (allocs ++ [Allocation.mk truck (routeDeliveries st)
                                  (currentWeight st) (currentVolume st)]))
          as (added & Heq & Hlenadd & Hmem & Hnodup).
        exists (Allocation.mk truck (routeDeliveries st) (currentWeight st)
                  (currentVolume st) :: added).
        split; [rewrite Heq; now rewrite <- app_assoc |].
        split; [cbn [length]; lia |]. split.
        -- intros alloc [<- | Hin].
           ++ cbn. split; [now left |]. apply Nat.ltb_lt in Hlen.
              intros Hnil. rewrite Hnil in Hlen. cbn in Hlen. lia.
           ++ destruct (Hmem alloc Hin). split; [now right | assumption].
        -- intros Hnd. cbn [map] in *. inversion Hnd as [| ? ? Hnotin Hnd'].
           subst. constructor; [| now apply Hnodup].
           cbn [Allocation.truck]. intros Hin. apply Hnotin.
           apply in_map_iff in Hin. destruct Hin as (alloc & Hid & Hin).
           apply in_map_iff. exists (Allocation.truck alloc).
           split; [exact Hid |]. now apply Hmem.
      * destruct (IH (deliveryIndex st) allocs)
          as (added & Heq & Hlenadd & Hmem & Hnodup).
        exists added. split; [exact Heq |].
        split; [cbn [length]; lia |]. split.
        -- intros alloc Hin. destruct (Hmem alloc Hin).
           split; [now right | assumption].
        -- intros Hnd. cbn [map] in Hnd. inversion Hnd. now apply Hnodup.
Qed.

(** The deliveries of an allocation are deliveries of the queue. *)
Lemma greedyAllocation_deliveries_In (add : Q -> Q -> Q)
    (pending : list Delivery.t) (trucks : list Truck.t)
    (alloc : Allocation.t) (d : Delivery.t) :
  In alloc (greedyAllocation add pending trucks) ->
  In d (Allocation.deliveries alloc) ->
  In d pending.
Proof.
  intros Halloc Hd.
  assert (Hconcat : In d (concat (map Allocation.deliveries
                                    (greedyAllocation add pending trucks)))).
  { apply in_concat. exists (Allocation.deliveries alloc).
    split; [now apply in_map | exact Hd]. }
  unfold greedyAllocation in Hconcat.
  rewrite (allocateLoop_prefix add pending trucks 0 []) in Hconcat;
    [| lia | reflexivity].
  rewrite <- (firstn_skipn (snd (allocateLoop add pending trucks 0 []))
                pending).
  apply in_or_app. now left.
Qed.

(** X14.  A run uses the PENDING deliveries of the company and its
    available, APPROVED trucks only; it creates at most one route for each
    truck, no more routes than there are trucks, and trucks with distinct
    identifiers get distinct routes. *)
Theorem greedyAllocation_uses_eligible_rows :
  forall (add : Q -> Q -> Q) (db : Store.t) (company : Id),
    (length (greedyAllocation add (findPendingDeliveries db company)
               (findAvailableTrucks db company))
     <= length (findAvailableTrucks db company))%nat
    /\ (forall alloc : Allocation.t,
           In alloc (greedyAllocation add (findPendingDeliveries db company)
                       (findAvailableTrucks db company)) ->
           In (Allocation.truck alloc) (Store.trucks db)
           /\ Truck.courierCompanyId (Allocation.truck alloc) = company
           /\ Truck.isAvailable (Allocation.truck alloc) = true
           /\ Truck.registrationStatus (Allocation.truck alloc) = "APPROVED"
           /\ (forall d : Delivery.t,
                  In d (Allocation.deliveries alloc) ->
                  In d (Store.deliveries db)
                  /\ Delivery.courierCompanyId d = company
                  /\ Delivery.status d = "PENDING"))
    /\ (NoDup (map Truck.id (findAvailableTrucks db company)) ->
        NoDup (map (fun alloc => Truck.id (Allocation.truck alloc))
                 (greedyAllocation add (findPendingDeliveries db company)
                    (findAvailableTrucks db company)))).
Proof.
  intros add db company. unfold greedyAllocation at 1 3.
  destruct (allocateLoop_added add (findPendingDeliveries db company)
              (findAvailableTrucks db company) 0 [])
    as (added & Heq & Hlen & Hmem & Hnodup).
  cbn [app] in Heq. rewrite Heq.
  split; [exact Hlen |]. split; [| exact Hnodup].
  intros alloc Hin.
  assert (Hin' : In alloc added).
  { unfold greedyAllocation in Hin. now rewrite Heq in Hin. }
  destruct (Hmem alloc Hin') as [Htruck _].
  apply findAvailableTrucks_In in Htruck.
  destruct Htruck as (H1 & H2 & H3 & H4).
  repeat (split; [assumption |]).
  intros d Hd. apply findPendingDeliveries_In.
  exact (greedyAllocation_deliveries_In add _ _ _ _ Hin Hd).
Qed.

Lemma greedyAllocation_uses_eligible_rows_witness :
  NoDup (map (fun alloc => Truck.id (Allocation.truck alloc))
           (greedyAllocation Js.addDouble
              (findPendingDeliveries AllocationScenario.scenarioA "acme")
              (findAvailableTrucks AllocationScenario.scenarioA "acme"))).
Proof.
  apply (proj2 (proj2 (greedyAllocation_uses_eligible_rows Js.addDouble
                         AllocationScenario.scenarioA "acme"))).
  cbn. repeat constructor. intros [].
Defined.

(** *** The transaction *)

Lemma includes_app (l1 l2 : list string) (x : string) :
  Js.includes (l1 ++ l2) x = Js.includes l1 x || Js.includes l2 x.
Proof. unfold Js.includes. apply existsb_app. Qed.

(** The whole effect of the transaction on the store, row by row. *)
Lemma commitAllocations_effect (env : Env) (company : Id) :
  forall (allocs : list Allocation.t) (db : Store.t)
         (created : list Route.t),
  exists (g : Delivery.t -> Delivery.t) (h : Truck.t -> Truck.t)
         (new : list Route.t),
    Store.deliveries
      (fst (fold_left (commitAllocation env company) allocs (db, created)))
    = map g (Store.deliveries db)
    /\ Store.trucks
         (fst (fold_left (commitAllocation env company) allocs
                 (db, created)))
       = map h (Store.trucks db)
    /\ Store.routes
         (fst (fold_left (commitAllocation env company) allocs
                 (db, created)))
       = Store.routes db ++ new
    /\ snd (fold_left (commitAllocation env company) allocs (db, created))
       = created ++ new
    /\ Store.users
         (fst (fold_left (commitAllocation env company) allocs
                 (db, created)))
       = Store.users db
    /\ Store.hubs
         (fst (fold_left (commitAllocation env company) allocs
                 (db, created)))
       = Store.hubs db
    /\ Store.opportunities
         (fst (fold_left (commitAllocation env company) allocs
                 (db, created)))
       = Store.opportunities db
    /\ Forall2 (fun alloc route =>
                  route = routeOfAllocation env company (Route.id route)
                            alloc)
         allocs new
    /\ (forall d, Delivery.id (g d) = Delivery.id d)
    /\ (forall d,
           Js.includes (allocatedIds allocs) (Delivery.id d) = false ->
           g d = d)
    /\ (forall d,
           Js.includes (allocatedIds allocs) (Delivery.id d) = true ->
           exists (alloc : Allocation.t) (route : Route.t),
             In alloc allocs /\ In route new
             /\ route = routeOfAllocation env company (Route.id route) alloc
             /\ Js.includes (map Delivery.id (Allocation.deliveries alloc))
                  (Delivery.id d) = true
             /\ g d = allocateDelivery (Allocation.truck alloc)
                        (Route.id route) d)
    /\ (forall t, Truck.id (h t) = Truck.id t)
    /\ (forall t,
           existsb (fun alloc =>
                      String.eqb (Truck.id t)
                        (Truck.id (Allocation.truck alloc))) allocs = false ->
           h t = t)
    /\ (forall t,
           existsb (fun alloc =>
                      String.eqb (Truck.id t)
                        (Truck.id (Allocation.truck alloc))) allocs = true ->
           h t = markUnavailable t).
Proof.
  induction allocs as [| a allocs IH]; intros db created; cbn [fold_left].
  - exists (fun d => d), (fun t => t), []. cbn [fst snd].
    rewrite map_id, map_id, !app_nil_r.
    repeat split; try constructor; try discriminate.
  - unfold commitAllocation at 2 4 6 8 10 12 14.
    match goal with
    | |- context [fold_left _ allocs (?db1, ?created1)] =>
        destruct (IH db1 created1)
          as (g & h & new & Hd & Ht & Hr & Hc & Hu & Hh & Ho & Hf
              & Hgid & Hgout & Hgin & Hhid & Hhout & Hhin)
    end.
    cbn [Store.deliveries Store.trucks Store.routes Store.users Store.hubs
           Store.opportunities] in Hd, Ht, Hr, Hu, Hh, Ho.
    set (route := routeOfAllocation env company
                    (genId env (length (Store.routes db))) a) in *.
    set (ga := fun d =>
                 if Js.includes (map Delivery.id (Allocation.deliveries a))
                      (Delivery.id d)
                 then allocateDelivery (Allocation.truck a) (Route.id route) d
                 else d) in *.
    set (ha := fun t =>
                 if String.eqb (Truck.id t) (Truck.id (Allocation.truck a))
                 then markUnavailable t else t) in *.
    assert (Hgaid : forall d, Delivery.id (ga d) = Delivery.id d).
    { intros d. unfold ga.
      destruct (Js.includes _ (Delivery.id d)); reflexivity. }
    assert (Hhaid : forall t, Truck.id (ha t) = Truck.id t).
    { intros t. unfold ha. destruct (String.eqb _ _); reflexivity. }
    exists (fun d => g (ga d)), (fun t => h (ha t)), (route :: new).
    split; [rewrite Hd; apply map_map |].
    split; [rewrite Ht; apply map_map |].
    split; [rewrite Hr; now rewrite <- app_assoc |].
    split; [rewrite Hc; now rewrite <- app_assoc |].
    split; [exact Hu |]. split; [exact Hh |]. split; [exact Ho |].
    split; [constructor; [reflexivity | exact Hf] |].
    split; [intros d; now rewrite Hgid, Hgaid |].
    split; [| split; [| split; [| split]]].
    + intros d Hout. unfold allocatedIds in Hout. cbn [flat_map] in Hout.
      rewrite includes_app in Hout. apply orb_false_iff in Hout.
      destruct Hout as [Ha Hrest].
      assert (Hga : ga d = d) by (unfold ga; now rewrite Ha).
      rewrite Hga. now apply Hgout.
    + intros d Hin. unfold allocatedIds in Hin. cbn [flat_map] in Hin.
      rewrite includes_app in Hin.
      destruct (Js.includes (allocatedIds allocs) (Delivery.id d)) eqn:Hrest.
      * assert (Hrest' : Js.includes (allocatedIds allocs)
                           (Delivery.id (ga d)) = true)
          by now rewrite Hgaid.
        destruct (Hgin (ga d) Hrest')
          as (alloc & r & Halloc & Hrin & Hreq & Hids & Hg).
        exists alloc, r. split; [now right |]. split; [now right |].
        split; [exact Hreq |]. rewrite Hgaid in Hids. split; [exact Hids |].
        rewrite Hg. unfold ga.
        destruct (Js.includes _ (Delivery.id d)); reflexivity.
      * fold (allocatedIds allocs) in Hin. rewrite Hrest in Hin.
        rewrite orb_false_r in Hin.
        exists a, route. split; [now left |]. split; [now left |].
        split; [reflexivity |]. split; [exact Hin |].
        assert (Hga : ga d
                      = allocateDelivery (Allocation.truck a)
                          (Route.id route) d)
          by (unfold ga; now rewrite Hin).
        rewrite Hga. apply Hgout. exact Hrest.
    + intros t. now rewrite Hhid, Hhaid.
    + intros t Hout. cbn [existsb] in Hout. apply orb_false_iff in Hout.
      destruct Hout as [Ha Hrest].
      assert (Hha : ha t = t) by (unfold ha; now rewrite Ha).
      rewrite Hha. now apply Hhout.
    + intros t Hin. cbn [existsb] in Hin.
      destruct (existsb (fun alloc =>
                           String.eqb (Truck.id t)
                             (Truck.id (Allocation.truck alloc))) allocs)
        eqn:Hrest.
      * assert (Hrest' : existsb (fun alloc =>
                                    String.eqb (Truck.id (ha t))
                                      (Truck.id (Allocation.truck alloc)))
                           allocs = true)
          by now rewrite Hhaid.
        rewrite (Hhin (ha t) Hrest'). unfold ha.
        destruct (String.eqb _ _); reflexivity.
      * rewrite orb_false_r in Hin.
        assert (Hha : ha t = markUnavailable t)
          by (unfold ha; now rewrite Hin).
        rewrite Hha. apply Hhout. exact Hrest.
Qed.

(** The outcomes of [allocateRoutes]: either nothing is written and no
    route is reported, or the transaction of the greedy allocation is. *)
Lemma allocateRoutes_outcomes (add : Q -> Q -> Q) (env : Env) (db : Store.t)
    (req : Request.allocate) :
  (snd (allocateRoutes add env db req) = db
   /\ createdRoutes (fst (allocateRoutes add env db req)) = []
   /\ statusCode (fst (allocateRoutes add env db req)) <> 201%nat)
  \/ exists company : Id,
       Request.courierCompanyId req = Some company
       /\ findPendingDeliveries db company <> []
       /\ findAvailableTrucks db company <> []
       /\ statusCode (fst (allocateRoutes add env db req)) = 201%nat
       /\ snd (allocateRoutes add env db req)
          = fst (commitAllocations env company db
                   (greedyAllocation add (findPendingDeliveries db company)
                      (findAvailableTrucks db company)))
       /\ createdRoutes (fst (allocateRoutes add env db req))
          = snd (commitAllocations env company db
                   (greedyAllocation add (findPendingDeliveries db company)
                      (findAvailableTrucks db company))).
Proof.
  unfold allocateRoutes.
  destruct (Request.courierCompanyId req) as [company |];
    [| left; repeat split; discriminate].
  destruct (negb (Js.truthyStr (Some company)));
    [left; repeat split; discriminate |].
  destruct (findPendingDeliveries db company) as [| d pending] eqn:Hp;
    [left; repeat split; discriminate |].
  destruct (findAvailableTrucks db company) as [| t trucks] eqn:Ht;
    [left; repeat split; discriminate |].
  cbn [length Nat.eqb].
  destruct (commitAllocations env company db _) as [db' results] eqn:Hc.
  right. exists company. rewrite Hp, Ht, Hc.
  split; [reflexivity |]. split; [discriminate |]. split; [discriminate |].
  split; [reflexivity |]. split; reflexivity.
Qed.

(** X15.  The bookkeeping of a run, whatever its outcome: the routes of
    the store are the former ones followed by the routes the response
    reports; the users, hubs and opportunities are left as they were; the
    deliveries and the trucks are the former rows in the former order, each
    with its identifier, and each delivery with its company, cargo and time
    window. *)
Theorem allocateRoutes_bookkeeping :
  forall (add : Q -> Q -> Q) (env : Env) (db : Store.t)
         (req : Request.allocate),
    Store.routes (snd (allocateRoutes add env db req))
    = Store.routes db ++ createdRoutes (fst (allocateRoutes add env db req))
    /\ Store.users (snd (allocateRoutes add env db req)) = Store.users db
    /\ Store.hubs (snd (allocateRoutes add env db req)) = Store.hubs db
    /\ Store.opportunities (snd (allocateRoutes add env db req))
       = Store.opportunities db
    /\ map (fun d => (Delivery.id d, Delivery.courierCompanyId d,
                      Delivery.cargoWeight d, Delivery.cargoVolumeLtrs d,
                      Delivery.timeWindowStart d))
         (Store.deliveries (snd (allocateRoutes add env db req)))
       = map (fun d => (Delivery.id d, Delivery.courierCompanyId d,
                        Delivery.cargoWeight d, Delivery.cargoVolumeLtrs d,
                        Delivery.timeWindowStart d))
           (Store.deliveries db)
    /\ map Truck.id (Store.trucks (snd (allocateRoutes add env db req)))
       = map Truck.id (Store.trucks db).
Proof.
  intros add env db req.
  destruct (allocateRoutes_outcomes add env db req)
    as [(-> & -> & _) | (company & _ & _ & _ & _ & -> & ->)].
  - rewrite app_nil_r. repeat split.
  - unfold commitAllocations.
    destruct (commitAllocations_effect env company
                (greedyAllocation add (findPendingDeliveries db company)
                   (findAvailableTrucks db company)) db [])
      as (g & h & new & Hd & Ht & Hr & Hc & Hu & Hh & Ho & _
          & Hgid & Hgout & Hgin & Hhid & _).
    rewrite Hd, Ht, Hr, Hc, Hu, Hh, Ho. cbn [app].
    repeat split.
    + rewrite map_map. apply map_ext. intros d.
      destruct (Js.includes
                  (allocatedIds
                     (greedyAllocation add (findPendingDeliveries db company)
                        (findAvailableTrucks db company)))
                  (Delivery.id d)) eqn:Hin.
      * destruct (Hgin d Hin) as (alloc & r & _ & _ & _ & _ & ->).
        reflexivity.
      * now rewrite (Hgout d Hin).
    + rewrite map_map. apply map_ext. exact Hhid.
Qed.

Lemma includes_true_In (l : list string) (x : string) :
  Js.includes l x = true <-> In x l.
Proof.
  unfold Js.includes. rewrite existsb_exists. split.
  - intros (y & Hy & Heq). apply String.eqb_eq in Heq. now subst y.
  - intros Hin. exists x. split; [exact Hin | apply String.eqb_refl].
Qed.

Lemma allocatedIds_In (allocs : list Allocation.t) (i : Id) :
  Js.includes (allocatedIds allocs) i = true ->
  exists (alloc : Allocation.t) (d : Delivery.t),
    In alloc allocs /\ In d (Allocation.deliveries alloc)
    /\ Delivery.id d = i.
Proof.
  rewrite includes_true_In. unfold allocatedIds. rewrite in_flat_map.
  intros (alloc & Halloc & Hin). apply in_map_iff in Hin.
  destruct Hin as (d & Hid & Hd). now exists alloc, d.
Qed.

Lemma unique_id (l : list Delivery.t) (a b : Delivery.t) :
  NoDup (map Delivery.id l) -> In a l -> In b l ->
  Delivery.id a = Delivery.id b -> a = b.
Proof.
  induction l as [| x l IH]; cbn [map In]; [contradiction |].
  intros Hnd Ha Hb Heq. inversion Hnd as [| ? ? Hnotin Hnd']; subst.
  destruct Ha as [<- | Ha], Hb as [<- | Hb].
  - reflexivity.
  - exfalso. apply Hnotin. rewrite Heq. now apply in_map.
  - exfalso. apply Hnotin. rewrite <- Heq. now apply in_map.
  - now apply IH.
Qed.

(** With unique identifiers, a delivery whose identifier is allocated is
    a PENDING delivery of the company. *)
Lemma allocated_is_pending (add : Q -> Q -> Q)
    (db : Store.t) (company : Id) (d : Delivery.t) :
  NoDup (map Delivery.id (Store.deliveries db)) ->
  In d (Store.deliveries db) ->
  Js.includes
    (allocatedIds (greedyAllocation add (findPendingDeliveries db company)
                     (findAvailableTrucks db company)))
    (Delivery.id d) = true ->
  Delivery.courierCompanyId d = company /\ Delivery.status d = "PENDING".
Proof.
  intros Hnd Hd Hin. apply allocatedIds_In in Hin.
  destruct Hin as (alloc & d0 & Halloc & Hd0 & Hid).
  pose proof (greedyAllocation_deliveries_In add _ _ _ _ Halloc Hd0) as Hp.
  apply findPendingDeliveries_In in Hp. destruct Hp as (Hd0in & Hc & Hs).
  assert (d0 = d) by (eapply unique_id; eassumption). now subst d0.
Qed.

(** X16.  When the deliveries have unique identifiers, a run writes the
    PENDING deliveries of the company only: a delivery of the store that
    is not PENDING, or that belongs to another company, is left as it was;
    and every delivery after the run is a former delivery, or the former
    PENDING delivery of the same identifier, now ALLOCATED and bound to a
    route that the response reports, with the truck and the driver of that
    route. *)
Theorem allocateRoutes_writes_pending_only :
  forall (add : Q -> Q -> Q) (env : Env) (db : Store.t)
         (req : Request.allocate),
    NoDup (map Delivery.id (Store.deliveries db)) ->
    (forall d : Delivery.t,
        In d (Store.deliveries db) ->
        Delivery.status d <> "PENDING"
        \/ Request.courierCompanyId req
           <> Some (Delivery.courierCompanyId d) ->
        In d (Store.deliveries (snd (allocateRoutes add env db req))))
    /\
    (forall d' : Delivery.t,
        In d' (Store.deliveries (snd (allocateRoutes add env db req))) ->
        In d' (Store.deliveries db)
        \/ exists (d : Delivery.t) (route : Route.t),
             In d (Store.deliveries db)
             /\ Delivery.status d = "PENDING"
             /\ Request.courierCompanyId req
                = Some (Delivery.courierCompanyId d)
             /\ In route (createdRoutes (fst (allocateRoutes add env db req)))
             /\ d' = {| Delivery.id := Delivery.id d;
                        Delivery.courierCompanyId :=
                          Delivery.courierCompanyId d;
                        Delivery.status := "ALLOCATED";
                        Delivery.cargoWeight := Delivery.cargoWeight d;
                        Delivery.cargoVolumeLtrs :=
                          Delivery.cargoVolumeLtrs d;
                        Delivery.timeWindowStart :=
                          Delivery.timeWindowStart d;
                        Delivery.truckId := Some (Route.truckId route);
                        Delivery.driverId := Some (Route.driverId route);
                        Delivery.optimizedRouteId :=
                          Some (Route.id route) |}).
Proof.
  intros add env db req Hnd.
  destruct (allocateRoutes_outcomes add env db req)
    as [(-> & -> & _) | (company & Hreq & _ & _ & _ & -> & ->)].
  - split; [intros d Hd _; exact Hd | intros d' Hd'; now left].
  - unfold commitAllocations.
    destruct (commitAllocations_effect env company
                (greedyAllocation add (findPendingDeliveries db company)
                   (findAvailableTrucks db company)) db [])
      as (g & h & new & Hd & _ & _ & Hc & _ & _ & _ & _
          & _ & Hgout & Hgin & _).
    rewrite Hd, Hc. cbn [app]. split.
    + intros d Hin Hcase. apply in_map_iff. exists d.
      split; [| exact Hin]. apply Hgout.
      destruct (Js.includes _ (Delivery.id d)) eqn:Halloc; [| reflexivity].
      destruct (allocated_is_pending add db company d Hnd Hin Halloc)
        as [Hcomp Hstatus].
      exfalso. destruct Hcase as [Hcase | Hcase];
        [now apply Hcase | apply Hcase; now rewrite Hreq, Hcomp].
    + intros d' Hin. apply in_map_iff in Hin. destruct Hin as (d & <- & Hin).
      destruct (Js.includes
                  (allocatedIds
                     (greedyAllocation add (findPendingDeliveries db company)
                        (findAvailableTrucks db company)))
                  (Delivery.id d)) eqn:Halloc.
      * right.
        destruct (allocated_is_pending add db company d Hnd Hin Halloc)
          as [Hcomp Hstatus].
        destruct (Hgin d Halloc) as (alloc & route & _ & Hroute & Heq & _ & ->).
        exists d, route. split; [exact Hin |]. split; [exact Hstatus |].
        split; [now rewrite Hreq, Hcomp |]. split; [exact Hroute |].
        rewrite Heq. reflexivity.
      * left. now rewrite (Hgout d Halloc).
Qed.

Lemma allocateRoutes_writes_pending_only_witness :
  In (Delivery.mk "d9" "zeta" "PENDING" 1 1 5%Z None None None)
     (Store.deliveries
        (snd (allocateRoutes Js.addDouble Scenario.env
                FurtherScenario.mixedCompanies AllocationScenario.request))).
Proof.
  assert (Hnd : NoDup (map Delivery.id
                         (Store.deliveries FurtherScenario.mixedCompanies))).
  { cbn. repeat constructor; cbn; intuition discriminate. }
  apply (proj1 (allocateRoutes_writes_pending_only Js.addDouble Scenario.env
                  FurtherScenario.mixedCompanies
                  AllocationScenario.request Hnd)).
  - cbn. tauto.
  - right. discriminate.
Defined.

Lemma Forall2_routes_truck (env : Env) (company : Id)
    (allocs : list Allocation.t) (new : list Route.t) (i : Id) :
  Forall2 (fun alloc route =>
             route = routeOfAllocation env company (Route.id route) alloc)
    allocs new ->
  existsb (fun alloc => String.eqb i (Truck.id (Allocation.truck alloc)))
    allocs = true
  <-> exists route, In route new /\ Route.truckId route = i.
Proof.
  intros Hf. induction Hf as [| alloc route allocs new Heq Hf IH].
  - cbn. split; [discriminate | intros (r & [] & _)].
  - cbn [existsb In]. rewrite orb_true_iff, IH, String.eqb_eq. split.
    + intros [Hi | (r & Hr & Hid)].
      * exists route. split; [now left |]. rewrite Heq. cbn. now symmetry.
      * exists r. split; [now right | exact Hid].
    + intros (r & [<- | Hr] & Hid).
      * left. rewrite Heq in Hid. cbn in Hid. now symmetry.
      * right. now exists r.
Qed.

(** X17.  After a run, a truck for which the response reports a route is
    in the store with [isAvailable] set to false and its other fields as
    they were, and a truck for which it reports none is left as it was. *)
Theorem allocateRoutes_marks_trucks :
  forall (add : Q -> Q -> Q) (env : Env) (db : Store.t)
         (req : Request.allocate) (t : Truck.t),
    In t (Store.trucks db) ->
    ((exists route : Route.t,
         In route (createdRoutes (fst (allocateRoutes add env db req)))
         /\ Route.truckId route = Truck.id t) ->
     In {| Truck.id := Truck.id t;
           Truck.courierCompanyId := Truck.courierCompanyId t;
           Truck.isAvailable := false;
           Truck.registrationStatus := Truck.registrationStatus t;
           Truck.ownerId := Truck.ownerId t;
           Truck.maxWeight := Truck.maxWeight t;
           Truck.maxVolume := Truck.maxVolume t;
           Truck.currentWeight := Truck.currentWeight t;
           Truck.currentVolume := Truck.currentVolume t;
           Truck.currentLat := Truck.currentLat t;
           Truck.currentLng := Truck.currentLng t;
           Truck.co2PerKm := Truck.co2PerKm t |}
        (Store.trucks (snd (allocateRoutes add env db req))))
    /\
    ((forall route : Route.t,
         In route (createdRoutes (fst (allocateRoutes add env db req))) ->
         Route.truckId route <> Truck.id t) ->
     In t (Store.trucks (snd (allocateRoutes add env db req)))).
Proof.
  intros add env db req t Hin.
  destruct (allocateRoutes_outcomes add env db req)
    as [(-> & -> & _) | (company & _ & _ & _ & _ & -> & ->)].
  - split; [intros (r & [] & _) | intros _; exact Hin].
  - unfold commitAllocations.
    destruct (commitAllocations_effect env company
                (greedyAllocation add (findPendingDeliveries db company)
                   (findAvailableTrucks db company)) db [])
      as (g & h & new & _ & Ht & _ & Hc & _ & _ & _ & Hf
          & _ & _ & _ & _ & Hhout & Hhin).
    rewrite Ht, Hc. cbn [app].
    pose proof (Forall2_routes_truck env company _ new (Truck.id t) Hf)
      as Hiff.
    split.
    + intros Hex. apply Hiff in Hex. apply in_map_iff. exists t.
      split; [| exact Hin]. rewrite (Hhin t Hex). reflexivity.
    + intros Hnone. apply in_map_iff. exists t. split; [| exact Hin].
      apply Hhout.
      destruct (existsb _ _) eqn:Hex; [| reflexivity].
      destruct (proj1 Hiff eq_refl) as (r & Hr & Hid).
      exfalso. exact (Hnone r Hr Hid).
Qed.

Lemma allocateRoutes_marks_trucks_witness :
  In (Truck.mk "t1" "acme" false "APPROVED" "u1" (Some 5) None
        None None None None None)
     (Store.trucks
        (snd (allocateRoutes Js.addDouble Scenario.env
                AllocationScenario.scenarioA AllocationScenario.request))).
Proof.
  apply (proj1 (allocateRoutes_marks_trucks Js.addDouble Scenario.env
                  AllocationScenario.scenarioA AllocationScenario.request
                  (AllocationScenario.truck (Some 5))
                  (or_introl eq_refl))).
  eexists. split; [lazy; left; reflexivity | reflexivity].
Defined.

(** X18.  Every route that a run creates is ALLOCATED, belongs to the
    company of the request, carries at least one package, ends one hour
    after it starts, and is the route of an available truck of the store,
    with the owner of the truck as its driver.  Its utilisation is at most
    100 percent when the [maxWeight] of the truck is positive, and is
    reported as 0 when the [maxWeight] is absent or 0. *)
Theorem allocateRoutes_created_route :
  forall (add : Q -> Q -> Q) (env : Env) (db : Store.t) (req : Request.allocate)
         (route : Route.t),
    In route (createdRoutes (fst (allocateRoutes add env db req))) ->
    exists truck : Truck.t,
      In truck (Store.trucks db)
      /\ Truck.isAvailable truck = true
      /\ Route.truckId route = Truck.id truck
      /\ Route.driverId route = Truck.ownerId truck
      /\ Request.courierCompanyId req = Some (Route.courierCompanyId route)
      /\ Route.status route = "ALLOCATED"
      /\ (1 <= Route.totalPackages route)%nat
      /\ Route.estimatedEndTime route
         = (Route.estimatedStartTime route + 3600000)%Z
      /\ (forall m : Q,
             Truck.maxWeight truck = Some m -> 0 < m ->
             Route.utilizationPercent route <= 100)
      /\ (Js.truthyNum (Truck.maxWeight truck) = false ->
          Route.utilizationPercent route = 0).
Proof.
  intros add env db req route Hin.
  destruct (allocateRoutes_outcomes add env db req)
    as [(_ & Hnone & _) | (company & Hreq & _ & _ & _ & _ & Hcreated)].
  { rewrite Hnone in Hin. contradiction. }
  rewrite Hcreated in Hin. unfold commitAllocations in Hin.
  apply commitAllocations_routes in Hin.
  destruct Hin as [[] | (alloc & Hin & Hroute)].
  destruct (greedyAllocation_within_limits add _ _ _ Hin)
    as (Hne & Htruck & _ & _ & HlimW & _).
  apply findAvailableTrucks_In in Htruck.
  destruct Htruck as (Hstore & _ & Havail & _).
  exists (Allocation.truck alloc). rewrite Hroute.
  cbn [routeOfAllocation Route.truckId Route.driverId Route.courierCompanyId
         Route.status Route.totalPackages Route.estimatedEndTime
         Route.estimatedStartTime Route.utilizationPercent].
  repeat (split; [assumption || reflexivity |]).
  split.
  { destruct (Allocation.deliveries alloc); [contradiction | cbn; lia]. }
  split; [reflexivity |]. split.
  - intros m Hm Hpos. rewrite Hm in *. cbn [Js.truthyNum Js.toNumber].
    assert (Hnz : ~ m == 0) by lra.
    pose proof (withinLimit_nonzero _ _ HlimW Hnz) as Hle.
    destruct (Qeq_bool m 0) eqn:Hz.
    + apply Qeq_bool_iff in Hz. contradiction.
    + cbn [negb].
      assert (Hdiv : Allocation.totalWeight alloc / m <= 1)
        by (apply Qle_shift_div_r; [exact Hpos | lra]).
      lra.
  - intros Hfalsy. now rewrite Hfalsy.
Qed.

Lemma allocateRoutes_created_route_witness :
  exists route : Route.t,
    In route (createdRoutes
                (fst (allocateRoutes Js.addDouble Scenario.env
                        AllocationScenario.scenarioA
                        AllocationScenario.request)))
    /\ Route.utilizationPercent route <= 100.
Proof.
  eexists. split; [lazy; left; reflexivity |].
  edestruct (allocateRoutes_created_route Js.addDouble Scenario.env
               AllocationScenario.scenarioA AllocationScenario.request)
    as (truck & Hin & _ & Hid & _ & _ & _ & _ & _ & Hutil & _);
    [lazy; left; reflexivity |].
  cbn [In AllocationScenario.scenarioA Store.trucks] in Hin.
  destruct Hin as [<- | []].
  apply (Hutil 5); reflexivity.
Defined.

(** *** Edge cases of the greedy loop *)

Lemma allocateLoop_blocked (add : Q -> Q -> Q)
    (d : Delivery.t) (rest : list Delivery.t) :
  forall trucks : list Truck.t,
    (forall t, In t trucks ->
               fitsWeight add t (startFill 0) d
               && fitsVolume add t (startFill 0) d
               = false) ->
    allocateLoop add (d :: rest) trucks 0 [] = ([], 0%nat).
Proof.
  induction trucks as [| t trucks IH]; intros Hblocked;
    cbn [allocateLoop]; [reflexivity |].
  cbn [length Nat.leb skipn fillTruck].
  rewrite (Hblocked t (or_introl eq_refl)).
  cbn [startFill routeDeliveries deliveryIndex length Nat.ltb Nat.leb].
  apply IH. intros t' Ht'. apply Hblocked. now right.
Qed.

(** X19.  Head-of-line blocking: when the first delivery of the queue
    fits no available truck, even empty, no route is created whatever the
    deliveries behind it are; the answer is still 201, with no route, and
    the store is left as it was. *)
Theorem allocateRoutes_blocked_by_first_delivery :
  forall (add : Q -> Q -> Q) (env : Env) (db : Store.t)
         (req : Request.allocate) (company : Id)
         (d : Delivery.t) (rest : list Delivery.t),
    Request.courierCompanyId req = Some company ->
    company <> "" ->
    findPendingDeliveries db company = d :: rest ->
    findAvailableTrucks db company <> [] ->
    (forall t : Truck.t,
        In t (findAvailableTrucks db company) ->
        fitsWeight add t (startFill 0) d && fitsVolume add t (startFill 0) d
        = false) ->
    allocateRoutes add env db req
    = ({| statusCode := 201;
          body := BAllocated
                    ("Allocated 0 routes for "
                     ++ Js.showNat (S (length rest)) ++ " packages")%string
                    [] |}, db).
Proof.
  intros add env db req company d rest Hreq Hne Hp Ht Hblocked.
  unfold allocateRoutes. rewrite Hreq.
  destruct company as [| c s]; [contradiction |]. cbn [Js.truthyStr negb].
  rewrite Hp. cbn [length Nat.eqb].
  destruct (findAvailableTrucks db (String c s)) as [| t trucks] eqn:Htrucks;
    [contradiction |].
  cbn [length Nat.eqb]. unfold greedyAllocation.
  rewrite (allocateLoop_blocked add d rest (t :: trucks) Hblocked).
  reflexivity.
Qed.

Lemma allocateRoutes_blocked_by_first_delivery_witness :
  allocateRoutes Js.addDouble Scenario.env FurtherScenario.blockedQueue
    AllocationScenario.request
  = ({| statusCode := 201;
        body := BAllocated "Allocated 0 routes for 2 packages" [] |},
     FurtherScenario.blockedQueue).
Proof.
  apply (allocateRoutes_blocked_by_first_delivery Js.addDouble Scenario.env
           FurtherScenario.blockedQueue AllocationScenario.request "acme"
           (AllocationScenario.pending "d1" 9 10%Z)
           [AllocationScenario.pending "d2" 1 20%Z]).
  - reflexivity.
  - discriminate.
  - reflexivity.
  - discriminate.
  - intros t [<- | []]. reflexivity.
Defined.

Lemma fillTruck_unbounded (add : Q -> Q -> Q) (truck : Truck.t)
    (rest : list Delivery.t) :
  Js.truthyNum (Truck.maxWeight truck) = false ->
  Js.truthyNum (Truck.maxVolume truck) = false ->
  forall st : Fill,
    fillTruck add truck rest st = fold_left (takeDelivery add) rest st.
Proof.
  intros Hw Hv.
  assert (Hfit : forall st d,
             fitsWeight add truck st d && fitsVolume add truck st d = true).
  { intros st d. unfold fitsWeight, fitsVolume, Js.orInfinity.
    destruct (Truck.maxWeight truck) as [mw |];
      destruct (Truck.maxVolume truck) as [mv |]; cbn in Hw, Hv |- *;
      repeat match goal with
             | H : negb (Qeq_bool ?q 0) = false |- _ =>
                 apply negb_false_iff in H; rewrite H
             end; reflexivity. }
  induction rest as [| d rest IH]; intros st; cbn [fillTruck fold_left];
    [reflexivity |].
  rewrite Hfit. apply IH.
Qed.

Lemma allocateLoop_exhausted (add : Q -> Q -> Q) (pending : list Delivery.t)
    (trucks : list Truck.t) (idx : nat) (allocs : list Allocation.t) :
  (length pending <= idx)%nat ->
  allocateLoop add pending trucks idx allocs = (allocs, idx).
Proof.
  intros Hle. destruct trucks as [| t trucks]; cbn [allocateLoop];
    [reflexivity |].
  apply Nat.leb_le in Hle. now rewrite Hle.
Qed.

(** X20.  A first truck with no limit takes the whole queue: when both
    the [maxWeight] and the [maxVolume] of the first available truck are
    absent or 0, the run creates one allocation, for that truck, with all
    the pending deliveries in their order and the running totals of their
    weights and volumes, which are their sums when the additions are exact;
    the other trucks get nothing. *)
Theorem greedyAllocation_unbounded_first_truck :
  forall (add : Q -> Q -> Q) (pending : list Delivery.t) (truck : Truck.t)
         (trucks : list Truck.t),
    pending <> [] ->
    Js.truthyNum (Truck.maxWeight truck) = false ->
    Js.truthyNum (Truck.maxVolume truck) = false ->
    exists totalWeight totalVolume : Q,
      greedyAllocation add pending (truck :: trucks)
      = [Allocation.mk truck pending totalWeight totalVolume]
      /\ totalWeight = runningTotal add (map Delivery.cargoWeight pending)
      /\ totalVolume
         = runningTotal add (map Delivery.cargoVolumeLtrs pending)
      /\ (exactFrom add 0 (map Delivery.cargoWeight pending) ->
          totalWeight == sumWeight pending)
      /\ (exactFrom add 0 (map Delivery.cargoVolumeLtrs pending) ->
          totalVolume == sumVolume pending).
Proof.
  intros add pending truck trucks Hne Hw Hv.
  unfold greedyAllocation. cbn [allocateLoop].
  destruct pending as [| d pending]; [contradiction |].
  cbn [length Nat.leb skipn].
  rewrite (fillTruck_unbounded add truck (d :: pending) Hw Hv (startFill 0)).
  destruct (takeDelivery_fold add (d :: pending) (startFill 0))
    as (Hroute & Hidx & Hweight & Hvolume).
  cbn [startFill routeDeliveries deliveryIndex currentWeight currentVolume
         app Nat.add] in Hroute, Hidx, Hweight, Hvolume.
  rewrite Hroute, Hidx, Hweight, Hvolume. cbn [length Nat.ltb Nat.leb].
  rewrite allocateLoop_exhausted by (cbn [length]; lia).
  cbn [fst app].
  exists (runningTotal add (map Delivery.cargoWeight (d :: pending))),
    (runningTotal add (map Delivery.cargoVolumeLtrs (d :: pending))).
  split; [reflexivity |]. split; [reflexivity |]. split; [reflexivity |].
  split; intros Hexact; unfold runningTotal;
    rewrite (fold_left_exact add _ 0 Hexact);
    rewrite ?sumWeight_fold, ?sumVolume_fold; ring.
Qed.

Lemma greedyAllocation_unbounded_first_truck_witness :
  exists totalWeight totalVolume : Q,
    greedyAllocation Js.addDouble
      (findPendingDeliveries AllocationScenario.zeroLimit "acme")
      (findAvailableTrucks AllocationScenario.zeroLimit "acme")
    = [Allocation.mk (AllocationScenario.truck (Some 0))
         (findPendingDeliveries AllocationScenario.zeroLimit "acme")
         totalWeight totalVolume]
    /\ totalWeight == sumWeight
                        (findPendingDeliveries AllocationScenario.zeroLimit
                           "acme")
    /\ totalVolume == sumVolume
                        (findPendingDeliveries AllocationScenario.zeroLimit
                           "acme").
Proof.
  destruct (greedyAllocation_unbounded_first_truck Js.addDouble
              (findPendingDeliveries AllocationScenario.zeroLimit "acme")
              (AllocationScenario.truck (Some 0)) [])
    as (totalWeight & totalVolume & Hrun & _ & _ & Hweight & Hvolume).
  - discriminate.
  - reflexivity.
  - reflexivity.
  - exists totalWeight, totalVolume. split; [exact Hrun |]. split.
    + apply Hweight. lazy. split; [reflexivity | exact I].
    + apply Hvolume. lazy. split; [reflexivity | exact I].
Defined.

(** *** The queue of the next run *)

Lemma insertByTimeWindow_before_all (d : Delivery.t) (l : list Delivery.t) :
  (forall y, In y l ->
             (Delivery.timeWindowStart d <= Delivery.timeWindowStart y)%Z) ->
  insertByTimeWindow d l = d :: l.
Proof.
  destruct l as [| x l]; intros H; cbn [insertByTimeWindow]; [reflexivity |].
  specialize (H x (or_introl eq_refl)). apply Z.leb_le in H. now rewrite H.
Qed.

Lemma filter_insertByTimeWindow (q : Delivery.t -> bool) (d : Delivery.t)
    (l : list Delivery.t) :
  StronglySorted timeWindowLe l ->
  filter q (insertByTimeWindow d l)
  = if q d then insertByTimeWindow d (filter q l) else filter q l.
Proof.
  induction l as [| x l IH]; intros Hs; cbn [insertByTimeWindow filter].
  - destruct (q d); reflexivity.
  - inversion Hs as [| ? ? Hs' Hall]; subst.
    destruct (Z.leb_spec (Delivery.timeWindowStart d)
                (Delivery.timeWindowStart x)) as [Hle | Hgt].
    + cbn [filter]. destruct (q d) eqn:Hd; [| reflexivity].
      destruct (q x) eqn:Hx.
      * cbn [insertByTimeWindow]. apply Z.leb_le in Hle. now rewrite Hle.
      * symmetry. apply insertByTimeWindow_before_all.
        intros y Hy. apply filter_In in Hy. destruct Hy as [Hy _].
        rewrite Forall_forall in Hall. specialize (Hall y Hy).
        unfold timeWindowLe in Hall. lia.
    + cbn [filter]. rewrite (IH Hs').
      destruct (q d) eqn:Hd; destruct (q x) eqn:Hx; try reflexivity.
      cbn [insertByTimeWindow].
      destruct (Z.leb_spec (Delivery.timeWindowStart d)
                  (Delivery.timeWindowStart x)); [lia | reflexivity].
Qed.

Lemma orderByTimeWindowStart_StronglySorted (l : list Delivery.t) :
  StronglySorted timeWindowLe (orderByTimeWindowStart l).
Proof.
  apply Sorted_StronglySorted.
  - intros a b c Hab Hbc. unfold timeWindowLe in *. lia.
  - unfold orderByTimeWindowStart.
    induction l as [| d l IH]; cbn [fold_right]; [constructor |].
    now apply insertByTimeWindow_Sorted.
Qed.

Lemma orderByTimeWindowStart_filter (q : Delivery.t -> bool)
    (l : list Delivery.t) :
  orderByTimeWindowStart (filter q l)
  = filter q (orderByTimeWindowStart l).
Proof.
  induction l as [| d l IH]; [reflexivity |].
  cbn [filter]. change (orderByTimeWindowStart (d :: l))
    with (insertByTimeWindow d (orderByTimeWindowStart l)).
  rewrite filter_insertByTimeWindow
    by apply orderByTimeWindowStart_StronglySorted.
  destruct (q d); [| exact IH].
  change (orderByTimeWindowStart (d :: filter q l))
    with (insertByTimeWindow d (orderByTimeWindowStart (filter q l))).
  now rewrite IH.
Qed.

Lemma NoDup_ids_filter (q : Delivery.t -> bool) (l : list Delivery.t) :
  NoDup (map Delivery.id l) -> NoDup (map Delivery.id (filter q l)).
Proof.
  induction l as [| x l IH]; cbn [filter map]; [constructor |].
  intros Hnd. inversion Hnd as [| ? ? Hnotin Hnd']; subst.
  destruct (q x); [| now apply IH].
  cbn [map]. constructor; [| now apply IH].
  intros Hin. apply Hnotin. apply in_map_iff in Hin.
  destruct Hin as (y & Hid & Hy). apply filter_In in Hy.
  apply in_map_iff. exists y. tauto.
Qed.

Lemma NoDup_ids_insert (d : Delivery.t) (l : list Delivery.t) :
  ~ In (Delivery.id d) (map Delivery.id l) ->
  NoDup (map Delivery.id l) ->
  NoDup (map Delivery.id (insertByTimeWindow d l)).
Proof.
  induction l as [| x l IH]; cbn [insertByTimeWindow map].
  - intros _ _. repeat constructor. intros [].
  - intros Hnotin Hnd.
    destruct (Delivery.timeWindowStart d <=? Delivery.timeWindowStart x)%Z;
      cbn [map]; [now constructor |].
    inversion Hnd as [| ? ? Hx Hnd']; subst. constructor.
    + intros Hin. apply in_map_iff in Hin. destruct Hin as (y & Hid & Hy).
      apply insertByTimeWindow_In in Hy. destruct Hy as [-> | Hy].
      * apply Hnotin. left. now symmetry.
      * apply Hx. apply in_map_iff. now exists y.
    + apply IH; [| exact Hnd']. intros Hin. apply Hnotin. now right.
Qed.

Lemma NoDup_ids_orderBy (l : list Delivery.t) :
  NoDup (map Delivery.id l) ->
  NoDup (map Delivery.id (orderByTimeWindowStart l)).
Proof.
  induction l as [| d l IH]; intros Hnd; [constructor |].
  change (orderByTimeWindowStart (d :: l))
    with (insertByTimeWindow d (orderByTimeWindowStart l)).
  cbn [map] in Hnd. inversion Hnd as [| ? ? Hnotin Hnd']; subst.
  apply NoDup_ids_insert; [| now apply IH].
  intros Hin. apply Hnotin. apply in_map_iff in Hin.
  destruct Hin as (y & Hid & Hy).
  apply (proj1 (orderByTimeWindowStart_In _ _)) in Hy.
  apply in_map_iff. now exists y.
Qed.

(** Dropping the rows whose identifier is among those of the first [k]
    rows drops the first [k] rows, when the identifiers are unique. *)
Lemma filter_out_prefix (l : list Delivery.t) :
  NoDup (map Delivery.id l) ->
  forall k : nat,
    filter (fun d => negb (Js.includes (map Delivery.id (firstn k l))
                             (Delivery.id d))) l
    = skipn k l.
Proof.
  induction l as [| x l IH]; intros Hnd k.
  - now destruct k.
  - destruct k as [| k].
    + cbn [firstn map skipn]. apply forallb_filter_id.
      apply forallb_forall. intros; reflexivity.
    + cbn [firstn map skipn filter].
      unfold Js.includes at 1. cbn [existsb]. rewrite String.eqb_refl.
      cbn [orb negb].
      inversion Hnd as [| ? ? Hnotin Hnd']; subst.
      rewrite <- (IH Hnd' k). apply filter_ext_in.
      intros d Hd. unfold Js.includes. cbn [existsb].
      destruct (String.eqb_spec (Delivery.id d) (Delivery.id x)) as [Heq | _];
        [| reflexivity].
      exfalso. apply Hnotin. rewrite <- Heq. now apply in_map.
Qed.

Lemma allocatedIds_concat (allocs : list Allocation.t) :
  allocatedIds allocs
  = map Delivery.id (concat (map Allocation.deliveries allocs)).
Proof.
  unfold allocatedIds. induction allocs as [| a allocs IH];
    cbn [flat_map map concat]; [reflexivity |].
  now rewrite map_app, IH.
Qed.

(** X21.  The next run starts where this one stopped: when the
    deliveries have unique identifiers, the queue of the company after a
    run is the queue before it without the deliveries that the run has put
    on routes, which are its first ones up to the final value of the
    shared index. *)
Theorem allocateRoutes_next_queue :
  forall (add : Q -> Q -> Q) (env : Env) (db : Store.t)
         (req : Request.allocate) (company : Id),
    Request.courierCompanyId req = Some company ->
    company <> "" ->
    NoDup (map Delivery.id (Store.deliveries db)) ->
    findPendingDeliveries (snd (allocateRoutes add env db req)) company
    = skipn (snd (allocateLoop add (findPendingDeliveries db company)
                    (findAvailableTrucks db company) 0 []))
        (findPendingDeliveries db company).
Proof.
  intros add env db req company Hreq Hne Hnd.
  destruct (allocateRoutes_outcomes add env db req)
    as [(Hsame & _ & Hcode) | (company' & Hreq' & _ & _ & _ & Hafter & _)].
  - rewrite Hsame. revert Hcode. unfold allocateRoutes. rewrite Hreq.
    destruct company as [| c s]; [contradiction |].
    cbn [Js.truthyStr negb].
    destruct (findPendingDeliveries db (String c s)) as [| d pending] eqn:Hp;
      [intros _; symmetry; apply skipn_nil |].
    destruct (findAvailableTrucks db (String c s)) as [| t trucks].
    + intros _. reflexivity.
    + cbn [length Nat.eqb].
      destruct (commitAllocations env (String c s) db _). cbn [fst statusCode].
      intros H. now contradiction H.
  - rewrite Hreq in Hreq'. injection Hreq' as <-.
    rewrite Hafter. unfold commitAllocations.
    set (pending := findPendingDeliveries db company).
    set (trucks := findAvailableTrucks db company).
    destruct (commitAllocations_effect env company
                (greedyAllocation add pending trucks) db [])
      as (g & h & new & Hd & _ & _ & _ & _ & _ & _ & _
          & _ & Hgout & Hgin & _).
    unfold findPendingDeliveries at 1. rewrite Hd.
    assert (Hfilter :
              forall l : list Delivery.t,
                filter (fun d =>
                          String.eqb (Delivery.courierCompanyId d) company
                          && String.eqb (Delivery.status d) "PENDING")
                  (map g l)
                = filter (fun d =>
                            negb (Js.includes
                                    (allocatedIds
                                       (greedyAllocation add pending trucks))
                                    (Delivery.id d)))
                    (filter (fun d =>
                               String.eqb (Delivery.courierCompanyId d)
                                 company
                               && String.eqb (Delivery.status d) "PENDING")
                       l)).
    { intros l. induction l as [| d l IH]; [reflexivity |].
      cbn [map filter].
      destruct (Js.includes (allocatedIds (greedyAllocation add pending trucks))
                  (Delivery.id d)) eqn:Hin.
      - destruct (Hgin d Hin) as (alloc & r & _ & _ & _ & _ & ->).
        cbn [allocateDelivery Delivery.status Delivery.courierCompanyId].
        replace (String.eqb "ALLOCATED" "PENDING") with false by reflexivity.
        rewrite andb_false_r.
        destruct (String.eqb (Delivery.courierCompanyId d) company
                  && String.eqb (Delivery.status d) "PENDING");
          cbn [filter]; rewrite ?Hin; cbn [negb]; exact IH.
      - rewrite (Hgout d Hin).
        destruct (String.eqb (Delivery.courierCompanyId d) company
                  && String.eqb (Delivery.status d) "PENDING");
          cbn [filter]; rewrite ?Hin; cbn [negb]; now rewrite IH. }
    rewrite Hfilter, orderByTimeWindowStart_filter.
    fold (findPendingDeliveries db company). fold pending.
    rewrite allocatedIds_concat. unfold greedyAllocation.
    rewrite (allocateLoop_prefix add pending trucks 0 [])
      by (lia || reflexivity).
    apply filter_out_prefix. unfold pending, findPendingDeliveries.
    apply NoDup_ids_orderBy. now apply NoDup_ids_filter.
Qed.

Lemma allocateRoutes_next_queue_witness :
  findPendingDeliveries
    (snd (allocateRoutes Js.addDouble Scenario.env AllocationScenario.scenarioA
            AllocationScenario.request)) "acme"
  = [AllocationScenario.pending "d3" 4 30%Z].
Proof.
  rewrite (allocateRoutes_next_queue Js.addDouble Scenario.env
             AllocationScenario.scenarioA AllocationScenario.request "acme").
  - reflexivity.
  - reflexivity.
  - discriminate.
  - cbn. repeat constructor; cbn; intuition discriminate.
Defined.

(** ** Merge outside the opportunity flow *)




(** X22.  The failures of [confirmMerge] write nothing: an unknown
    searching or candidate truck is answered 404; a candidate truck with no
    delivery that is neither COMPLETED nor CANCELLED is answered 500, and
    so is a pair of trucks none of whose owners is a user of the store. *)
Theorem confirmMerge_failures :
  forall (db : Store.t) (searchingTruckId candidateTruckId : Id),
    (findTruck db searchingTruckId = None
     \/ findTruck db candidateTruckId = None ->
     confirmMerge db searchingTruckId candidateTruckId
     = ({| mergeStatus := 404;
           mergeBody := MergeFailure "Truck(s) not found" |}, db))
    /\
    (forall searchingTruck candidateTruck : Truck.t,
        findTruck db searchingTruckId = Some searchingTruck ->
        findTruck db candidateTruckId = Some candidateTruck ->
        activeDeliveriesOf db candidateTruck = []
        \/ findDrivers db [Truck.ownerId searchingTruck;
                           Truck.ownerId candidateTruck] = [] ->
        confirmMerge db searchingTruckId candidateTruckId
        = ({| mergeStatus := 500;
              mergeBody := MergeFailure "Failed to confirm merge" |}, db)).
Proof.
  intros db searchingTruckId candidateTruckId. unfold confirmMerge. split.
  - intros [-> | H]; [reflexivity |]. rewrite H.
    destruct (findTruck db searchingTruckId); reflexivity.
  - intros searchingTruck candidateTruck -> -> [-> | ->].
    + reflexivity.
    + cbn [sortByWorkloadDesc fold_right hd_error].
      destruct (hd_error (activeDeliveriesOf db candidateTruck));
        reflexivity.
Qed.

Lemma confirmMerge_failures_witness :
  confirmMerge (HandshakeScenario.store 50 0 20 0) "t1" "t9"
  = ({| mergeStatus := 404;
        mergeBody := MergeFailure "Truck(s) not found" |},
     HandshakeScenario.store 50 0 20 0)
  /\ confirmMerge FurtherScenario.idleCandidate "t1" "t2"
     = ({| mergeStatus := 500;
           mergeBody := MergeFailure "Failed to confirm merge" |},
        FurtherScenario.idleCandidate).
Proof.
  split.
  - apply (proj1 (confirmMerge_failures (HandshakeScenario.store 50 0 20 0)
                    "t1" "t9")).
    right. reflexivity.
  - apply (proj2 (confirmMerge_failures FurtherScenario.idleCandidate
                    "t1" "t2")
             (HandshakeScenario.truck "t1" "u1")
             (HandshakeScenario.truck "t2" "u2"));
      [reflexivity | reflexivity | left; reflexivity].
Defined.



(** ** Validity of an e-way bill *)

(** X24.  The validity of a bill is a whole number of days, at least one;
    at 200 km a day it covers the distance, and no smaller number of days
    that is at least one does; a longer distance never gives a shorter
    validity.  [calculateValidity] moves the date forward by that number of
    days and keeps the time of the day. *)
Theorem validityDays_bounds :
  forall distanceKm : Q,
    (1 <= validityDays distanceKm)%Z
    /\ distanceKm <= inject_Z (200 * validityDays distanceKm)
    /\ (validityDays distanceKm = 1%Z
        \/ inject_Z (200 * (validityDays distanceKm - 1)) < distanceKm)
    /\ (forall longer : Q,
           distanceKm <= longer ->
           (validityDays distanceKm <= validityDays longer)%Z)
    /\ (forall today : LocalDate,
           (dayNumber today
            < dayNumber (calculateValidity today distanceKm))%Z
           /\ timeOfDay (calculateValidity today distanceKm)
              = timeOfDay today).
Proof.
  intros distanceKm. unfold calculateValidity, validityDays.
  cbn [dayNumber timeOfDay].
  pose proof (Qle_ceiling (distanceKm / 200)) as Hup.
  pose proof (Qceiling_lt (distanceKm / 200)) as Hlow.
  assert (Hdiv : distanceKm == 200 * (distanceKm / 200))
    by (field; discriminate).
  set (c := Qceiling (distanceKm / 200)) in *.
  split; [lia |]. split; [| split; [| split]].
  - rewrite inject_Z_mult.
    assert (Hc : inject_Z c <= inject_Z (Z.max 1 c))
      by (rewrite <- Zle_Qle; lia).
    change (inject_Z 200) with 200. lra.
  - destruct (Z.max_spec 1 c) as [[Hlt ->] | [Hle ->]]; [| now left].
    right. rewrite inject_Z_mult. change (inject_Z 200) with 200. lra.
  - intros longer Hle.
    assert (Hmono : (c <= Qceiling (longer / 200))%Z).
    { apply Qceiling_resp_le. apply Qle_shift_div_l; [reflexivity |].
      assert (H : distanceKm / 200 * 200 == distanceKm)
        by (field; discriminate).
      now rewrite H. }
    lia.
  - intros today. split; [lia | reflexivity].
Qed.

Lemma validityDays_bounds_witness :
  (validityDays 150 <= validityDays 450)%Z /\ validityDays 450 = 3%Z.
Proof.
  split; [| reflexivity].
  apply (proj1 (proj2 (proj2 (proj2 (validityDays_bounds 150))))).
  discriminate.
Defined.

(** ** Backhaul opportunities *)

Lemma insertByDistance_In (r x : NearbyShipment.t)
    (l : list NearbyShipment.t) :
  In x (insertByDistance r l) <-> x = r \/ In x l.
Proof.
  induction l as [| y l IH]; cbn [insertByDistance].
  - cbn. intuition congruence.
  - destruct (Js.ltb (NearbyShipment.distance y) (NearbyShipment.distance r));
      cbn [In]; [| intuition congruence].
    rewrite IH. intuition congruence.
Qed.

Lemma orderByDistance_In (x : NearbyShipment.t)
    (l : list NearbyShipment.t) :
  In x (orderByDistance l) <-> In x l.
Proof.
  unfold orderByDistance.
  induction l as [| r l IH]; cbn [fold_right]; [reflexivity |].
  rewrite insertByDistance_In, IH. cbn [In]. intuition congruence.
Qed.

Lemma insertByDistance_length (r : NearbyShipment.t)
    (l : list NearbyShipment.t) :
  length (insertByDistance r l) = S (length l).
Proof.
  induction l as [| y l IH]; cbn [insertByDistance]; [reflexivity |].
  destruct (Js.ltb _ _); cbn [length]; [now rewrite IH | reflexivity].
Qed.

Lemma orderByDistance_length (l : list NearbyShipment.t) :
  length (orderByDistance l) = length l.
Proof.
  unfold orderByDistance.
  induction l as [| r l IH]; cbn [fold_right length]; [reflexivity |].
  now rewrite insertByDistance_length, IH.
Qed.

Lemma insertByDistance_Sorted (r : NearbyShipment.t)
    (l : list NearbyShipment.t) :
  Sorted distanceLe l -> Sorted distanceLe (insertByDistance r l).
Proof.
  induction l as [| x l IH]; intros Hs; cbn [insertByDistance].
  - repeat constructor.
  - destruct (Js.ltb (NearbyShipment.distance x) (NearbyShipment.distance r))
      eqn:Hlt.
    + apply ltb_true_iff in Hlt.
      inversion Hs as [| ? ? Hs' Hhd]; subst. constructor; [now apply IH |].
      destruct l as [| y l]; cbn [insertByDistance].
      * constructor. unfold distanceLe. lra.
      * destruct (Js.ltb (NearbyShipment.distance y)
                    (NearbyShipment.distance r));
          constructor; [now inversion Hhd | unfold distanceLe; lra].
    + constructor; [exact Hs |]. constructor. unfold distanceLe.
      apply Qnot_lt_le. intros H. apply ltb_true_iff in H. congruence.
Qed.

Lemma orderByDistance_StronglySorted (l : list NearbyShipment.t) :
  StronglySorted distanceLe (orderByDistance l).
Proof.
  apply Sorted_StronglySorted.
  - intros a b c Hab Hbc. unfold distanceLe in *. lra.
  - unfold orderByDistance.
    induction l as [| r l IH]; cbn [fold_right]; [constructor |].
    now apply insertByDistance_Sorted.
Qed.

(** The query over the shipments fails exactly when the expression
    raises on a marketplace load that is PENDING and has a pickup
    position. *)
Lemma shipmentsQueryRaises_true_iff
    (haversineKm : Q -> Q -> Q -> Q -> option Q)
    (shipments : list Shipment.t) (lat lng : Q) :
  shipmentsQueryRaises haversineKm shipments lat lng = true
  <-> exists (s : Shipment.t) (rowLat rowLng : Q),
        In s shipments
        /\ Shipment.isMarketplaceLoad s = true
        /\ Shipment.status s = "PENDING"
        /\ Shipment.pickupLat s = Some rowLat
        /\ Shipment.pickupLng s = Some rowLng
        /\ haversineKm lat lng rowLat rowLng = None.
Proof.
  unfold shipmentsQueryRaises. rewrite existsb_exists. split.
  - intros (s & Hin & Hs). apply andb_true_iff in Hs.
    destruct Hs as [Hs Hkm]. apply andb_true_iff in Hs.
    destruct Hs as [Hm Hst]. apply String.eqb_eq in Hst.
    destruct (Shipment.pickupLat s) as [rowLat |] eqn:Hlat;
      [| discriminate].
    destruct (Shipment.pickupLng s) as [rowLng |] eqn:Hlng;
      [| discriminate].
    destruct (haversineKm lat lng rowLat rowLng) eqn:Hrow;
      [discriminate |].
    exists s, rowLat, rowLng. repeat split; assumption.
  - intros (s & rowLat & rowLng & Hin & Hm & Hst & Hlat & Hlng & Hkm).
    exists s. split; [exact Hin |].
    rewrite Hm, Hst, Hlat, Hlng, Hkm. reflexivity.
Qed.

(** X25.  The validation of [getOpportunities]: a missing or empty
    [truckId] is answered 400; an unknown truck is answered 404, and so is
    a truck whose latitude or longitude is absent or 0, as on the equator
    or on the prime meridian. *)
Theorem getOpportunities_validation :
  forall (haversineKm : Q -> Q -> Q -> Q -> option Q) (db : Store.t)
         (shipments : list Shipment.t) (truckId : option Id),
    (truckId = None \/ truckId = Some "" ->
     getOpportunities haversineKm db shipments truckId
     = {| backhaulStatus := 400;
          backhaulBody := BackhaulFailure "truckId is required" |})
    /\
    (forall i : Id,
        truckId = Some i -> i <> "" -> findTruck db i = None ->
        getOpportunities haversineKm db shipments truckId
        = {| backhaulStatus := 404;
             backhaulBody := BackhaulFailure "Truck or location not found" |})
    /\
    (forall (i : Id) (truck : Truck.t),
        truckId = Some i -> i <> "" -> findTruck db i = Some truck ->
        Js.truthyNum (Truck.currentLat truck) = false
        \/ Js.truthyNum (Truck.currentLng truck) = false ->
        getOpportunities haversineKm db shipments truckId
        = {| backhaulStatus := 404;
             backhaulBody := BackhaulFailure "Truck or location not found" |}).
Proof.
  intros haversineKm db shipments truckId. unfold getOpportunities.
  split; [| split].
  - intros [-> | ->]; reflexivity.
  - intros i -> Hne ->. destruct i; [contradiction | reflexivity].
  - intros i truck -> Hne -> Hpos.
    destruct i as [| c s]; [contradiction |]. cbn [Js.truthyStr negb].
    destruct Hpos as [-> | ->]; cbn [negb orb]; [reflexivity |].
    now rewrite orb_true_r.
Qed.

Lemma getOpportunities_validation_witness :
  getOpportunities ProximityScenario.totalKm ProximityScenario.store []
    (Some "t1")
  = {| backhaulStatus := 404;
       backhaulBody := BackhaulFailure "Truck or location not found" |}.
Proof.
  apply (proj2 (proj2 (getOpportunities_validation ProximityScenario.totalKm
                         ProximityScenario.store [] (Some "t1")))
           "t1" (ProximityScenario.truck "t1" "u1" 0 10 10));
    [reflexivity | discriminate | reflexivity | left; reflexivity].
Defined.

(** X26.  For a truck with a latitude and a longitude other than 0, the
    query is run.  When the database evaluates its expression on every
    marketplace load that is PENDING and has a pickup position, the answer
    is 200 and its rows are in ascending order of distance; they are those
    loads whose pickup position is strictly under 20 km from the truck,
    each of them once for each row of the table.  When the expression
    raises on one such load, as it can for a load at the position of the
    truck, the query fails and the answer is 500. *)
Theorem getOpportunities_rows :
  forall (haversineKm : Q -> Q -> Q -> Q -> option Q) (db : Store.t)
         (shipments : list Shipment.t) (i : Id) (truck : Truck.t)
         (lat lng : Q),
    i <> "" ->
    findTruck db i = Some truck ->
    Truck.currentLat truck = Some lat -> ~ lat == 0 ->
    Truck.currentLng truck = Some lng -> ~ lng == 0 ->
    ((forall (s : Shipment.t) (rowLat rowLng : Q),
         In s shipments ->
         Shipment.isMarketplaceLoad s = true ->
         Shipment.status s = "PENDING" ->
         Shipment.pickupLat s = Some rowLat ->
         Shipment.pickupLng s = Some rowLng ->
         haversineKm lat lng rowLat rowLng <> None) ->
     exists data : list NearbyShipment.t,
       getOpportunities haversineKm db shipments (Some i)
       = {| backhaulStatus := 200; backhaulBody := BackhaulData data |}
       /\ StronglySorted distanceLe data
       /\ length data
          = length (shipmentsWithin20 haversineKm shipments lat lng)
       /\ (forall row : NearbyShipment.t,
              In row data
              <-> exists (s : Shipment.t) (rowLat rowLng distance : Q),
                    In s shipments
                    /\ Shipment.isMarketplaceLoad s = true
                    /\ Shipment.status s = "PENDING"
                    /\ Shipment.pickupLat s = Some rowLat
                    /\ Shipment.pickupLng s = Some rowLng
                    /\ haversineKm lat lng rowLat rowLng = Some distance
                    /\ distance < 20
                    /\ row = NearbyShipment.mk (Shipment.id s)
                               (Shipment.pickupLocation s) rowLat rowLng
                               (Shipment.dropLocation s)
                               (Shipment.cargoType s)
                               (Shipment.cargoWeight s) distance))
    /\
    ((exists (s : Shipment.t) (rowLat rowLng : Q),
         In s shipments
         /\ Shipment.isMarketplaceLoad s = true
         /\ Shipment.status s = "PENDING"
         /\ Shipment.pickupLat s = Some rowLat
         /\ Shipment.pickupLng s = Some rowLng
         /\ haversineKm lat lng rowLat rowLng = None) ->
     getOpportunities haversineKm db shipments (Some i)
     = {| backhaulStatus := 500;
          backhaulBody := BackhaulFailure "Internal server error" |}).
Proof.
  intros haversineKm db shipments i truck lat lng Hne Hfind Hlat Hlatnz
    Hlng Hlngnz.
  assert (Hrun : getOpportunities haversineKm db shipments (Some i)
                 = match nearbyShipmentsQuery haversineKm shipments lat lng
                   with
                   | Some nearbyShipments =>
                       {| backhaulStatus := 200;
                          backhaulBody := BackhaulData nearbyShipments |}
                   | None =>
                       {| backhaulStatus := 500;
                          backhaulBody :=
                            BackhaulFailure "Internal server error" |}
                   end).
  { unfold getOpportunities. destruct i as [| c s]; [contradiction |].
    cbn [Js.truthyStr negb]. rewrite Hfind, Hlat, Hlng.
    cbn [Js.truthyNum Js.toNumber].
    destruct (Qeq_bool lat 0) eqn:H1;
      [apply Qeq_bool_iff in H1; contradiction |].
    destruct (Qeq_bool lng 0) eqn:H2;
      [apply Qeq_bool_iff in H2; contradiction |].
    reflexivity. }
  rewrite Hrun. unfold nearbyShipmentsQuery. split.
  - intros Hdefined.
    destruct (shipmentsQueryRaises haversineKm shipments lat lng) eqn:Hraise.
    { exfalso. apply shipmentsQueryRaises_true_iff in Hraise.
      destruct Hraise
        as (s & rowLat & rowLng & Hs & Hm & Hst & HrL & HrG & Hkm).
      exact (Hdefined s rowLat rowLng Hs Hm Hst HrL HrG Hkm). }
    exists (orderByDistance (shipmentsWithin20 haversineKm shipments lat lng)).
    split; [reflexivity |].
    split; [apply orderByDistance_StronglySorted |].
    split; [apply orderByDistance_length |].
    intros row. rewrite orderByDistance_In. unfold shipmentsWithin20.
    rewrite in_flat_map. split.
    + intros (s & Hs & Hrow).
      destruct (Shipment.isMarketplaceLoad s) eqn:Hm; [| contradiction].
      destruct (String.eqb_spec (Shipment.status s) "PENDING") as [Hst | _];
        [| contradiction].
      cbn [andb] in Hrow.
      destruct (Shipment.pickupLat s) as [rowLat |] eqn:HrL;
        [| contradiction].
      destruct (Shipment.pickupLng s) as [rowLng |] eqn:HrG;
        [| contradiction].
      destruct (haversineKm lat lng rowLat rowLng) as [distance |] eqn:Hkm;
        [| contradiction].
      destruct (Js.ltb distance 20) eqn:Hlt; [| contradiction].
      destruct Hrow as [<- | []]. apply ltb_true_iff in Hlt.
      exists s, rowLat, rowLng, distance. repeat split; assumption.
    + intros (s & rowLat & rowLng & distance & Hs & Hm & Hst & HrL & HrG
              & Hkm & Hlt & ->).
      exists s. split; [exact Hs |].
      rewrite Hm, Hst, HrL, HrG, Hkm. cbn [String.eqb andb].
      apply ltb_true_iff in Hlt. rewrite Hlt.
      replace (String.eqb "PENDING" "PENDING") with true by reflexivity.
      now left.
  - intros Hraise. apply shipmentsQueryRaises_true_iff in Hraise.
    now rewrite Hraise.
Qed.

Lemma getOpportunities_rows_witness :
  (exists data : list NearbyShipment.t,
      getOpportunities ProximityScenario.raisingKm
        FurtherScenario.backhaulStore FurtherScenario.shipments (Some "t1")
      = {| backhaulStatus := 200; backhaulBody := BackhaulData data |}
      /\ StronglySorted distanceLe data
      /\ length data = 2%nat)
  /\ getOpportunities ProximityScenario.raisingKm
       FurtherScenario.backhaulStore FurtherScenario.shipmentsWithOneAtTruck
       (Some "t1")
     = {| backhaulStatus := 500;
          backhaulBody := BackhaulFailure "Internal server error" |}.
Proof.
  split.
  - destruct (proj1 (getOpportunities_rows ProximityScenario.raisingKm
                       FurtherScenario.backhaulStore
                       FurtherScenario.shipments "t1"
                       (Truck.mk "t1" "acme" true "APPROVED" "u1" (Some 20)
                          (Some 20) None None (Some (5 # 2)) (Some 1) None)
                       (5 # 2) 1 ltac:(discriminate) eq_refl eq_refl
                       ltac:(discriminate) eq_refl ltac:(discriminate)))
      as (data & Hresponse & Hsorted & Hlength & _).
    + intros s rowLat rowLng Hin _ _ Hlat Hlng.
      cbn [In FurtherScenario.shipments] in Hin.
      destruct Hin as [<- | [<- | [<- | []]]];
        injection Hlat as <-; injection Hlng as <-; discriminate.
    + exists data. split; [exact Hresponse |]. split; [exact Hsorted |].
      rewrite Hlength. reflexivity.
  - apply (proj2 (getOpportunities_rows ProximityScenario.raisingKm
                    FurtherScenario.backhaulStore
                    FurtherScenario.shipmentsWithOneAtTruck "t1"
                    (Truck.mk "t1" "acme" true "APPROVED" "u1" (Some 20)
                       (Some 20) None None (Some (5 # 2)) (Some 1) None)
                    (5 # 2) 1 ltac:(discriminate) eq_refl eq_refl
                    ltac:(discriminate) eq_refl ltac:(discriminate))).
    exists (Shipment.mk "s4" "Quay" (Some (5 # 2)) (Some 1) "Market"
              (Some "FOOD") (Some 1) true "PENDING"), (5 # 2), 1.
    split; [do 3 right; left; reflexivity |]. repeat split.
Defined.

(** ** Synergy search *)


(** X27.  The failures of [searchSynergy] emit nothing: an unknown truck
    is answered 404, and a truck all of whose deliveries are COMPLETED or
    CANCELLED is answered 400. *)
Theorem searchSynergy_failures :
  forall (calculateDistance : Q -> Q -> Q -> Q -> Q)
         (trucks : list SynergyTruck.t) (truckId : Id),
    (find (fun t => String.eqb (SynergyTruck.id t) truckId) trucks = None ->
     searchSynergy calculateDistance trucks truckId
     = ({| searchStatus := 404;
           searchBody := SearchFailure "Truck not found" |}, []))
    /\
    (forall searchingTruck : SynergyTruck.t,
        find (fun t => String.eqb (SynergyTruck.id t) truckId) trucks
        = Some searchingTruck ->
        (forall d, In d (SynergyTruck.deliveries searchingTruck) ->
                   SynergyDelivery.status d = "COMPLETED"
                   \/ SynergyDelivery.status d = "CANCELLED") ->
        searchSynergy calculateDistance trucks truckId
        = ({| searchStatus := 400;
              searchBody := SearchFailure "Truck has no active delivery" |},
           [])).
Proof.
  intros calculateDistance trucks truckId. unfold searchSynergy. split.
  - intros ->. reflexivity.
  - intros searchingTruck -> Hdone.
    assert (Hnone : activeSynergyDeliveries searchingTruck = []).
    { unfold activeSynergyDeliveries.
      induction (SynergyTruck.deliveries searchingTruck) as [| d l IH];
        [reflexivity |].
      cbn [filter].
      assert (Hd : isActiveStatus (SynergyDelivery.status d) = false).
      { destruct (Hdone d (or_introl eq_refl)) as [-> | ->]; reflexivity. }
      rewrite Hd. apply IH. intros d' Hd'. apply Hdone. now right. }
    now rewrite Hnone.
Qed.

Lemma searchSynergy_failures_witness :
  searchSynergy ProximityScenario.flatKm FurtherScenario.synergyTrucks "t3"
  = ({| searchStatus := 400;
        searchBody := SearchFailure "Truck has no active delivery" |}, []).
Proof.
  apply (proj2 (searchSynergy_failures ProximityScenario.flatKm
                  FurtherScenario.synergyTrucks "t3")
           (SynergyTruck.mk "t3" "KA-03" (Some 10) (Some 0) (Some 0)
              [SynergyDelivery.mk "COMPLETED" (Some 1) (Some "Harbour")
                 (Some "FOOD")])).
  - reflexivity.
  - intros d [<- | []]. now left.
Defined.



(** ** Proximity detection: first fit and repeated detection *)




(** The loop over the candidates reads the trucks, the routes, the hubs
    and the deliveries of the store; the opportunities only give the new
    identifier. *)
Lemma detectLoop_same_tables (haversineKm : Q -> Q -> Q -> Q -> option Q)
    (env : Env) (db db' : Store.t) (lat lng : Q) (truckA : Truck.t)
    (routeA : Route.t) :
  Store.trucks db' = Store.trucks db ->
  Store.routes db' = Store.routes db ->
  Store.hubs db' = Store.hubs db ->
  Store.deliveries db' = Store.deliveries db ->
  forall (nearbyTrucks : list NearbyTruck.t) (m : Match),
    detectLoop haversineKm env db lat lng truckA routeA nearbyTrucks
    = LoopMatch m ->
    exists m' : Match,
      detectLoop haversineKm env db' lat lng truckA routeA nearbyTrucks
      = LoopMatch m'
      /\ Opportunity.setStatus "PENDING" (matchOpportunity m')
         = Opportunity.mk
             (genId env (length (Store.opportunities db')))
             (Opportunity.route1Id (matchOpportunity m))
             (Opportunity.route2Id (matchOpportunity m))
             (Opportunity.overlapDistanceKm (matchOpportunity m))
             (Opportunity.overlapStartTime (matchOpportunity m))
             (Opportunity.overlapEndTime (matchOpportunity m))
             (Opportunity.nearestHubId (matchOpportunity m))
             (Opportunity.overlapCenterLat (matchOpportunity m))
             (Opportunity.overlapCenterLng (matchOpportunity m))
             (Opportunity.estimatedMeetTime (matchOpportunity m))
             (Opportunity.timeWindow (matchOpportunity m))
             (Opportunity.eligibleDeliveryIds (matchOpportunity m))
             (Opportunity.truck1DistanceBefore (matchOpportunity m))
             (Opportunity.truck1DistanceAfter (matchOpportunity m))
             (Opportunity.truck2DistanceBefore (matchOpportunity m))
             (Opportunity.truck2DistanceAfter (matchOpportunity m))
             (Opportunity.totalDistanceSaved (matchOpportunity m))
             (Opportunity.potentialCarbonSaved (matchOpportunity m))
             (Opportunity.spaceRequiredVolume (matchOpportunity m))
             (Opportunity.spaceRequiredWeight (matchOpportunity m))
             (Opportunity.truck1SpaceAvailable (matchOpportunity m))
             (Opportunity.truck2SpaceAvailable (matchOpportunity m))
             (Opportunity.expiresAt (matchOpportunity m))
             "PENDING"
             (Opportunity.acceptedByRoute1At (matchOpportunity m))
             (Opportunity.acceptedByRoute2At (matchOpportunity m)).
Proof.
  intros Ht Hr Hh Hd.
  assert (HfindTruck : forall i, findTruck db' i = findTruck db i)
    by (intros i; unfold findTruck; now rewrite Ht).
  assert (Hactive : forall t, activeRoutes db' t = activeRoutes db t)
    by (intros t; unfold activeRoutes; now rewrite Hr).
  assert (Hhubs : nearbyHubsQuery haversineKm db' lat lng
                  = nearbyHubsQuery haversineKm db lat lng)
    by (unfold nearbyHubsQuery; now rewrite Hh).
  assert (Hdel : forall r, routeDeliveriesOf db' r = routeDeliveriesOf db r)
    by (intros r; unfold routeDeliveriesOf; now rewrite Hd).
  induction nearbyTrucks as [| c rest IH]; intros m; cbn [detectLoop];
    [discriminate |].
  rewrite HfindTruck.
  destruct (findTruck db (NearbyTruck.id c)) as [truckB |]; [| apply IH].
  rewrite Hactive.
  destruct (activeRoutes db truckB) as [| routeB routes]; [apply IH |].
  rewrite Hhubs.
  destruct (nearbyHubsQuery haversineKm db lat lng) as [[| hub others] |];
    [apply IH | | discriminate].
  destruct (canAbsorb truckA truckB); cbn [negb]; [| apply IH].
  intros [= <-]. eexists. split; [reflexivity |].
  unfold newOpportunity, Opportunity.setStatus.
  cbn [matchOpportunity newOpportunity Opportunity.setStatus
         Opportunity.id Opportunity.route1Id Opportunity.route2Id
         Opportunity.overlapDistanceKm Opportunity.overlapStartTime
         Opportunity.overlapEndTime Opportunity.nearestHubId
         Opportunity.overlapCenterLat Opportunity.overlapCenterLng
         Opportunity.estimatedMeetTime Opportunity.timeWindow
         Opportunity.eligibleDeliveryIds Opportunity.truck1DistanceBefore
         Opportunity.truck1DistanceAfter Opportunity.truck2DistanceBefore
         Opportunity.truck2DistanceAfter Opportunity.totalDistanceSaved
         Opportunity.potentialCarbonSaved Opportunity.spaceRequiredVolume
         Opportunity.spaceRequiredWeight Opportunity.truck1SpaceAvailable
         Opportunity.truck2SpaceAvailable Opportunity.expiresAt
         Opportunity.status Opportunity.acceptedByRoute1At
         Opportunity.acceptedByRoute2At].
  unfold routeDeliveriesOf. now rewrite Hd.
Qed.

(** X30.  [detect] does not look at the opportunities that exist: when a
    detection has created an opportunity, the same detection on the
    resulting store creates a second PENDING opportunity on the same two
    routes, and the store then holds both. *)
Theorem detect_twice_duplicates :
  forall (haversineKm : Q -> Q -> Q -> Q -> option Q) (env : Env)
         (db : Store.t) (truckId : Id) (lat lng : Q) (first : Opportunity.t)
         (after : Store.t) (events : list Event),
    detectAbsorptionOpportunity haversineKm env db truckId lat lng
    = (Some first, after, events) ->
    exists second : Opportunity.t,
      fst (fst (detectAbsorptionOpportunity haversineKm env after truckId
                  lat lng))
      = Some second
      /\ Opportunity.route1Id second = Opportunity.route1Id first
      /\ Opportunity.route2Id second = Opportunity.route2Id first
      /\ Opportunity.status first = "PENDING"
      /\ Opportunity.status second = "PENDING"
      /\ Store.opportunities
           (snd (fst (detectAbsorptionOpportunity haversineKm env after
                        truckId lat lng)))
         = Store.opportunities db ++ [first; second].
Proof.
  intros haversineKm env db truckId lat lng first after events.
  unfold detectAbsorptionOpportunity at 1.
  destruct (findTruck db truckId) as [truckA |] eqn:HA; [| discriminate].
  destruct (activeRoutes db truckA) as [| routeA routesA] eqn:HrA;
    [discriminate |].
  destruct (nearbyTrucksQuery haversineKm db truckId lat lng)
    as [nearbyTrucks |] eqn:Hquery; [| discriminate].
  destruct (detectLoop haversineKm env db lat lng truckA routeA nearbyTrucks)
    as [| | m] eqn:Hloop; try discriminate.
  intros [= <- <- <-].
  set (db1 := {| Store.deliveries := Store.deliveries db;
                 Store.trucks := Store.trucks db;
                 Store.users := Store.users db;
                 Store.routes := Store.routes db;
                 Store.hubs := Store.hubs db;
                 Store.opportunities :=
                   Store.opportunities db ++ [matchOpportunity m] |}).
  destruct (detectLoop_same_tables haversineKm env db db1 lat lng truckA
              routeA eq_refl eq_refl eq_refl eq_refl _ m Hloop)
    as (m' & Hloop' & Hsame).
  assert (Hstatus : Opportunity.status (matchOpportunity m) = "PENDING").
  { apply detectLoop_Match in Hloop.
    destruct Hloop as (c & tB & rB & rs & hub & os & _ & _ & _ & _ & _ & ->).
    reflexivity. }
  assert (Hstatus' : Opportunity.status (matchOpportunity m') = "PENDING").
  { apply detectLoop_Match in Hloop'.
    destruct Hloop' as (c & tB & rB & rs & hub & os & _ & _ & _ & _ & _ & ->).
    reflexivity. }
  exists (matchOpportunity m').
  unfold detectAbsorptionOpportunity.
  change (findTruck db1 truckId) with (findTruck db truckId).
  rewrite HA.
  change (activeRoutes db1 truckA) with (activeRoutes db truckA).
  rewrite HrA.
  change (nearbyTrucksQuery haversineKm db1 truckId lat lng)
    with (nearbyTrucksQuery haversineKm db truckId lat lng).
  rewrite Hquery, Hloop'. cbn [fst snd Store.opportunities db1].
  split; [reflexivity |].
  assert (Hroutes : Opportunity.route1Id (matchOpportunity m')
                    = Opportunity.route1Id (matchOpportunity m)
                    /\ Opportunity.route2Id (matchOpportunity m')
                       = Opportunity.route2Id (matchOpportunity m)).
  { change (Opportunity.route1Id (matchOpportunity m'))
      with (Opportunity.route1Id
              (Opportunity.setStatus "PENDING" (matchOpportunity m'))).
    change (Opportunity.route2Id (matchOpportunity m'))
      with (Opportunity.route2Id
              (Opportunity.setStatus "PENDING" (matchOpportunity m'))).
    rewrite Hsame. split; reflexivity. }
  destruct Hroutes as [Hr1 Hr2].
  split; [exact Hr1 |]. split; [exact Hr2 |]. split; [exact Hstatus |].
  split; [exact Hstatus' |].
  now rewrite <- app_assoc.
Qed.

Lemma detect_twice_duplicates_witness :
  exists first second : Opportunity.t,
    Store.opportunities
      (snd (fst (detectAbsorptionOpportunity ProximityScenario.totalKm
                   Scenario.env
                   (snd (fst (detectAbsorptionOpportunity
                                ProximityScenario.totalKm Scenario.env
                                ProximityScenario.store "t1" 0 0)))
                   "t1" 0 0)))
    = [first; second]
    /\ Opportunity.route1Id second = Opportunity.route1Id first
    /\ Opportunity.route2Id second = Opportunity.route2Id first.
Proof.
  destruct (detectAbsorptionOpportunity ProximityScenario.totalKm
              Scenario.env ProximityScenario.store "t1" 0 0)
    as [[result after] events] eqn:Hrun.
  assert (Hsome : exists o, result = Some o).
  { vm_compute in Hrun. injection Hrun as <- _ _. eexists. reflexivity. }
  destruct Hsome as (first & ->).
  destruct (detect_twice_duplicates _ _ _ _ _ _ _ _ _ Hrun)
    as (second & _ & Hr1 & Hr2 & _ & _ & Hstore).
  exists first, second. cbn [fst snd]. rewrite Hstore.
  split; [reflexivity |]. split; assumption.
Defined.
